(** * pwptr: task registry, task-set normalisation and configuration paths

    A shallow embedding of the command-line runner in [src/pwptr.js]
    (the original runner, which selects browser profiles by extension
    mode) and in [src/unnamed/part_000] (the configurable runner, which
    reads [.pwptr.json]).

    Conventions of the embedding.
    - [exportedTasks], [exportedTasksNamespaces] and
      [taskNamespacesToExpand] are arrays used as dictionaries.  Each is
      modelled by its own string-keyed properties together with the
      names every array inherits from [Array.prototype] and
      [Object.prototype]: a look-up of such a name in a condition is
      truthy although the array has no such property of its own.
      [exportedTasks] is enumerated with [Object.entries], so its own
      properties form an association list in insertion order; the other
      two are only indexed, so theirs are finite maps.  Names that are
      array indices ([0], [1], ...) are outside the model: an array
      lists such names first in [Object.entries], whatever the order
      they were written in, and counts them in its [length], so that
      [a["length"]] is truthy once the array holds one.  Here own
      properties are listed in the order they were written in and
      [length] reads as zero; statements that depend on either leave
      these names, or the identifier [length], out.
    - [a[k]] converts [k] to a property key first: an [undefined] key
      reads and writes the property named [undefined].
    - [console.log], [console.error], [process.exit] and uncaught
      exceptions are effects of a small process monad over a world
      (console transcript, globals, file system, terminal).
    - A task entry keeps [namespace] and [description]; its [run]
      operation is never called by the code modelled here.
    - The configuration document is typed: its paths are strings and
      its profiles are objects of JSON values. *)

From Stdlib Require Import Ascii.
From stdpp Require Import base option list gmap strings.

Open Scope string_scope.
Open Scope list_scope.

(** ** JavaScript values and built-ins *)

Module Js.

(** A string-valued expression that may be [undefined]. *)
Abbreviation jsstring := (option string).

(** ToBoolean on strings: only the empty string is falsy. *)
Definition truthy_string (s : string) : bool :=
  match s with EmptyString => false | String _ _ => true end.

(** ToBoolean on a string-or-undefined value. *)
Definition truthy_jsstring (v : jsstring) : bool :=
  match v with None => false | Some s => truthy_string s end.

(** ToBoolean on a length: only zero is falsy. *)
Definition truthy_number (n : nat) : bool := negb (Nat.eqb n 0).

(** ToPropertyKey on a string-or-undefined value. *)
Definition toKey (v : jsstring) : string :=
  match v with None => "undefined" | Some s => s end.

(** Truthiness of [a[k]] for an array [a] used as a dictionary: [own]
    is the array's own property [k], if it has one, and [inherited]
    holds the names every array inherits from [Array.prototype] and
    [Object.prototype], whose values are functions or objects. *)
Definition truthy_at {V : Type} (truthy : V -> bool) (inherited : gset string)
    (k : string) (own : option V) : bool :=
  match own with
  | Some v => truthy v
  | None => bool_decide (k ∈ inherited)
  end.

(** The names an array inherits in ECMAScript 2018, the edition of the
    object spread used by [src/pwptr.js]; later editions add to them. *)
Definition es2018 : gset string :=
  list_to_set
    ["constructor"; "concat"; "copyWithin"; "entries"; "every"; "fill";
     "filter"; "find"; "findIndex"; "forEach"; "includes"; "indexOf"; "join";
     "keys"; "lastIndexOf"; "map"; "pop"; "push"; "reduce"; "reduceRight";
     "reverse"; "shift"; "slice"; "some"; "sort"; "splice"; "toLocaleString";
     "toString"; "unshift"; "values"; "hasOwnProperty"; "isPrototypeOf";
     "propertyIsEnumerable"; "valueOf"; "__proto__"; "__defineGetter__";
     "__defineSetter__"; "__lookupGetter__"; "__lookupSetter__"].

(** Objects enumerated with [Object.entries]: own properties in
    insertion order. *)
Abbreviation obj V := (list (string * V)).

(** [o[k]]: [None] stands for [undefined]. *)
Fixpoint obj_get {V : Type} (o : obj V) (k : string) : option V :=
  match o with
  | [] => None
  | (k', v) :: o' => if String.eqb k' k then Some v else obj_get o' k
  end.

(** [o[k] = v]: an existing property keeps its position, a new one is
    appended. *)
Fixpoint obj_set {V : Type} (o : obj V) (k : string) (v : V) : obj V :=
  match o with
  | [] => [(k, v)]
  | (k', v') :: o' =>
      if String.eqb k' k then (k', v) :: o' else (k', v') :: obj_set o' k v
  end.

(** [Object.keys(o)]. *)
Definition obj_keys {V : Type} (o : obj V) : list string := map fst o.

(** [{...a, ...b}]: the properties of [b] written over a copy of [a]. *)
Definition obj_spread {V : Type} (a b : obj V) : obj V :=
  fold_left (fun o kv => obj_set o (fst kv) (snd kv)) b a.

(** [Set]: distinct elements in insertion order. *)
Definition Set_has (s : list string) (x : string) : bool :=
  existsb (String.eqb x) s.

Definition Set_add (s : list string) (x : string) : list string :=
  if Set_has s x then s else s ++ [x].

(** [new Set(iterable)]. *)
Definition Set_from (l : list string) : list string :=
  fold_left Set_add l [].

Definition Set_size (s : list string) : nat := length s.

End Js.

(** ** The process: console, exit status, uncaught exceptions *)

Module Proc.

(** What the program prints; [render] gives the text of the source's
    template literals (colour codes left out).  [RemoveFailed] holds
    the file and the code of the error [unlinkSync] raised: the source
    prints the error itself, whose text begins with [Error:], the code
    and a colon, and goes on with the system's description of the
    failure, which [render] leaves out. *)
Inductive message : Type :=
  | TaskExists (key : string)
  | NoExportedTasks (tasksDir : string)
  | TaskDirMissing (taskDir : string)
  | TaskDoesNotExist (t : string)
  | OrderNotGuaranteed
  | TasksDirNotFound (tasksDir : string)
  | OutputDirNotCreated (tasksDir : string)
  | InvalidExts (configFile key : string)
  | InvalidExtPath (configFile key p : string)
  | ProfilesDirNotCreated (profilesDir : string)
  | ProfileDirNotCreated (profileDir : string)
  | Prompt (confirmMsg : string)
  | Removed
  | AlreadyRemoved
  | RemoveFailed (file code : string).

Definition dq : string := String (Ascii.ascii_of_nat 34) EmptyString.
Definition nl : string := String (Ascii.ascii_of_nat 10) EmptyString.

Definition render (m : message) : string :=
  match m with
  | TaskExists key =>
      "Exported task or task group name " +:+ dq +:+ key +:+ dq
        +:+ " already exists. Each must be globally unique."
  | NoExportedTasks d =>
      "No exported tasks found in " +:+ dq +:+ d +:+ "/*.js" +:+ dq +:+ " file(s)."
  | TaskDirMissing d => "Task dir " +:+ dq +:+ d +:+ dq +:+ " does not exist."
  | TaskDoesNotExist t =>
      "Task or group of tasks " +:+ dq +:+ t +:+ dq +:+ " does not exist."
  | OrderNotGuaranteed =>
      "Filtering ... 1 or more duplicate tasks provided or within a task group. "
        +:+ "Task run order no longer guaranteed."
  | TasksDirNotFound d =>
      "Resolved tasks directory " +:+ dq +:+ d +:+ dq +:+ " does not exist."
  | OutputDirNotCreated d =>
      "Could not create resolved tasks output directory " +:+ dq +:+ d +:+ dq +:+ "."
  | InvalidExts f key =>
      f +:+ "'s profile " +:+ dq +:+ key +:+ dq +:+ " contains an invalid "
        +:+ dq +:+ "exts" +:+ dq +:+ " key." +:+ nl
        +:+ "It should be an array of paths of Chrome extensions to load."
  | InvalidExtPath f key p =>
      f +:+ "'s profile " +:+ dq +:+ key +:+ dq +:+ " contains " +:+ dq +:+ "exts"
        +:+ dq +:+ " with invalid resolved path:" +:+ nl +:+ p +:+ "."
  | ProfilesDirNotCreated d =>
      "Could not create directory for Chrome profiles " +:+ dq +:+ d +:+ dq +:+ "."
  | ProfileDirNotCreated d =>
      "Could not Chrome profile directory " +:+ dq +:+ d +:+ dq +:+ "."
  | Prompt c => c +:+ nl +:+ "(y/n): "
  | Removed => "Successfully removed ${file}"
  | AlreadyRemoved => "Does not exist or already removed."
  | RemoveFailed file code =>
      "Failed to remove: " +:+ file +:+ nl +:+ "Error: " +:+ code +:+ ": "
  end.

(** A line of the transcript: standard output or the error stream. *)
Inductive line : Type :=
  | Log (m : message)
  | Err (m : message).

(** How a computation over a world [W] ends. *)
Inductive result (W A : Type) : Type :=
  | Returned (a : A) (w : W)
  | Exited (code : nat) (w : W)
  | Threw (e : string) (w : W).
Arguments Returned {W A} a w.
Arguments Exited {W A} code w.
Arguments Threw {W A} e w.

(** The value returned, if any. *)
Definition returned {W A : Type} (r : result W A) : option A :=
  match r with Returned a _ => Some a | _ => None end.

(** The world the computation leaves behind. *)
Definition final {W A : Type} (r : result W A) : W :=
  match r with Returned _ w | Exited _ w | Threw _ w => w end.

Definition proc (W A : Type) : Type := W -> result W A.

Definition ret {W A : Type} (a : A) : proc W A := fun w => Returned a w.

Definition bind {W A B : Type} (m : proc W A) (k : A -> proc W B) : proc W B :=
  fun w =>
    match m w with
    | Returned a w' => k a w'
    | Exited c w' => Exited c w'
    | Threw e w' => Threw e w'
    end.

(** [process.exit(code)] never returns. *)
Definition process_exit {W A : Type} (code : nat) : proc W A :=
  fun w => Exited code w.

(** An exception nobody catches. *)
Definition throw {W A : Type} (e : string) : proc W A :=
  fun w => Threw e w.

Definition gets {W A : Type} (f : W -> A) : proc W A :=
  fun w => Returned (f w) w.

Definition modify {W : Type} (f : W -> W) : proc W unit :=
  fun w => Returned tt (f w).

(** [try { body } catch (e) { handler }] *)
Definition try_catch {W A : Type} (body : proc W A) (handler : string -> proc W A)
  : proc W A :=
  fun w =>
    match body w with
    | Threw e w' => handler e w'
    | r => r
    end.

(** [if (c) { body }] with no [else]. *)
Definition when {W : Type} (c : bool) (body : proc W unit) : proc W unit :=
  if c then body else ret tt.

(** [l.forEach(x => ...)] and [for (const x of l)], the loop body
    threading the variables it assigns. *)
Fixpoint foldM {W A S : Type} (body : S -> A -> proc W S) (l : list A) (s : S)
  : proc W S :=
  match l with
  | [] => ret s
  | x :: l' => bind (body s x) (fun s' => foldM body l' s')
  end.

Definition forEach {W A : Type} (l : list A) (body : A -> proc W unit)
  : proc W unit :=
  foldM (fun _ x => body x) l tt.

End Proc.

Declare Scope proc_scope.
Delimit Scope proc_scope with proc.
Notation "'let*' x ':=' m 'in' k" := (Proc.bind m (fun x => k))
  (at level 10, x pattern, m at level 100, k at level 200) : proc_scope.
Notation "m ;; k" := (Proc.bind m (fun _ => k))
  (at level 100, k at level 200, right associativity) : proc_scope.
Open Scope proc_scope.

(** ** Task registry and task-set normaliser *)

Module Tasks.
Import Js Proc.

(** A task entry as a task-definition module exports it. *)
Record Task : Type := { namespace : jsstring; description : string }.

(** The console, the globals of the runner, and the names its arrays
    inherit in the engine at hand. *)
Record world : Type := {
  console : list line;
  exportedTasks : obj Task;
  exportedTasksNamespaces : gmap string jsstring;
  inherited : gset string
}.

Definition console_log (m : message) : proc world unit :=
  modify (fun w => {| console := console w ++ [Log m];
                      exportedTasks := exportedTasks w;
                      exportedTasksNamespaces := exportedTasksNamespaces w;
                      inherited := inherited w |}).

Definition console_error (m : message) : proc world unit :=
  modify (fun w => {| console := console w ++ [Err m];
                      exportedTasks := exportedTasks w;
                      exportedTasksNamespaces := exportedTasksNamespaces w;
                      inherited := inherited w |}).

(** [exportedTasks[key] = value]; an array refuses an object as its
    [length].  The new property comes last, as it does in
    [Object.entries] for a name that is not an array index. *)
Definition set_exportedTasks (key : string) (value : Task) : proc world unit :=
  if String.eqb key "length" then throw "RangeError"
  else
    modify (fun w => {| console := console w;
                        exportedTasks := obj_set (exportedTasks w) key value;
                        exportedTasksNamespaces := exportedTasksNamespaces w;
                        inherited := inherited w |}).

(** [exportedTasksNamespaces[n] = n]; an array refuses the string
    [length] as its [length]. *)
Definition set_exportedTasksNamespaces (n : jsstring) : proc world unit :=
  if String.eqb (toKey n) "length" then throw "RangeError"
  else
    modify (fun w => {| console := console w;
                        exportedTasks := exportedTasks w;
                        exportedTasksNamespaces :=
                          <[toKey n := n]> (exportedTasksNamespaces w);
                        inherited := inherited w |}).

(** [exportedTasks[k]] in a condition: a task entry is an object, and
    [exportedTasks] is an array.  Its [length] is zero, hence falsy, as
    long as no name is an array index. *)
Definition has_task (k : string) : proc world bool :=
  gets (fun w => truthy_at (fun _ : Task => true) (inherited w) k
                   (obj_get (exportedTasks w) k)).

(** [exportedTasksNamespaces[k]] in a condition; the array's [length]
    is zero as long as no label is an array index. *)
Definition has_label (k : string) : proc world bool :=
  gets (fun w => truthy_at truthy_jsstring (inherited w) k
                   (exportedTasksNamespaces w !! k)).

(** [/\.js$/.test(file)] *)
Fixpoint is_js_file (file : string) : bool :=
  match file with
  | EmptyString => false
  | String c rest => String.eqb file ".js" || is_js_file rest
  end.

(** The body of [tasks.forEach] in [normalizeTaskSet]; the pair holds
    [taskNamespacesToExpand] and [tasksToRun]. *)
Definition classify (st : gmap string bool * list string) (t : string)
  : proc world (gmap string bool * list string) :=
  let* isTask := has_task t in
  let* isLabel := has_label t in
  when (negb isTask && negb isLabel)
    (console_error (TaskDoesNotExist t) ;; process_exit 1) ;;
  if isLabel
  then ret (<[t := true]> (fst st), snd st)
  else ret (fst st, snd st ++ [t]).

(** The body of the loop over [Object.entries(exportedTasks)];
    [taskNamespacesToExpand] is an array as well. *)
Definition expand (proto : gset string) (taskNamespacesToExpand : gmap string bool)
  (tasksToRun : list string) (kv : string * Task) : list string :=
  let k := toKey (namespace (snd kv)) in
  if truthy_at (fun b : bool => b) proto k (taskNamespacesToExpand !! k)
  then tasksToRun ++ [fst kv]
  else tasksToRun.

(** [normalizeTaskSet], the same text in both source files. *)
Definition normalizeTaskSet (tasks : list string) : proc world (list string) :=
  let* st := foldM classify tasks (∅, []) in
  let taskNamespacesToExpand := fst st in
  let* tasksByName := gets exportedTasks in
  let* proto := gets inherited in
  let tasksToRun :=
    fold_left (expand proto taskNamespacesToExpand) tasksByName (snd st) in
  let taskSet := Set_from tasksToRun in
  when (negb (Nat.eqb (Set_size taskSet) (length tasks)))
    (console_log OrderNotGuaranteed) ;;
  ret taskSet.

(** A directory listing: each file name with what [require] returns
    for it (the entries of its exports, in [Object.entries] order). *)
Definition listing : Type := list (string * obj Task).

(** The loop of [parseTaskFiles] over the directory, the same in both
    files but for the body [register] run on each exported entry. *)
Definition merge (register : string * Task -> proc world unit) (dir : listing)
  : proc world unit :=
  forEach dir (fun f => when (is_js_file (fst f)) (forEach (snd f) register)).

(** The entries the loop visits, in order. *)
Definition entries_of (dir : listing) : obj Task :=
  concat (map snd (List.filter (fun f => is_js_file (fst f)) dir)).

End Tasks.

(** [parseTaskFiles] of [src/unnamed/part_000]. *)
Module Part000.
Import Js Proc Tasks.

Definition register (kv : string * Task) : proc world unit :=
  let key := fst kv in
  let value := snd kv in
  let n := namespace value in
  let* nameTaken := has_task key in
  let* labelTaken := has_task (toKey n) in
  if nameTaken || labelTaken
  then console_error (TaskExists key) ;; process_exit 1
  else
    when (truthy_jsstring n) (set_exportedTasksNamespaces n) ;;
    set_exportedTasks key value.

Definition parseTaskFiles (tasksDir : string) (dir : listing) : proc world unit :=
  merge register dir ;;
  let* tasksByName := gets exportedTasks in
  when (negb (truthy_number (length (obj_keys tasksByName))))
    (console_error (NoExportedTasks tasksDir) ;; process_exit 1).

End Part000.

(** [parseTaskFiles] of [src/pwptr.js]. *)
Module Pwptr.
Import Js Proc Tasks.

Definition register (kv : string * Task) : proc world unit :=
  let key := fst kv in
  let value := snd kv in
  let n := namespace value in
  let* nameTaken := has_task key in
  let* labelTaken := has_task (toKey n) in
  if nameTaken || labelTaken
  then console_error (TaskExists key) ;; process_exit 1
  else
    set_exportedTasksNamespaces n ;;
    set_exportedTasks key value.

Definition parseTaskFiles (taskDir : string) (taskDirExists : bool)
  (dir : listing) : proc world unit :=
  when (negb taskDirExists)
    (console_error (TaskDirMissing taskDir) ;; process_exit 1) ;;
  merge register dir.

End Pwptr.

(** The process starts with empty globals and an empty transcript. *)
Definition start (proto : gset string) : Tasks.world :=
  {| Tasks.console := []; Tasks.exportedTasks := [];
     Tasks.exportedTasksNamespaces := ∅; Tasks.inherited := proto |}.


(** ** The spec's vocabulary, stated on the registry's entries *)

Module Registry.
Import Js Proc Tasks.

(** [t] is the name of a registered task. *)
Definition is_task_name (w : world) (t : string) : bool :=
  existsb (fun kv => String.eqb (fst kv) t) (exportedTasks w).

(** The entry declares the namespace label [t]; an empty label counts
    as none, as [if (n)] has it in [src/unnamed/part_000]. *)
Definition declares (value : Task) (t : string) : bool :=
  match namespace value with
  | Some n => truthy_string n && String.eqb n t
  | None => false
  end.

(** [t] is the namespace label of some registered task. *)
Definition is_namespace_label (w : world) (t : string) : bool :=
  existsb (fun kv => declares (snd kv) t) (exportedTasks w).

(** [t] is a name arrays inherit. *)
Definition inherits (w : world) (t : string) : bool :=
  bool_decide (t ∈ inherited w).

(** [t] is neither a task name nor a namespace label. *)
Definition unknown (w : world) (t : string) : bool :=
  negb (is_task_name w t) && negb (is_namespace_label w t).

(** The first loop of [normalizeTaskSet] rejects [t]: it is unknown
    and is not a name arrays inherit. *)
Definition rejected (w : world) (t : string) : bool :=
  unknown w t && negb (inherits w t).

(** Requested identifiers that name tasks directly, in request order. *)
Definition direct_names (w : world) (tasks : list string) : list string :=
  List.filter (fun t => negb (is_namespace_label w t)) tasks.

(** Members of the requested namespaces, in registry scan order. *)
Definition namespace_members (w : world) (tasks : list string) : list string :=
  map fst (List.filter (fun kv => existsb (declares (snd kv)) tasks)
             (exportedTasks w)).

(** The run order the spec promises when nothing is listed twice. *)
Definition requested_order (w : world) (tasks : list string) : list string :=
  direct_names w tasks ++ namespace_members w tasks.

(** The table of namespace labels holds exactly the declared labels. *)
Definition labels_derived (w : world) : Prop :=
  forall t,
    match exportedTasksNamespaces w !! t with
    | Some v => truthy_jsstring v = true /\ is_namespace_label w t = true
    | None => is_namespace_label w t = false
    end.

(** No namespace label equals the name of a task registered earlier. *)
Definition labels_avoid_earlier_names (o : obj Task) : Prop :=
  forall i j ki vi kj vj n,
    o !! i = Some (ki, vi) -> o !! j = Some (kj, vj) -> i < j ->
    namespace vj = Some n -> n <> ki.

(** Task names are pairwise distinct and differ from the labels
    declared after them. *)
Definition names_distinct (w : world) : Prop :=
  NoDup (obj_keys (exportedTasks w))
  /\ labels_avoid_earlier_names (exportedTasks w).

(** The new entry's name, or the label it declares, is the name of a
    registered task. *)
Definition collides (w : world) (kv : string * Task) : bool :=
  is_task_name w (fst kv)
  || match namespace (snd kv) with
     | Some n => is_task_name w n
     | None => false
     end.

(** [taskNamespacesToExpand] after the first loop of [normalizeTaskSet]. *)
Definition marks (w : world) (tasks : list string) (m : gmap string bool)
  : gmap string bool :=
  fold_left (fun m t => if is_namespace_label w t || inherits w t
                        then <[t := true]> m else m)
    tasks m.

(** Requested identifiers that the first loop keeps as task names. *)
Definition kept (w : world) (tasks : list string) : list string :=
  List.filter (fun t => negb (is_namespace_label w t || inherits w t)) tasks.

(** What the loop over [Object.entries(exportedTasks)] appends. *)
Definition expanded (w : world) (tasks : list string) : list string :=
  map fst
    (List.filter
       (fun kv => let k := toKey (namespace (snd kv)) in
                  is_namespace_label w k && Set_has tasks k || inherits w k)
       (exportedTasks w)).

(** The request asks for nothing the engine reads in its own way: no
    requested identifier and no key under which an entry's namespace is
    looked up is a name arrays inherit, and the label [undefined] is not
    requested while an entry declares no namespace. *)
Definition plain_request (w : world) (tasks : list string) : bool :=
  forallb (fun t => negb (inherits w t)) tasks
  && forallb (fun kv => negb (inherits w (toKey (namespace (snd kv)))))
       (exportedTasks w)
  && negb (is_namespace_label w "undefined" && Set_has tasks "undefined"
           && existsb (fun kv => match namespace (snd kv) with
                                 | None => true
                                 | Some _ => false
                                 end)
                (exportedTasks w)).

(** The world with one more line on the error stream. *)
Definition with_error (w : world) (m : message) : world :=
  {| console := console w ++ [Err m];
     exportedTasks := exportedTasks w;
     exportedTasksNamespaces := exportedTasksNamespaces w;
     inherited := inherited w |}.

(** The world with one more line on standard output. *)
Definition with_log (w : world) (m : message) : world :=
  {| console := console w ++ [Log m];
     exportedTasks := exportedTasks w;
     exportedTasksNamespaces := exportedTasksNamespaces w;
     inherited := inherited w |}.

End Registry.


(** ** Strings and paths *)

Module Str.

(** The string without its first [n] characters. *)
Fixpoint skip (n : nat) (s : string) : string :=
  match n, s with
  | S n', String _ s' => skip n' s'
  | _, _ => s
  end.

(** [s.includes(w)] *)
Fixpoint includes (w s : string) : bool :=
  String.prefix w s
  || match s with
     | EmptyString => false
     | String _ s' => includes w s'
     end.

(** [w] occurs in [s], as a proposition. *)
Definition occurs (w s : string) : Prop := exists a b, s = a +:+ w +:+ b.

(** The character occurs in the string. *)
Fixpoint has_char (c : Ascii.ascii) (s : string) : bool :=
  match s with
  | EmptyString => false
  | String c' s' => Ascii.eqb c' c || has_char c s'
  end.

(** The replacement text of [String.prototype.replace] for a string
    pattern (no captures): [$$], [$&], [$`] and [$'] are expanded, any
    other character stands for itself. *)
Fixpoint getSubstitution (matched before after template : string) : string :=
  match template with
  | EmptyString => EmptyString
  | String c rest =>
      if Ascii.eqb c "$"%char then
        match rest with
        | EmptyString => String c EmptyString
        | String d rest' =>
            if Ascii.eqb d "$"%char then
              String "$"%char (getSubstitution matched before after rest')
            else if Ascii.eqb d "&"%char then
              matched +:+ getSubstitution matched before after rest'
            else if Ascii.eqb d "`"%char then
              before +:+ getSubstitution matched before after rest'
            else if Ascii.eqb d "'"%char then
              after +:+ getSubstitution matched before after rest'
            else String c (getSubstitution matched before after rest)
        end
      else String c (getSubstitution matched before after rest)
  end.

(** [replace], the text before the position under scan in [before]. *)
Fixpoint replace_from (before s pattern template : string) : string :=
  if String.prefix pattern s then
    let after := skip (String.length pattern) s in
    getSubstitution pattern before after template +:+ after
  else
    match s with
    | EmptyString => EmptyString
    | String c s' =>
        String c (replace_from (before +:+ String c EmptyString) s' pattern template)
    end.

(** [s.replace(pattern, template)] with a string pattern: the first
    occurrence only. *)
Definition replace (s pattern template : string) : string :=
  replace_from EmptyString s pattern template.

(** [s.split(sep)] for a one-character separator, [cur] being the
    piece under scan. *)
Fixpoint split_from (sep : Ascii.ascii) (cur s : string) : list string :=
  match s with
  | EmptyString => [cur]
  | String c s' =>
      if Ascii.eqb c sep then cur :: split_from sep EmptyString s'
      else split_from sep (cur +:+ String c EmptyString) s'
  end.

Definition split (sep : Ascii.ascii) (s : string) : list string :=
  split_from sep EmptyString s.

(** [l.join(sep)] *)
Fixpoint join (sep : string) (l : list string) : string :=
  match l with
  | [] => EmptyString
  | [x] => x
  | x :: l' => x +:+ sep +:+ join sep l'
  end.

End Str.

(** Node's [path] for POSIX. *)
Module Path.
Import Str.

(** [normalizeString] of an absolute path: empty and [.] segments are
    dropped, [..] drops the segment before it (none at the root);
    [kept] holds the segments kept so far, last first. *)
Fixpoint normalize (kept segs : list string) : list string :=
  match segs with
  | [] => rev kept
  | seg :: rest =>
      if String.eqb seg "" || String.eqb seg "." then normalize kept rest
      else if String.eqb seg ".." then normalize (tail kept) rest
      else normalize (seg :: kept) rest
  end.

(** [path.resolve(p)] with one argument, [cwd] being [process.cwd()]. *)
Definition resolve (cwd p : string) : string :=
  let full := if String.prefix "/" p then p else cwd +:+ "/" +:+ p in
  "/" +:+ join "/" (normalize [] (split "/"%char full)).

End Path.

(** ** Configuration of [src/unnamed/part_000] *)

Module Config.
Import Js Proc Str.

(** What the script reads from its environment. *)
Record env : Type := {
  HOME : jsstring;          (* process.env.HOME *)
  dirname : string;         (* __dirname *)
  cwd : string              (* process.cwd() *)
}.

(** ToString on a string-or-undefined value. *)
Definition toString (v : jsstring) : string :=
  match v with None => "undefined" | Some s => s end.

Definition configDir (e : env) : string :=
  Path.resolve (cwd e) (dirname e +:+ "/../..").

Definition configFile (e : env) : string := configDir e +:+ "/.pwptr.json".

(** [/^(\.|\/)/.test(p)] *)
Definition starts_with_dot_or_slash (p : string) : bool :=
  String.prefix "." p || String.prefix "/" p.

(** [/^\.{1,2}\//.test(p)] *)
Definition is_relative (p : string) : bool :=
  String.prefix "./" p || String.prefix "../" p.

Definition resolveConfigPath (e : env) (p : string) : string :=
  let p := replace p "{HOME}" (toString (HOME e)) in
  let p := if negb (starts_with_dot_or_slash p) then "./" +:+ p else p in
  if is_relative p then Path.resolve (cwd e) (configDir e +:+ "/" +:+ p) else p.

#[local] Set Warnings "-register-all".

(** Values of a JSON document. *)
Inductive json : Type :=
  | JNull
  | JBool (b : bool)
  | JNumber (n : nat)
  | JString (s : string)
  | JArray (l : list json)
  | JObject (o : list (string * json)).

(** The document in [.pwptr.json], or [{}] when there is none; a field
    that is absent is [None]. *)
Record userConfig : Type := {
  u_tasksDir : option string;
  u_tasksOutputDir : option string;
  u_profilesDir : option string;
  u_profiles : option (obj (obj json))
}.

(** The configuration once the script has run. *)
Record config : Type := {
  tasksDir : string;
  tasksOutputDir : string;
  profilesDir : string;
  profiles : obj (obj json)
}.

Definition defaultProfileOpts : obj json :=
  [("exts", JArray []); ("runByDefault", JBool false); ("devtools", JBool false);
   ("screenshot", JBool false); ("autoclose", JBool true)].

(** The console and the file system: the paths that exist, and those
    [mkdirSync] is able to create. *)
Record world : Type := {
  console : list line;
  existing : gset string;
  creatable : gset string
}.

Definition console_error (m : message) : proc world unit :=
  modify (fun w => {| console := console w ++ [Err m];
                      existing := existing w; creatable := creatable w |}).

Definition existsSync (p : string) : proc world bool :=
  gets (fun w => bool_decide (p ∈ existing w)).

(** [fs.mkdirSync(p)] throws when the directory cannot be created. *)
Definition mkdirSync (p : string) : proc world unit :=
  fun w =>
    if bool_decide (p ∈ creatable w) && negb (bool_decide (p ∈ existing w))
    then Returned tt {| console := console w;
                        existing := {[p]} ∪ existing w;
                        creatable := creatable w |}
    else Threw "Error" w.

(** [if (!fs.existsSync(d)) { try { fs.mkdirSync(d) } catch (e) { ...; process.exit(1) } }] *)
Definition ensureDir (d : string) (m : message) : proc world unit :=
  let* present := existsSync d in
  when (negb present)
    (try_catch (mkdirSync d) (fun _ => console_error m ;; process_exit 1)).

(** The callback of [paths.forEach]: [resolved] holds the elements of
    [exts] rewritten so far. *)
Definition checkExt (e : env) (key : string) (resolved : list json) (p : json)
  : proc world (list json) :=
  match p with
  | JString s =>
      let p := resolveConfigPath e s in
      let* present := existsSync p in
      if negb present
      then console_error (InvalidExtPath (configFile e) key p) ;; process_exit 1
      else ret (resolved ++ [JString p])
  | _ => throw "TypeError"    (* p.replace is not a function *)
  end.

(** The body of the loop that validates the extensions of a profile. *)
Definition checkProfile (e : env) (profiles : obj (obj json)) (key : string)
  : proc world (obj (obj json)) :=
  let opts := default [] (obj_get profiles key) in
  match obj_get opts "exts" with
  | None | Some JNull => throw "TypeError"   (* paths.forEach of undefined or null *)
  | Some (JArray paths) =>
      let* resolved := foldM (checkExt e key) paths [] in
      ret (obj_set profiles key (obj_set opts "exts" (JArray resolved)))
  | Some _ => console_error (InvalidExts (configFile e) key) ;; process_exit 1
  end.

(** The script from the load of the configuration to the last
    directory it creates. *)
Definition resolveConfig (e : env) (user : userConfig) : proc world config :=
  let tasksDir :=
    resolveConfigPath e (default (configDir e +:+ "/tasks") (u_tasksDir user)) in
  let* present := existsSync tasksDir in
  when (negb present)
    (console_error (TasksDirNotFound tasksDir) ;; process_exit 1) ;;
  let tasksOutputDir :=
    resolveConfigPath e (default (tasksDir +:+ "/output") (u_tasksOutputDir user)) in
  ensureDir tasksOutputDir (OutputDirNotCreated tasksDir) ;;
  let profiles0 :=
    match u_profiles user with
    | None => [("default", obj_spread defaultProfileOpts [("runByDefault", JBool true)])]
    | Some given =>
        fold_left (fun ps kv => obj_set ps (fst kv) (obj_spread defaultProfileOpts (snd kv)))
          given given
    end in
  let* profiles := foldM (checkProfile e) (obj_keys profiles0) profiles0 in
  let profilesDir :=
    resolveConfigPath e
      (default (tasksDir +:+ "../.chrome-profiles") (u_profilesDir user)) in
  ensureDir profilesDir (ProfilesDirNotCreated profilesDir) ;;
  forEach (obj_keys profiles) (fun key =>
    let profileDir := profilesDir +:+ "/" +:+ key in
    ensureDir profileDir (ProfileDirNotCreated profileDir)) ;;
  ret {| tasksDir := tasksDir; tasksOutputDir := tasksOutputDir;
         profilesDir := profilesDir; profiles := profiles |}.

(** An [exts] value of a JSON document that is not [null] and has no
    [forEach]: a boolean, a number, a string or an object. *)
Definition lacks_forEach (v : json) : bool :=
  match v with
  | JBool _ | JNumber _ | JString _ | JObject _ => true
  | JNull | JArray _ => false
  end.

(** The world with one more line on the error stream. *)
Definition with_error (w : world) (m : message) : world :=
  {| console := console w ++ [Err m];
     existing := existing w; creatable := creatable w |}.

(** The sibling of the tasks directory named [.chrome-profiles]. *)
Definition sibling_profilesDir (e : env) (tasksDir : string) : string :=
  Path.resolve (cwd e) (tasksDir +:+ "/" +:+ "../.chrome-profiles").

End Config.

(** ** Cookie deletion of [src/pwptr.js] *)

Module Cookies.
Import Js Proc.

(** The terminal and the files: the lines still to be read from
    standard input, the files that exist, and for the files that cannot
    be removed the code of the error [unlinkSync] raises. *)
Record world : Type := {
  console : list line;
  stdin : list string;
  files : gset string;
  locked : gmap string string;
  readline_open : bool
}.

Definition console_log (m : message) : proc world unit :=
  modify (fun w => {| console := console w ++ [Log m]; stdin := stdin w;
                      files := files w; locked := locked w;
                      readline_open := readline_open w |}).

Definition console_error (m : message) : proc world unit :=
  modify (fun w => {| console := console w ++ [Err m]; stdin := stdin w;
                      files := files w; locked := locked w;
                      readline_open := readline_open w |}).

(** [readline.createInterface(...)] and [rl.close()] *)
Definition set_readline (b : bool) : proc world unit :=
  modify (fun w => {| console := console w; stdin := stdin w;
                      files := files w; locked := locked w;
                      readline_open := b |}).

(** [(await it.next()).value]: the next line, [undefined] at the end
    of the input. *)
Definition next_line : proc world jsstring :=
  fun w =>
    match stdin w with
    | [] => Returned None w
    | l :: rest =>
        Returned (Some l)
          {| console := console w; stdin := rest; files := files w;
             locked := locked w; readline_open := readline_open w |}
    end.

(** [fs.unlinkSync(file)]: the exception carries the error's [code]. *)
Definition unlinkSync (file : string) : proc world unit :=
  fun w =>
    match locked w !! file with
    | Some code => Threw code w
    | None =>
        if bool_decide (file ∈ files w)
        then Returned tt {| console := console w; stdin := stdin w;
                            files := files w ∖ {[file]}; locked := locked w;
                            readline_open := readline_open w |}
        else Threw "ENOENT" w
    end.

(** [answer.value === 'y'] *)
Definition is_yes (answer : jsstring) : bool :=
  match answer with Some s => String.eqb s "y" | None => false end.

Definition delFile (file : string) (confirmMsg : option string) : proc world unit :=
  let confirmMsg :=
    default ("Are you sure you want to delete " +:+ file +:+ "?") confirmMsg in
  set_readline true ;;
  console_log (Prompt confirmMsg) ;;
  let* answer := next_line in
  when (is_yes answer)
    (try_catch
       (unlinkSync file ;; console_log Removed)
       (fun code =>
          if String.eqb code "ENOENT"
          then console_log AlreadyRemoved
          else console_error (RemoveFailed file code) ;; process_exit 1)) ;;
  set_readline false.

End Cookies.


(** ** Registries used as examples *)

Module Examples.
Import Js Proc Tasks Registry.

Definition entry (ns : jsstring) : Task :=
  {| namespace := ns; description := "" |}.

(** The registry of the spec: [a] and [b] in [g1], [c] on its own. *)
Definition listing_abc : listing :=
  [("site.js", [("a", entry (Some "g1")); ("b", entry (Some "g1"));
                ("c", entry None)])].

Definition registry_abc : world :=
  {| console := [];
     exportedTasks := [("a", entry (Some "g1")); ("b", entry (Some "g1"));
                       ("c", entry None)];
     exportedTasksNamespaces := <["g1" := Some "g1"]> ∅;
     inherited := es2018 |}.

(** A namespace labelled [undefined] next to a task without namespace. *)
Definition listing_undefined : listing :=
  [("site.js", [("a", entry (Some "undefined")); ("c", entry None)])].

Definition registry_undefined : world :=
  {| console := [];
     exportedTasks := [("a", entry (Some "undefined")); ("c", entry None)];
     exportedTasksNamespaces := <["undefined" := Some "undefined"]> ∅;
     inherited := es2018 |}.

Definition listing_login : listing :=
  [("README.md", []);
   ("account.js", [("login", entry (Some "undefined")); ("logout", entry None)])].

Definition registry_login : world :=
  {| console := [];
     exportedTasks := [("login", entry (Some "undefined")); ("logout", entry None)];
     exportedTasksNamespaces := <["undefined" := Some "undefined"]> ∅;
     inherited := es2018 |}.

(** Two tasks in [g1], then a task named [g1], in two modules. *)
Definition listing_clash : listing :=
  [("a.js", [("a", entry (Some "g1")); ("b", entry (Some "g1"))]);
   ("b.js", [("g1", entry None)])].

Definition registry_clash : world :=
  {| console := [];
     exportedTasks := [("a", entry (Some "g1")); ("b", entry (Some "g1"));
                       ("g1", entry None)];
     exportedTasksNamespaces := <["g1" := Some "g1"]> ∅;
     inherited := es2018 |}.

(** The same registry as [src/pwptr.js] builds it: the label table
    also holds the key [undefined]. *)
Definition registry_clash_pwptr : world :=
  {| console := [];
     exportedTasks := [("a", entry (Some "g1")); ("b", entry (Some "g1"));
                       ("g1", entry None)];
     exportedTasksNamespaces := <["undefined" := None]> (<["g1" := Some "g1"]> ∅);
     inherited := es2018 |}.

(** A module that exports a task named like one already registered,
    and one whose namespace is the name of a registered task. *)
Definition listing_twice : listing :=
  [("a.js", [("a", entry (Some "g1"))]); ("b.js", [("a", entry None)])].

Definition listing_label_taken : listing :=
  [("a.js", [("a", entry None)]); ("b.js", [("b", entry (Some "a"))])].

Definition registry_a : world :=
  {| console := [];
     exportedTasks := [("a", entry None)];
     exportedTasksNamespaces := ∅;
     inherited := es2018 |}.

End Examples.

(** ** Configurations used as examples *)

Module ConfigExamples.
Import Js Proc Config.

(** The runner installed under [/proj/node_modules/pwptr]. *)
Definition installed : env :=
  {| HOME := Some "/home/u"; dirname := "/proj/node_modules/pwptr"; cwd := "/work" |}.

(** No [.pwptr.json]. *)
Definition no_config : userConfig :=
  {| u_tasksDir := None; u_tasksOutputDir := None; u_profilesDir := None;
     u_profiles := None |}.

(** One profile, whose [exts] is the given value. *)
Definition profile_with_exts (v : json) : userConfig :=
  {| u_tasksDir := None; u_tasksOutputDir := None; u_profilesDir := None;
     u_profiles := Some [("work", [("exts", v)])] |}.

(** Only the tasks directory exists; every directory the script may
    ask for can be created. *)
Definition fresh_project : world :=
  {| console := [];
     existing := {["/proj/tasks"]};
     creatable := {["/proj/tasks/output"; "/proj/.chrome-profiles";
                    "/proj/.chrome-profiles/default";
                    "/proj/tasks../.chrome-profiles";
                    "/proj/tasks../.chrome-profiles/default"]} |}.

(** Only the tasks directory exists; directories can be created where
    their parent exists or is created before them. *)
Definition bare_project : world :=
  {| console := [];
     existing := {["/proj/tasks"]};
     creatable := {["/proj/tasks/output"; "/proj/.chrome-profiles";
                    "/proj/.chrome-profiles/default"]} |}.

Definition default_profiles : obj (obj json) :=
  [("default", [("exts", JArray []); ("runByDefault", JBool true);
                ("devtools", JBool false); ("screenshot", JBool false);
                ("autoclose", JBool true)])].

End ConfigExamples.

(** ** Terminals used as examples *)

Module CookieExamples.
Import Proc Cookies.

(** The user answers [y]; there is no cookie file. *)
Definition terminal_absent : world :=
  {| console := []; stdin := ["y"]; files := ∅; locked := ∅;
     readline_open := false |}.

(** The user answers [y]; the cookie file exists and may not be removed. *)
Definition terminal_denied : world :=
  {| console := []; stdin := ["y"; "n"];
     files := {["/p/dev/Default/Cookies"]};
     locked := {["/p/dev/Default/Cookies" := "EACCES"]};
     readline_open := false |}.

End CookieExamples.

(** ** The commands [list] and [run] *)

Module Commands.
Import Js Proc Tasks.

(** What the loop of the [list] command passes to [console.log]: the
    header of a namespace, a line break followed by [value.namespace],
    or the line of a task, its name followed by its description. *)
Inductive listed : Type :=
  | Header (namespace : jsstring)
  | TaskLine (key description : string).

(** [a !== b] on values that are strings or [undefined]. *)
Definition strict_ne (a b : jsstring) : bool := negb (bool_decide (a = b)).

(** The body of the loop of [list]: the state holds the variable
    [namespace] and the lines printed so far. *)
Definition listEntry (st : jsstring * list listed) (kv : string * Task)
  : jsstring * list listed :=
  let key := fst kv in
  let value := snd kv in
  let st :=
    if strict_ne (fst st) (namespace value)
    then (namespace value, snd st ++ [Header (namespace value)])
    else st in
  (fst st, snd st ++ [TaskLine key (description value)]).

(** The handler of [list], the same text in both source files:
    [parseTaskFiles], then the loop over [Object.entries(exportedTasks)]
    with [namespace] undefined at first.  The loop prints only once
    [parseTaskFiles] has returned, so its lines follow whatever the
    console holds by then: the handler returns them, in order. *)
Definition listCommand (parseTaskFiles : proc world unit) : proc world (list listed) :=
  parseTaskFiles ;;
  let* tasksByName := gets exportedTasks in
  ret (snd (fold_left listEntry tasksByName (None, []))).

(** The handler of [run] up to its loop, the same text in both source
    files: [argv.tasks || []], [parseTaskFiles], [normalizeTaskSet]; it
    returns the set the loop iterates to run the tasks. *)
Definition runCommand (parseTaskFiles : proc world unit) (tasks : option (list string))
  : proc world (list string) :=
  let tasks := default [] tasks in
  parseTaskFiles ;;
  normalizeTaskSet tasks.

(** The task lines of a listing, in order. *)
Definition task_lines (out : list listed) : list (string * string) :=
  omap (fun l => match l with
                 | TaskLine key description => Some (key, description)
                 | Header _ => None
                 end) out.

(** The namespace of the last header of a listing, [undefined] when it
    has none. *)
Definition last_header (out : list listed) : jsstring :=
  fold_left (fun ns l => match l with
                         | Header n => n
                         | TaskLine _ _ => ns
                         end) out None.

End Commands.

(** ** Registries built by [parseTaskFiles] *)

Module Built.
Import Js Proc Tasks Registry.

(** [w] is the state [parseTaskFiles] of one of the two files returns
    in, for the directory [dir], in a process that has just started. *)
Definition built (dir : listing) (proto : gset string) (w : world) : Prop :=
  (exists tasksDir, Part000.parseTaskFiles tasksDir dir (start proto) = Returned tt w)
  \/ (exists taskDir taskDirExists,
        Pwptr.parseTaskFiles taskDir taskDirExists dir (start proto) = Returned tt w).

(** No entry's name, and no key under which an entry's namespace is
    looked up, is a name arrays inherit. *)
Definition entries_avoid_inherited (w : world) : Prop :=
  Forall (fun kv => (fst kv ∉ inherited w) /\ (toKey (namespace (snd kv)) ∉ inherited w))
    (exportedTasks w).

(** Every label of the table is stored under itself. *)
Definition labels_keyed (w : world) : Prop :=
  forall k v, exportedTasksNamespaces w !! k = Some v -> v = Some k.

End Built.

(** ** What a step of the runner leaves as it was *)

Module Frame.
Import Js Proc.

(** From [w] to [w'] the globals are the same and the console has
    only grown. *)
Definition only_prints (w w' : Tasks.world) : Prop :=
  Tasks.exportedTasks w' = Tasks.exportedTasks w
  /\ Tasks.exportedTasksNamespaces w' = Tasks.exportedTasksNamespaces w
  /\ Tasks.inherited w' = Tasks.inherited w
  /\ exists more, Tasks.console w' = Tasks.console w ++ more.

End Frame.

(** ** What the configuration script leaves as it was *)

Module ConfigFrame.
Import Js Proc Config.

(** From [w] to [w'] directories were only created, among those that
    can be, and the console has only grown. *)
Definition only_creates (w w' : world) : Prop :=
  existing w ⊆ existing w'
  /\ existing w' ⊆ existing w ∪ creatable w
  /\ creatable w' = creatable w
  /\ exists more, console w' = console w ++ more.

(** [addProfilesOpt]: the choices of the option [p],
    [Object.keys(config.profiles)]. *)
Definition addProfilesOpt (cfg : config) : list string := obj_keys (profiles cfg).

End ConfigFrame.

(** ** A configuration with two profiles *)

Module ProfileExamples.
Import Js Proc Config.

(** A configuration file that names its directories and two profiles. *)
Definition two_profiles : userConfig :=
  {| u_tasksDir := Some "tasks";
     u_tasksOutputDir := None;
     u_profilesDir := Some "{HOME}/.chrome-profiles";
     u_profiles :=
       Some [("dev", [("exts", JArray [JString "ext/dev"]); ("devtools", JBool true)]);
             ("bare", [])] |}.

(** The project has its tasks and the extension; the user has a
    directory of profiles. *)
Definition project_with_exts : world :=
  {| console := [];
     existing := {["/proj/tasks"; "/proj/ext/dev"; "/home/u/.chrome-profiles"]};
     creatable := {["/proj/tasks/output"; "/home/u/.chrome-profiles/dev";
                    "/home/u/.chrome-profiles/bare"]} |}.

Definition two_profiles_resolved : config :=
  {| tasksDir := "/proj/tasks";
     tasksOutputDir := "/proj/tasks/output";
     profilesDir := "/home/u/.chrome-profiles";
     profiles :=
       [("dev", [("exts", JArray [JString "/proj/ext/dev"]); ("runByDefault", JBool false);
                 ("devtools", JBool true); ("screenshot", JBool false);
                 ("autoclose", JBool true)]);
        ("bare", [("exts", JArray []); ("runByDefault", JBool false);
                  ("devtools", JBool false); ("screenshot", JBool false);
                  ("autoclose", JBool true)])] |}.

End ProfileExamples.

(** ** More terminals *)

Module MoreCookieExamples.
Import Proc Cookies.

(** The user answers [Y]; the cookie file exists and may be removed. *)
Definition terminal_capital : world :=
  {| console := []; stdin := ["Y"]; files := {["/p/dev/Default/Cookies"]};
     locked := ∅; readline_open := false |}.

(** The user answers [y]; the cookie file exists and may be removed. *)
Definition terminal_confirmed : world :=
  {| console := []; stdin := ["y"]; files := {["/p/dev/Default/Cookies"]};
     locked := ∅; readline_open := false |}.

End MoreCookieExamples.

(** * Properties *)

(** ** Strings *)

Section StrFacts.
Import Str.
Implicit Types (s t w a b : string) (c : ascii).

Lemma str_app_cons c s t : String c s +:+ t = String c (s +:+ t).
Proof. reflexivity. Qed.

Lemma str_app_nil_r s : s +:+ "" = s.
Proof. induction s as [|c s IH]; [done|]. by rewrite str_app_cons, IH. Qed.

Lemma str_app_assoc s t w : (s +:+ t) +:+ w = s +:+ t +:+ w.
Proof. induction s as [|c s IH]; [done|]. by rewrite !str_app_cons, IH. Qed.

(** Two ways of cutting one string: one cut lies before the other. *)
Lemma str_app_eq_app s t a b :
  s +:+ t = a +:+ b ->
  (exists k, s = a +:+ k /\ b = k +:+ t) \/ (exists k, a = s +:+ k /\ t = k +:+ b).
Proof.
  revert a. induction s as [|c s IH]; intros a H.
  - right. exists a. done.
  - destruct a as [|c' a].
    + left. exists (String c s). done.
    + rewrite !str_app_cons in H. injection H as -> H.
      destruct (IH a H) as [(k & -> & ->)|(k & -> & ->)];
        [left | right]; exists k; done.
Qed.

Lemma prefix_spec w s : String.prefix w s = true <-> exists t, s = w +:+ t.
Proof.
  revert s. induction w as [|c w IH]; intros s.
  - destruct s; split; eauto.
  - destruct s as [|c' s]; simpl; [split; [done | by intros [t Ht]]|].
    destruct (ascii_dec c c') as [->|Hne].
    + rewrite IH. split; intros [t Ht]; exists t.
      * by rewrite str_app_cons, Ht.
      * rewrite str_app_cons in Ht. by injection Ht.
    + split; [done|]. intros [t Ht]. rewrite str_app_cons in Ht. by injection Ht.
Qed.

Lemma includes_spec w s : includes w s = true <-> occurs w s.
Proof.
  induction s as [|c s IH].
  - cbn [includes]. rewrite orb_false_r, prefix_spec. split.
    + intros [t Ht]. exists "", t. done.
    + intros ([|c a] & b & H); [by exists b | done].
  - cbn [includes]. rewrite orb_true_iff, prefix_spec, IH. split.
    + intros [[t Ht]|(a & b & Hs)].
      * exists "", t. done.
      * exists (String c a), b. by rewrite str_app_cons, Hs.
    + intros ([|c' a] & b & H).
      * left. by exists b.
      * right. rewrite str_app_cons in H. injection H as -> H. by exists a, b.
Qed.

Lemma includes_false w s : includes w s = false <-> ~ occurs w s.
Proof.
  rewrite <- includes_spec. destruct (includes w s); split; congruence.
Qed.

Lemma has_char_app c s t : has_char c (s +:+ t) = has_char c s || has_char c t.
Proof.
  induction s as [|c' s IH]; [done|].
  rewrite str_app_cons. simpl. by rewrite IH, orb_assoc.
Qed.

Lemma skip_app w t : skip (String.length w) (w +:+ t) = t.
Proof. induction w as [|c w IH]; [by destruct t | exact IH]. Qed.

(** An occurrence in [s c t] of a word without [c] lies in [s] or in [t]. *)
Lemma occurs_around_char w s c t :
  has_char c w = false -> occurs w (s +:+ String c t) -> occurs w s \/ occurs w t.
Proof.
  intros Hc (a & b & H).
  destruct (str_app_eq_app _ _ _ _ H) as [(k & -> & Hk)|(k & -> & Hk)].
  - left. symmetry in Hk.
    destruct (str_app_eq_app _ _ _ _ Hk) as [(k' & -> & Hk')|(k' & -> & Hk')].
    + by exists a, k'.
    + destruct k' as [|c' k'].
      * exists a, "". by rewrite !str_app_nil_r.
      * rewrite str_app_cons in Hk'. injection Hk' as <- _.
        rewrite has_char_app in Hc. simpl in Hc.
        rewrite Ascii.eqb_refl, orb_true_r in Hc. done.
  - destruct k as [|c' k].
    + destruct w as [|c' w]; [left; exists s, ""; by rewrite !str_app_nil_r |].
      rewrite !str_app_cons in Hk. injection Hk as <- _. simpl in Hc.
      by rewrite Ascii.eqb_refl in Hc.
    + right. rewrite str_app_cons in Hk. injection Hk as _ ->. by exists k, b.
Qed.

Lemma occurs_app_l w s t : occurs w s -> occurs w (s +:+ t).
Proof. intros (a & b & ->). exists a, (b +:+ t). by rewrite !str_app_assoc. Qed.

Lemma occurs_app_r w s t : occurs w t -> occurs w (s +:+ t).
Proof. intros (a & b & ->). exists (s +:+ a), b. by rewrite !str_app_assoc. Qed.

(** [replace]: a template without [$] stands for itself. *)
Lemma getSubstitution_plain matched before after template :
  has_char "$" template = false ->
  getSubstitution matched before after template = template.
Proof.
  induction template as [|c rest IH]; [done|]. simpl.
  rewrite orb_false_iff. intros [Hc Hrest]. rewrite Hc. by rewrite IH.
Qed.

Lemma replace_from_unfold before s pattern template :
  replace_from before s pattern template
  = if String.prefix pattern s
    then getSubstitution pattern before (skip (String.length pattern) s) template
         +:+ skip (String.length pattern) s
    else match s with
         | EmptyString => EmptyString
         | String c s' =>
             String c (replace_from (before +:+ String c EmptyString) s' pattern template)
         end.
Proof. by destruct s. Qed.

(** [replace] rewrites the first occurrence of the pattern. *)
Lemma replace_from_first before pre pattern post template :
  (forall a b, pre = a +:+ b -> b <> "" ->
               String.prefix pattern (b +:+ pattern +:+ post) = false) ->
  replace_from before (pre +:+ pattern +:+ post) pattern template
  = pre +:+ getSubstitution pattern (before +:+ pre) post template +:+ post.
Proof.
  revert before. induction pre as [|c pre IH]; intros before Hfirst.
  - change ("" +:+ pattern +:+ post) with (pattern +:+ post).
    rewrite replace_from_unfold.
    assert (String.prefix pattern (pattern +:+ post) = true) as ->
      by (apply prefix_spec; eauto).
    by rewrite skip_app, str_app_nil_r.
  - rewrite replace_from_unfold.
    rewrite (Hfirst "" (String c pre)) by done.
    rewrite str_app_cons. rewrite IH.
    + by rewrite str_app_assoc.
    + intros a b -> Hb. apply (Hfirst (String c a) b); done.
Qed.

(** [replace] leaves a string without the pattern as it is. *)
Lemma replace_from_absent before s pattern template :
  includes pattern s = false -> replace_from before s pattern template = s.
Proof.
  revert before. induction s as [|c s IH]; intros before; simpl.
  - rewrite orb_false_r. by intros ->.
  - rewrite orb_false_iff. intros [-> Hs]. by rewrite IH.
Qed.

End StrFacts.

(** ** Paths *)

Section PathFacts.
Import Str.
Implicit Types (s t w a b : string) (c : ascii) (l : list string).

Lemma split_from_pieces sep cur s x :
  x ∈ split_from sep cur s -> exists a b, cur +:+ s = a +:+ x +:+ b.
Proof.
  revert cur. induction s as [|c s IH]; intros cur; simpl.
  - intros ->%list_elem_of_singleton. exists "", "". by rewrite str_app_nil_r.
  - destruct (Ascii.eqb c sep).
    + intros [->|Hin]%elem_of_cons.
      * exists "", (String c s). done.
      * destruct (IH "" Hin) as (a & b & H). change ("" +:+ s) with s in H.
        exists (cur +:+ String c a), b.
        rewrite H, str_app_assoc, str_app_cons. done.
    + intros Hin. destruct (IH _ Hin) as (a & b & H).
      exists a, b. rewrite <- H, str_app_assoc. done.
Qed.

Lemma split_pieces sep s x : x ∈ split sep s -> occurs x s.
Proof. intros H. exact (split_from_pieces sep "" s x H). Qed.

Lemma normalize_keeps kept segs x :
  x ∈ Path.normalize kept segs -> x ∈ kept \/ x ∈ segs.
Proof.
  revert kept. induction segs as [|seg rest IH]; intros kept; simpl.
  - intros H. left. apply list_elem_of_In, in_rev. by apply list_elem_of_In.
  - destruct (_ || _).
    { intros [?|?]%IH; [by left | right; by right]. }
    destruct (String.eqb seg "..").
    + intros [Hk|?]%IH; [left | right; by right].
      destruct kept; [done | by right].
    + intros [[->|?]%elem_of_cons|?]%IH;
        [right; left | by left | right; by right].
Qed.

Lemma join_occurs w c l :
  has_char c w = false -> w <> "" ->
  occurs w (join (String c "") l) -> exists x, x ∈ l /\ occurs w x.
Proof.
  intros Hc Hw. induction l as [|x l IH].
  - intros ([|? ?] & b & H); [by destruct w | done].
  - destruct l as [|y l].
    + intros H. exists x. split; [left | done].
    + change (join (String c "") (x :: y :: l))
        with (x +:+ String c "" +:+ join (String c "") (y :: l)).
      rewrite str_app_cons.
      intros [H|H]%occurs_around_char; [| |done].
      * exists x. split; [left | done].
      * destruct (IH H) as (z & Hz & Ho). exists z. split; [by right | done].
Qed.

(** [path.resolve] of an absolute path leaves out segments and never
    makes up a slash-free word. *)
Lemma resolve_occurs w cwd p :
  has_char "/" w = false -> w <> "" -> String.prefix "/" p = true ->
  occurs w (Path.resolve cwd p) -> occurs w p.
Proof.
  intros Hc Hw Habs. unfold Path.resolve. rewrite Habs.
  change ("/" +:+ ?j) with ("" +:+ String "/" j).
  intros [([|? ?] & b & H)|H]%occurs_around_char; [by destruct w | done | | done].
  apply (join_occurs w "/") in H as (x & Hx & Hox); [|done..].
  apply normalize_keeps in Hx as [Hx|Hx]; [by apply elem_of_nil in Hx|].
  apply split_pieces in Hx as (a & b & ->).
  apply occurs_app_r, occurs_app_l. done.
Qed.

Lemma resolve_absolute cwd p : String.prefix "/" (Path.resolve cwd p) = true.
Proof. unfold Path.resolve. apply prefix_spec. eauto. Qed.

End PathFacts.

(** ** The placeholder of the home directory *)

Section PlaceholderFacts.
Import Str.
Implicit Types (s t a b pre post home : string).

Local Ltac next_char E :=
  rewrite str_app_cons in E; cbn [String.prefix] in E;
  match type of E with
  | context [ascii_dec ?x ?y] => destruct (ascii_dec x y); [subst | discriminate]
  end.

(** The text before the first occurrence does not overlap it. *)
Lemma placeholder_first pre post :
  includes "{HOME}" pre = false ->
  forall a b, pre = a +:+ b -> b <> "" ->
              String.prefix "{HOME}" (b +:+ "{HOME}" +:+ post) = false.
Proof.
  intros Hpre a b -> Hb. apply includes_false in Hpre.
  destruct (String.prefix "{HOME}" (b +:+ "{HOME}" +:+ post)) eqn:E; [|done].
  exfalso.
  destruct b as [|c1 b]; [done|]. next_char E.
  destruct b as [|c2 b]; [vm_compute in E; discriminate|]. next_char E.
  destruct b as [|c3 b]; [vm_compute in E; discriminate|]. next_char E.
  destruct b as [|c4 b]; [vm_compute in E; discriminate|]. next_char E.
  destruct b as [|c5 b]; [vm_compute in E; discriminate|]. next_char E.
  destruct b as [|c6 b]; [vm_compute in E; discriminate|]. next_char E.
  apply Hpre. exists a, b. done.
Qed.

(** Putting an absolute path without brace between two texts without
    the placeholder does not spell the placeholder. *)
Lemma placeholder_not_spelled pre home post :
  includes "{HOME}" pre = false -> includes "{HOME}" post = false ->
  String.prefix "/" home = true -> has_char "{" home = false ->
  includes "{HOME}" (pre +:+ home +:+ post) = false.
Proof.
  intros Hpre%includes_false Hpost%includes_false [h ->]%prefix_spec Hbrace.
  apply includes_false. intros (a & b & H).
  destruct (str_app_eq_app _ _ _ _ H) as [(k & -> & Hk)|(k & -> & Hk)].
  - destruct (str_app_eq_app _ _ _ _ Hk) as [(k' & Hp & Hk')|(k' & -> & _)].
    + destruct k' as [|c k'].
      * apply Hpre. exists a, "". rewrite str_app_nil_r in Hp.
        by rewrite Hp, !str_app_nil_r.
      * assert (has_char "/" (k +:+ String c k') = false) as Hs
          by (by rewrite <- Hp).
        rewrite !str_app_cons in Hk'. injection Hk' as <- _.
        rewrite has_char_app in Hs. simpl in Hs.
        by rewrite orb_true_r in Hs.
    + apply Hpre. by exists a, k'.
  - destruct (str_app_eq_app _ _ _ _ Hk) as [(k' & Hh & Hk')|(k' & -> & ->)].
    + destruct k' as [|c k'].
      * apply Hpost. exists "", b. done.
      * rewrite !str_app_cons in Hk'. injection Hk' as <- _.
        rewrite Hh, has_char_app in Hbrace.
        simpl in Hbrace. by rewrite orb_true_r in Hbrace.
    + apply Hpost. by exists k', b.
Qed.

End PlaceholderFacts.
(** ** JavaScript built-ins *)

Section JsFacts.
Import Js.
Context {V : Type}.
Implicit Types (o : obj V) (k : string) (v : V).

Lemma obj_set_fresh o k v : obj_get o k = None -> obj_set o k v = o ++ [(k, v)].
Proof.
  induction o as [|[k' v'] o IH]; simpl; [done|].
  destruct (String.eqb k' k); [done|]. intros H. by rewrite IH.
Qed.

End JsFacts.

Section SetFacts.
Import Js.
Implicit Types (s l : list string) (x : string).

Lemma Set_has_true s x : Set_has s x = true <-> x ∈ s.
Proof.
  unfold Set_has. rewrite existsb_exists. split.
  - intros (y & Hy & He). apply String.eqb_eq in He. subst.
    by apply list_elem_of_In.
  - intros H. exists x. split; [by apply list_elem_of_In | apply String.eqb_refl].
Qed.

Lemma Set_has_false s x : Set_has s x = false <-> x ∉ s.
Proof.
  rewrite <- Set_has_true. destruct (Set_has s x); split; congruence.
Qed.

(** Adding the elements of a list that is new to the set and free of
    repetitions appends it. *)
Lemma fold_Set_add_fresh l s :
  NoDup (s ++ l) -> fold_left Set_add l s = s ++ l.
Proof.
  revert s. induction l as [|x l IH]; intros s Hnd; simpl.
  - by rewrite app_nil_r.
  - assert (Set_has s x = false) as Hx.
    { apply Set_has_false. apply NoDup_app in Hnd as (_ & Hd & _).
      intros Hin. apply (Hd x Hin). left. }
    unfold Set_add at 2. rewrite Hx.
    rewrite IH; rewrite <- app_assoc; done.
Qed.

Lemma Set_from_NoDup l : NoDup l -> Set_from l = l.
Proof. intros H. unfold Set_from. by rewrite fold_Set_add_fresh. Qed.

Lemma fold_Set_add_elem l s x :
  x ∈ fold_left Set_add l s <-> x ∈ s \/ x ∈ l.
Proof.
  revert s. induction l as [|y l IH]; intros s; simpl.
  - rewrite elem_of_nil. tauto.
  - rewrite IH. unfold Set_add. destruct (Set_has s y) eqn:Hy.
    + apply Set_has_true in Hy. rewrite elem_of_cons.
      split; [tauto | intros [?|[->|?]]; tauto].
    + rewrite elem_of_app, !elem_of_cons, elem_of_nil. tauto.
Qed.

(** A [Set] holds the elements it was built from, and nothing else. *)
Lemma Set_from_elem l x : x ∈ Set_from l <-> x ∈ l.
Proof.
  unfold Set_from. rewrite fold_Set_add_elem, elem_of_nil. tauto.
Qed.

End SetFacts.

(** ** Loops of the process monad *)

Section ProcFacts.
Import Proc.
Context {W : Type}.

(** A loop that returns preserves what each round preserves. *)
Lemma foldM_returned_inv {A S : Type} (I : W -> Prop)
    (body : S -> A -> proc W S) (l : list A) :
  (forall s x w s' w', I w -> body s x w = Returned s' w' -> I w') ->
  forall s w s' w', I w -> foldM body l s w = Returned s' w' -> I w'.
Proof.
  intros Hbody. induction l as [|x l IH]; intros s w s' w' HI; simpl.
  - unfold ret. by intros [= _ <-].
  - unfold bind. destruct (body s x w) as [s1 w1|c w1|e w1] eqn:Hb; try done.
    intros Hrest. eapply IH; [|exact Hrest]. eauto.
Qed.

Lemma forEach_returned_inv {A : Type} (I : W -> Prop)
    (body : A -> proc W unit) (l : list A) :
  (forall x w u w', I w -> body x w = Returned u w' -> I w') ->
  forall w u w', I w -> forEach l body w = Returned u w' -> I w'.
Proof.
  intros Hbody w u w'. unfold forEach.
  apply (foldM_returned_inv I (fun _ x => body x)). eauto.
Qed.

(** A loop over [pre ++ x :: post] whose rounds on [pre] return and
    whose round on [x] exits, exits there. *)
Lemma foldM_exits_at {A S : Type} (body : S -> A -> proc W S)
    (pre post : list A) (x : A) (s s1 : S) (w w1 w2 : W) (c : nat) :
  foldM body pre s w = Returned s1 w1 ->
  body s1 x w1 = Exited c w2 ->
  foldM body (pre ++ x :: post) s w = Exited c w2.
Proof.
  revert s w. induction pre as [|y pre IH]; intros s w; simpl.
  - unfold ret, bind. intros [= <- <-] ->. done.
  - unfold bind. destruct (body s y w) as [s' w'|c' w'|e w']; try done.
    apply IH.
Qed.

End ProcFacts.

(** ** The registry built by [parseTaskFiles] *)

Section RegistryFacts.
Import Js Proc Tasks Registry.

Lemma is_task_name_get (w : world) (k : string) :
  is_task_name w k
  = match obj_get (exportedTasks w) k with Some _ => true | None => false end.
Proof.
  unfold is_task_name. induction (exportedTasks w) as [|[k' v'] o IH]; simpl; [done|].
  destruct (String.eqb k' k); simpl; [done | exact IH].
Qed.

Lemma is_task_name_true (w : world) (t : string) :
  is_task_name w t = true <-> t ∈ obj_keys (exportedTasks w).
Proof.
  unfold is_task_name, obj_keys. rewrite existsb_exists, list_elem_of_In, in_map_iff.
  split.
  - intros ([k v] & Hin & He). apply String.eqb_eq in He. eauto.
  - intros ([k v] & <- & Hin). exists (k, v). split; [done | apply String.eqb_refl].
Qed.

Lemma is_task_name_false (w : world) (t : string) :
  is_task_name w t = false <-> t ∉ obj_keys (exportedTasks w).
Proof.
  rewrite <- is_task_name_true. destruct (is_task_name w t); split; congruence.
Qed.

Lemma declares_true (value : Task) (t : string) :
  declares value t = true <-> namespace value = Some t /\ t <> "".
Proof.
  unfold declares. destruct (namespace value) as [n|]; [|split; [done | by intros [? _]]].
  rewrite andb_true_iff, String.eqb_eq. split.
  - intros [Hn ->]. split; [done | by intros ->].
  - intros [[= ->] Hne]. split; [by destruct t | done].
Qed.

(** [exportedTasks[k]] is truthy for the registered names and for the
    names arrays inherit. *)
Lemma has_task_run (k : string) (w : world) :
  has_task k w = Returned (is_task_name w k || inherits w k) w.
Proof.
  unfold has_task, gets, truthy_at, inherits. rewrite is_task_name_get.
  by destruct (obj_get (exportedTasks w) k).
Qed.

(** [exportedTasksNamespaces[k]] is truthy for the declared labels and
    for the names arrays inherit. *)
Lemma has_label_run (k : string) (w : world) :
  labels_derived w ->
  has_label k w = Returned (is_namespace_label w k || inherits w k) w.
Proof.
  intros Hl. unfold has_label, gets, truthy_at, inherits. specialize (Hl k).
  destruct (exportedTasksNamespaces w !! k) as [v|].
  - destruct Hl as [-> ->]. done.
  - by rewrite Hl.
Qed.

(** What one round of the merge does in [src/unnamed/part_000]. *)
Lemma Part000_register_run (kv : string * Task) (w : world) :
  Part000.register kv w =
  if (is_task_name w (fst kv) || inherits w (fst kv))
     || (is_task_name w (toKey (namespace (snd kv)))
         || inherits w (toKey (namespace (snd kv))))
  then Exited 1 (with_error w (TaskExists (fst kv)))
  else
    let labelled :=
      {| console := console w;
         exportedTasks := exportedTasks w;
         exportedTasksNamespaces :=
           if truthy_jsstring (namespace (snd kv))
           then <[toKey (namespace (snd kv)) := namespace (snd kv)]>
                  (exportedTasksNamespaces w)
           else exportedTasksNamespaces w;
         inherited := inherited w |} in
    if truthy_jsstring (namespace (snd kv))
       && String.eqb (toKey (namespace (snd kv))) "length"
    then Threw "RangeError" w
    else if String.eqb (fst kv) "length" then Threw "RangeError" labelled
    else Returned tt
           {| console := console w;
              exportedTasks := exportedTasks w ++ [kv];
              exportedTasksNamespaces := exportedTasksNamespaces labelled;
              inherited := inherited w |}.
Proof.
  destruct kv as [key value]. unfold Part000.register, bind. cbn [fst snd].
  rewrite has_task_run. cbn beta iota. rewrite has_task_run. cbn beta iota.
  destruct (is_task_name w key) eqn:Hk; simpl; [done|].
  destruct (inherits w key); simpl; [done|].
  destruct (_ || _); simpl; [done|].
  assert (obj_get (exportedTasks w) key = None) as Hfresh.
  { rewrite is_task_name_get in Hk. by destruct (obj_get (exportedTasks w) key). }
  unfold when, set_exportedTasksNamespaces, set_exportedTasks, modify, ret, throw.
  destruct (truthy_jsstring (namespace value)); simpl;
    destruct (String.eqb (toKey (namespace value)) "length"); simpl; try done;
    destruct (String.eqb key "length"); simpl; try done;
    try (by rewrite (obj_set_fresh _ _ _ Hfresh)); by destruct w.
Qed.

(** What one round of the merge does in [src/pwptr.js]. *)
Lemma Pwptr_register_run (kv : string * Task) (w : world) :
  Pwptr.register kv w =
  if (is_task_name w (fst kv) || inherits w (fst kv))
     || (is_task_name w (toKey (namespace (snd kv)))
         || inherits w (toKey (namespace (snd kv))))
  then Exited 1 (with_error w (TaskExists (fst kv)))
  else
    let labelled :=
      {| console := console w;
         exportedTasks := exportedTasks w;
         exportedTasksNamespaces :=
           <[toKey (namespace (snd kv)) := namespace (snd kv)]>
             (exportedTasksNamespaces w);
         inherited := inherited w |} in
    if String.eqb (toKey (namespace (snd kv))) "length"
    then Threw "RangeError" w
    else if String.eqb (fst kv) "length" then Threw "RangeError" labelled
    else Returned tt
           {| console := console w;
              exportedTasks := exportedTasks w ++ [kv];
              exportedTasksNamespaces := exportedTasksNamespaces labelled;
              inherited := inherited w |}.
Proof.
  destruct kv as [key value]. unfold Pwptr.register, bind. cbn [fst snd].
  rewrite has_task_run. cbn beta iota. rewrite has_task_run. cbn beta iota.
  destruct (is_task_name w key) eqn:Hk; simpl; [done|].
  destruct (inherits w key); simpl; [done|].
  destruct (_ || _); simpl; [done|].
  assert (obj_get (exportedTasks w) key = None) as Hfresh.
  { rewrite is_task_name_get in Hk. by destruct (obj_get (exportedTasks w) key). }
  unfold set_exportedTasksNamespaces, set_exportedTasks, modify, throw.
  destruct (String.eqb (toKey (namespace value)) "length"); simpl; try done;
    destruct (String.eqb key "length"); simpl; try done;
    by rewrite (obj_set_fresh _ _ _ Hfresh).
Qed.

End RegistryFacts.

(** The merge loop shared by both files, over any [register] that
    appends the entry after the two look-ups of [exportedTasks]. *)
Section Merge.
Import Js Proc Tasks Registry.

Variable register : string * Task -> proc world unit.

Hypothesis register_appends : forall kv w u w',
  register kv w = Returned u w' ->
  exportedTasks w' = exportedTasks w ++ [kv]
  /\ is_task_name w (fst kv) = false
  /\ is_task_name w (toKey (namespace (snd kv))) = false.

Lemma register_names_distinct kv w u w' :
  names_distinct w -> register kv w = Returned u w' -> names_distinct w'.
Proof.
  intros [Hnd Hav] Hrun.
  destruct (register_appends _ _ _ _ Hrun) as (Hets & Hkey & Hns).
  apply is_task_name_false in Hkey. apply is_task_name_false in Hns.
  unfold names_distinct. rewrite Hets. split.
  - unfold obj_keys in *. rewrite map_app. simpl.
    apply NoDup_app. split; [done|]. split; [|apply NoDup_singleton].
    intros x Hx ->%list_elem_of_singleton. done.
  - intros i j ki vi kj vj n Hi Hj Hlt Hn.
    destruct (decide (j < length (exportedTasks w))) as [Hj'|Hj'].
    + rewrite lookup_app_l in Hi by lia. rewrite lookup_app_l in Hj by lia.
      eapply Hav; eauto.
    + assert (j = length (exportedTasks w)) as ->.
      { apply lookup_lt_Some in Hj. rewrite length_app in Hj. simpl in Hj. lia. }
      rewrite lookup_app_l in Hi by lia.
      rewrite list_lookup_middle in Hj by done. injection Hj as ->.
      simpl in Hns. rewrite Hn in Hns. simpl in Hns.
      intros ->. apply Hns. unfold obj_keys.
      apply list_elem_of_lookup_2 in Hi.
      apply (list_elem_of_fmap_2 fst) in Hi. exact Hi.
Qed.

Lemma merge_names_distinct dir w u w' :
  names_distinct w -> merge register dir w = Returned u w' -> names_distinct w'.
Proof.
  unfold merge. apply forEach_returned_inv.
  intros [file entries] w1 u1 w2 HI. simpl.
  destruct (is_js_file file); simpl.
  - revert HI. apply forEach_returned_inv. intros kv w3 u3 w4.
    apply register_names_distinct.
  - unfold ret. by intros [= _ <-].
Qed.

End Merge.

Section RegistryBuilt.
Import Js Proc Tasks Registry.

Lemma start_names_distinct proto : names_distinct (start proto).
Proof.
  split; [apply NoDup_nil_2|]. intros i j ki vi kj vj n Hi. done.
Qed.

Lemma Part000_register_appends kv w u w' :
  Part000.register kv w = Returned u w' ->
  exportedTasks w' = exportedTasks w ++ [kv]
  /\ is_task_name w (fst kv) = false
  /\ is_task_name w (toKey (namespace (snd kv))) = false.
Proof.
  rewrite Part000_register_run.
  destruct (is_task_name w kv.1) eqn:H1; simpl; [done|].
  destruct (is_task_name w (toKey _)) eqn:H2; simpl;
    [by rewrite orb_true_r|].
  destruct (_ || _); [done|]. cbv zeta.
  repeat (match goal with |- context [if ?c then _ else _] => destruct c end;
          try done).
  all: by intros [= _ <-].
Qed.

Lemma Pwptr_register_appends kv w u w' :
  Pwptr.register kv w = Returned u w' ->
  exportedTasks w' = exportedTasks w ++ [kv]
  /\ is_task_name w (fst kv) = false
  /\ is_task_name w (toKey (namespace (snd kv))) = false.
Proof.
  rewrite Pwptr_register_run.
  destruct (is_task_name w kv.1) eqn:H1; simpl; [done|].
  destruct (is_task_name w (toKey _)) eqn:H2; simpl;
    [by rewrite orb_true_r|].
  destruct (_ || _); [done|]. cbv zeta.
  repeat (match goal with |- context [if ?c then _ else _] => destruct c end;
          try done).
  all: by intros [= _ <-].
Qed.

(** [parseTaskFiles] is the merge loop followed, in
    [src/unnamed/part_000], by the check that something was registered. *)
Lemma Part000_parse_returned tasksDir dir w0 w :
  Part000.parseTaskFiles tasksDir dir w0 = Returned tt w ->
  merge Part000.register dir w0 = Returned tt w /\ exportedTasks w <> [].
Proof.
  unfold Part000.parseTaskFiles, bind.
  destruct (merge _ dir w0) as [[] w1|c w1|e w1]; try done.
  unfold gets, when, truthy_number, obj_keys.
  destruct (exportedTasks w1) as [|kv o] eqn:Ho; simpl; [done|].
  unfold ret. intros [= <-]. split; [done|]. by rewrite Ho.
Qed.

Lemma Pwptr_parse_returned taskDir taskDirExists dir w0 w :
  Pwptr.parseTaskFiles taskDir taskDirExists dir w0 = Returned tt w ->
  merge Pwptr.register dir w0 = Returned tt w /\ taskDirExists = true.
Proof.
  unfold Pwptr.parseTaskFiles, bind.
  destruct taskDirExists; simpl; [|done].
  destruct (merge _ dir w0) as [[] w1|c w1|e w1]; try done.
Qed.

(** In [src/unnamed/part_000] the label table follows the entries. *)
Lemma Part000_register_labels kv w u w' :
  labels_derived w -> Part000.register kv w = Returned u w' -> labels_derived w'.
Proof.
  intros Hld. rewrite Part000_register_run.
  destruct (_ || _); [done|]. cbv zeta.
  destruct (_ && _); [done|]. destruct (String.eqb kv.1 "length"); [done|].
  intros [= _ <-] t.
  unfold is_namespace_label. simpl. rewrite existsb_app. simpl.
  rewrite orb_false_r. fold (is_namespace_label w t). specialize (Hld t).
  unfold declares. destruct (namespace kv.2) as [n|]; simpl.
  2: { rewrite orb_false_r. exact Hld. }
  destruct (truthy_string n) eqn:Hn; simpl.
  2: { rewrite orb_false_r. exact Hld. }
  destruct (String.eqb_spec n t) as [->|Hne].
  - rewrite lookup_insert_eq. simpl. by rewrite Hn, orb_true_r.
  - rewrite lookup_insert_ne by done. rewrite orb_false_r. exact Hld.
Qed.

Lemma start_labels_derived proto : labels_derived (start proto).
Proof. intros t. done. Qed.

Lemma Part000_merge_labels dir w u w' :
  labels_derived w -> merge Part000.register dir w = Returned u w' ->
  labels_derived w'.
Proof.
  unfold merge. apply forEach_returned_inv.
  intros [file entries] w1 u1 w2 HI. simpl.
  destruct (is_js_file file); simpl.
  - revert HI. apply forEach_returned_inv. intros kv w3 u3 w4.
    apply Part000_register_labels.
  - unfold ret. by intros [= _ <-].
Qed.

Lemma Part000_parse_labels tasksDir dir proto w :
  Part000.parseTaskFiles tasksDir dir (start proto) = Returned tt w ->
  labels_derived w.
Proof.
  intros [H _]%Part000_parse_returned.
  eapply Part000_merge_labels; [apply start_labels_derived | exact H].
Qed.

Lemma Part000_parse_names tasksDir dir proto w :
  Part000.parseTaskFiles tasksDir dir (start proto) = Returned tt w ->
  names_distinct w.
Proof.
  intros [H _]%Part000_parse_returned.
  eapply (merge_names_distinct Part000.register);
    [apply Part000_register_appends | apply start_names_distinct | exact H].
Qed.

Lemma Pwptr_parse_names taskDir taskDirExists dir proto w :
  Pwptr.parseTaskFiles taskDir taskDirExists dir (start proto) = Returned tt w ->
  names_distinct w.
Proof.
  intros [H _]%Pwptr_parse_returned.
  eapply (merge_names_distinct Pwptr.register);
    [apply Pwptr_register_appends | apply start_names_distinct | exact H].
Qed.

End RegistryBuilt.

(** ** [normalizeTaskSet] *)

Section NormalizerFacts.
Import Js Proc Tasks Registry.

Variable w : world.
Hypothesis Hlabels : labels_derived w.

Lemma classify_run st t :
  classify st t w =
  if rejected w t then Exited 1 (with_error w (TaskDoesNotExist t))
  else Returned (if is_namespace_label w t || inherits w t
                 then (<[t := true]> (fst st), snd st)
                 else (fst st, snd st ++ [t])) w.
Proof.
  unfold classify, bind. rewrite has_task_run. cbn beta iota.
  rewrite has_label_run by done. cbn beta iota.
  unfold rejected, unknown, when, console_error, modify, process_exit, ret.
  destruct (is_task_name w t), (is_namespace_label w t), (inherits w t);
    reflexivity.
Qed.

Lemma classify_all_passed tasks st :
  forallb (fun t => negb (rejected w t)) tasks = true ->
  foldM classify tasks st w
  = Returned (marks w tasks (fst st), snd st ++ kept w tasks) w.
Proof.
  revert st. induction tasks as [|t tasks IH]; intros [m run]; simpl.
  - intros _. unfold ret. by rewrite app_nil_r.
  - rewrite andb_true_iff, negb_true_iff. intros [Ht Hrest].
    unfold bind. rewrite classify_run, Ht. simpl.
    destruct (is_namespace_label w t || inherits w t) eqn:Hl; simpl;
      rewrite IH by done; simpl.
    + done.
    + by rewrite <- app_assoc.
Qed.

Lemma classify_first_rejected pre t post st :
  forallb (fun t => negb (rejected w t)) pre = true ->
  rejected w t = true ->
  foldM classify (pre ++ t :: post) st w
  = Exited 1 (with_error w (TaskDoesNotExist t)).
Proof.
  intros Hpre Ht. eapply foldM_exits_at.
  - by apply classify_all_passed.
  - by rewrite classify_run, Ht.
Qed.

Lemma marks_lookup tasks m k :
  marks w tasks m !! k
  = if (is_namespace_label w k || inherits w k) && Set_has tasks k
    then Some true else m !! k.
Proof.
  revert m. induction tasks as [|t tasks IH]; intros m; simpl.
  - by rewrite andb_false_r.
  - rewrite IH. unfold Set_has. simpl. rewrite (String.eqb_sym k t).
    destruct (String.eqb_spec t k) as [->|Hne]; simpl.
    + destruct (is_namespace_label w k || inherits w k) eqn:Hl; simpl; [|done].
      rewrite lookup_insert_eq. by destruct (existsb _ tasks).
    + destruct (is_namespace_label w t || inherits w t); [|done].
      by rewrite lookup_insert_ne.
Qed.

Lemma expand_fold proto m (o : obj Task) run :
  fold_left (expand proto m) o run
  = run ++ map fst
             (List.filter
                (fun kv => truthy_at (fun b : bool => b) proto
                             (toKey (namespace (snd kv)))
                             (m !! toKey (namespace (snd kv)))) o).
Proof.
  revert run. induction o as [|kv o IH]; intros run; simpl.
  - by rewrite app_nil_r.
  - rewrite IH. unfold expand.
    destruct (truthy_at _ _ _ _); simpl; [by rewrite <- app_assoc | done].
Qed.

(** What the second loop appends, said with the registry's entries. *)
Lemma expand_marks tasks run :
  fold_left (expand (inherited w) (marks w tasks ∅)) (exportedTasks w) run
  = run ++ expanded w tasks.
Proof.
  rewrite expand_fold. unfold expanded. do 2 f_equal.
  apply filter_ext. intros kv. cbv zeta. rewrite marks_lookup.
  unfold truthy_at. fold (inherits w (toKey (namespace kv.2))).
  destruct (is_namespace_label w _), (inherits w _), (Set_has tasks _); done.
Qed.

(** A rejected identifier ends the process at its first occurrence. *)
Lemma normalize_first_rejected pre t post :
  forallb (fun t => negb (rejected w t)) pre = true ->
  rejected w t = true ->
  normalizeTaskSet (pre ++ t :: post) w
  = Exited 1 (with_error w (TaskDoesNotExist t)).
Proof.
  intros Hpre Ht. unfold normalizeTaskSet, bind.
  by rewrite classify_first_rejected.
Qed.

(** Otherwise the result is the set built from the names kept by the
    first loop followed by the expansion, and the warning is printed
    when its size differs from the number of requested identifiers. *)
Lemma normalize_all_passed tasks :
  forallb (fun t => negb (rejected w t)) tasks = true ->
  normalizeTaskSet tasks w
  = let taskSet := Set_from (kept w tasks ++ expanded w tasks) in
    Returned taskSet
      (if Nat.eqb (Set_size taskSet) (length tasks) then w
       else with_log w OrderNotGuaranteed).
Proof.
  intros Hk. unfold normalizeTaskSet, bind.
  rewrite classify_all_passed by done. unfold gets. simpl.
  rewrite expand_marks.
  destruct (Nat.eqb _ _); reflexivity.
Qed.

End NormalizerFacts.

Section NormalizerOnRegistry.
Import Js Proc Tasks Registry.

(** A request passes the first loop, or has a first rejected identifier. *)
Lemma passed_or_first_rejected (w : world) (tasks : list string) :
  forallb (fun x => negb (rejected w x)) tasks = true
  \/ exists pre u post,
       tasks = pre ++ u :: post
       /\ forallb (fun x => negb (rejected w x)) pre = true
       /\ rejected w u = true.
Proof.
  induction tasks as [|x tasks IH]; [by left|].
  destruct (rejected w x) eqn:Hx.
  - right. exists [], x, tasks. done.
  - destruct IH as [IH|(pre & u & post & -> & Hpre & Hu)].
    + left. simpl. by rewrite Hx.
    + right. exists (x :: pre), u, post. simpl. by rewrite Hx.
Qed.

Lemma expanded_task_names (w : world) (tasks : list string) (t : string) :
  t ∈ expanded w tasks -> is_task_name w t = true.
Proof.
  unfold expanded. intros Hin. apply is_task_name_true. unfold obj_keys.
  apply list_elem_of_In, in_map_iff in Hin as (kv & <- & Hkv).
  apply filter_In in Hkv as [Hkv _].
  apply list_elem_of_In. apply in_map. exact Hkv.
Qed.

Lemma existsb_const_false {A : Type} (l : list A) : existsb (fun _ => false) l = false.
Proof. by induction l. Qed.

(** On a plain request the first loop keeps the direct names and the
    second appends the members of the requested namespaces. *)
Lemma plain_request_order (w : world) (tasks : list string) :
  plain_request w tasks = true ->
  kept w tasks = direct_names w tasks
  /\ expanded w tasks = namespace_members w tasks.
Proof.
  unfold plain_request. rewrite !andb_true_iff, negb_true_iff, !forallb_forall.
  intros [[Htasks Hentries] Hundef]. split.
  - unfold kept, direct_names. apply filter_ext_in. intros t Ht.
    specialize (Htasks t Ht). apply negb_true_iff in Htasks.
    by rewrite Htasks, orb_false_r.
  - unfold expanded, namespace_members. f_equal.
    apply filter_ext_in. intros [key value] Hin. cbv zeta.
    specialize (Hentries _ Hin). apply negb_true_iff in Hentries.
    rewrite Hentries, orb_false_r. simpl.
    unfold declares. destruct (namespace value) as [n|] eqn:Hn; simpl.
    + destruct (truthy_string n) eqn:Htn.
      * assert (is_namespace_label w n = true) as ->; [|done].
        unfold is_namespace_label. apply existsb_exists. exists (key, value).
        split; [done|]. simpl. unfold declares.
        by rewrite Hn, Htn, String.eqb_refl.
      * assert (is_namespace_label w n = false) as ->.
        { destruct n; [|done]. unfold is_namespace_label.
          apply not_true_is_false. rewrite existsb_exists.
          intros (kv & _ & Hd). apply declares_true in Hd as [_ Hd]. done. }
        simpl. by rewrite existsb_const_false.
    + assert (existsb (fun kv => match namespace kv.2 with
                                 | None => true | Some _ => false end)
                (exportedTasks w) = true) as Hex.
      { apply existsb_exists. exists (key, value). simpl. by rewrite Hn. }
      rewrite Hex, andb_true_r in Hundef. rewrite Hundef.
      by rewrite existsb_const_false.
Qed.

End NormalizerOnRegistry.

(** ** The run order *)

Section RunOrder.
Import Js Proc Tasks Registry.

Variables (tasksDir : string) (dir : listing) (proto : gset string) (w : world).
Hypothesis Hbuilt :
  Part000.parseTaskFiles tasksDir dir (start proto) = Returned tt w.

(** The warning is printed exactly when the set's size differs from the
    number of requested identifiers. *)
Lemma warning_iff_size_differs_from_request (tasks taskSet : list string) (w' : world) :
  normalizeTaskSet tasks w = Returned taskSet w' ->
  (w' = with_log w OrderNotGuaranteed /\ Set_size taskSet <> length tasks)
  \/ (w' = w /\ Set_size taskSet = length tasks).
Proof.
  pose proof (Part000_parse_labels _ _ _ _ Hbuilt) as Hl.
  destruct (passed_or_first_rejected w tasks) as [Hk|(pre & u & post & -> & Hpre & Hu)].
  - rewrite (normalize_all_passed w Hl tasks Hk). simpl. intros [= <- <-].
    destruct (Nat.eqb_spec (Set_size (Set_from (kept w tasks ++ expanded w tasks)))
                (length tasks)); [right | left]; done.
  - by rewrite (normalize_first_rejected w Hl pre u post Hpre Hu).
Qed.

(** An unknown identifier that is not a name arrays inherit ends the
    process with status 1, at the first such identifier and naming it;
    in a request without the identifier [length], which an array
    answers with its own length. *)
Lemma unknown_plain_identifier_is_fatal (tasks : list string) (t : string) :
  "length" ∉ tasks ->
  t ∈ tasks -> unknown w t = true -> inherits w t = false ->
  exists pre u post,
    tasks = pre ++ u :: post
    /\ Forall (fun x => unknown w x = false \/ inherits w x = true) pre
    /\ unknown w u = true /\ inherits w u = false
    /\ normalizeTaskSet tasks w = Exited 1 (with_error w (TaskDoesNotExist u)).
Proof.
  intros _ Hin Ht Hi.
  pose proof (Part000_parse_labels _ _ _ _ Hbuilt) as Hl.
  destruct (passed_or_first_rejected w tasks) as [Hk|(pre & u & post & -> & Hpre & Hu)].
  - rewrite forallb_forall in Hk. apply list_elem_of_In in Hin.
    specialize (Hk t Hin). unfold rejected in Hk. by rewrite Ht, Hi in Hk.
  - exists pre, u, post. split; [done|]. split.
    + apply Forall_forall. intros x Hx. rewrite forallb_forall in Hpre.
      apply list_elem_of_In in Hx. specialize (Hpre x Hx). unfold rejected in Hpre.
      destruct (unknown w x), (inherits w x); auto.
    + unfold rejected in Hu. apply andb_true_iff in Hu as [Hu1 Hu2].
      apply negb_true_iff in Hu2. repeat split; [done..|].
      apply normalize_first_rejected; [done..|].
      unfold rejected. by rewrite Hu1, Hu2.
Qed.


(** On a plain request the expansion adds only tasks that declare a
    requested namespace. *)
Lemma plain_expansion_adds_members (tasks : list string) (t : string) :
  plain_request w tasks = true ->
  t ∈ expanded w tasks ->
  exists value n,
    (t, value) ∈ exportedTasks w /\ namespace value = Some n /\ n <> ""
    /\ n ∈ tasks.
Proof.
  intros Hplain Hin.
  destruct (plain_request_order w tasks Hplain) as [_ Hexp]. rewrite Hexp in Hin.
  unfold namespace_members in Hin.
  apply list_elem_of_In, in_map_iff in Hin as ([key value] & <- & Hf).
  apply filter_In in Hf as [Hin Hd]. simpl in Hd.
  apply existsb_exists in Hd as (n & Hn & Hd).
  apply declares_true in Hd as [Hd Hne].
  exists value, n. repeat split; [by apply list_elem_of_In | done | done |].
  by apply list_elem_of_In.
Qed.

(** Every task of the returned set is registered; in a request
    without the identifier [length], which an array answers with its own
    length. *)
Lemma normalize_returns_task_names (tasks taskSet : list string) (w' : world) :
  "length" ∉ tasks ->
  normalizeTaskSet tasks w = Returned taskSet w' ->
  forall t, t ∈ taskSet -> is_task_name w t = true.
Proof.
  intros _.
  pose proof (Part000_parse_labels _ _ _ _ Hbuilt) as Hl.
  destruct (passed_or_first_rejected w tasks) as [Hk|(pre & u & post & -> & Hpre & Hu)].
  - rewrite (normalize_all_passed w Hl tasks Hk). simpl. intros [= <- _] t.
    rewrite Set_from_elem, elem_of_app. intros [Hd|He].
    + unfold kept in Hd. apply list_elem_of_In, filter_In in Hd as [Hin Hd].
      rewrite forallb_forall in Hk. specialize (Hk t Hin).
      unfold rejected, unknown in Hk.
      destruct (is_task_name w t); [done|].
      by destruct (is_namespace_label w t), (inherits w t).
    + by apply expanded_task_names in He.
  - by rewrite (normalize_first_rejected w Hl pre u post Hpre Hu).
Qed.

End RunOrder.

(** ** The claims on the task registry and the normaliser *)

Section TaskClaims.
Import Js Proc Tasks Registry Examples.

Lemma forEach_app {W A : Type} (l1 l2 : list A) (body : A -> proc W unit) (w : W) :
  forEach (l1 ++ l2) body w = (forEach l1 body ;; forEach l2 body) w.
Proof.
  unfold forEach, bind. revert w. induction l1 as [|x l1 IH]; intros w; simpl.
  - done.
  - unfold bind. destruct (body x w) as [[] w1|c w1|e w1]; [|done..].
    apply IH.
Qed.

Lemma forEach_cons {W A : Type} (x : A) (l : list A) (body : A -> proc W unit) (w : W) :
  forEach (x :: l) body w = (body x ;; forEach l body) w.
Proof.
  unfold forEach, bind. simpl. unfold bind.
  by destruct (body x w) as [[] w1|c w1|e w1].
Qed.

(** The merge visits the entries of the task-definition modules in order. *)
Lemma merge_entries (register : string * Task -> proc world unit)
    (dir : listing) (w : world) :
  merge register dir w = forEach (entries_of dir) register w.
Proof.
  unfold merge, entries_of. revert w.
  induction dir as [|[file entries] dir IH]; intros w; [done|].
  rewrite forEach_cons. simpl. destruct (is_js_file file); simpl.
  - rewrite forEach_app. unfold bind.
    destruct (forEach entries register w) as [[] w1|c w1|e w1]; [apply IH|done..].
  - unfold bind, ret. apply IH.
Qed.

Lemma collides_checked (w : world) (kv : string * Task) :
  collides w kv = true ->
  (is_task_name w (fst kv) || inherits w (fst kv))
  || (is_task_name w (toKey (namespace (snd kv)))
      || inherits w (toKey (namespace (snd kv)))) = true.
Proof.
  unfold collides. destruct (is_task_name w kv.1); [done|]. simpl.
  destruct (namespace kv.2); [|done]. simpl. intros ->.
  by rewrite orb_true_r.
Qed.

(** C1 (as the code has it): on the registry [a] in [g1], [b] in [g1],
    [c] without namespace, the request [c, g1] yields the set [c, a, b]
    in that order, and the warning is printed although nothing is
    listed twice: the set's size 3 is compared with the 2 requested
    identifiers, not with the 3 names collected. *)
Theorem C1_warning_compares_with_request_length :
  Part000.parseTaskFiles "/proj/tasks" listing_abc (start es2018) = Returned tt registry_abc
  /\ normalizeTaskSet ["c"; "g1"] registry_abc
     = Returned ["c"; "a"; "b"] (with_log registry_abc OrderNotGuaranteed)
  /\ NoDup (direct_names registry_abc ["c"; "g1"]
            ++ namespace_members registry_abc ["c"; "g1"])
  /\ normalizeTaskSet ["a"; "g1"] registry_abc = Returned ["a"; "b"] registry_abc.
Proof.
  split; [reflexivity|]. split; [reflexivity|]. split; [|reflexivity].
  compute_done.
Qed.

(** C2 (as the code has it): the merge completes, in either file,
    on two entries in the namespace [g1] followed by a task named [g1]:
    the registry then holds a task name that equals a namespace label,
    and the request [g1] runs the namespace, not the task.  The check
    looks both names up in [exportedTasks] only: in the other order, a
    namespace named like a task already registered, it ends the process
    with status 1. *)
Theorem C2_merge_accepts_task_named_like_namespace :
  Part000.parseTaskFiles "/proj/tasks" listing_clash (start es2018) = Returned tt registry_clash
  /\ Pwptr.parseTaskFiles "/proj/tasks" true listing_clash (start es2018)
     = Returned tt registry_clash_pwptr
  /\ exportedTasks registry_clash_pwptr = exportedTasks registry_clash
  /\ ~ (forall t, is_task_name registry_clash t = true ->
                  is_namespace_label registry_clash t = false)
  /\ ~ (forall i j ki vi kj vj n,
          exportedTasks registry_clash !! i = Some (ki, vi) ->
          exportedTasks registry_clash !! j = Some (kj, vj) ->
          i <> j -> declares vi n = true -> declares vj n = false)
  /\ normalizeTaskSet ["g1"] registry_clash
     = Returned ["a"; "b"] (with_log registry_clash OrderNotGuaranteed)
  /\ Part000.parseTaskFiles "/proj/tasks" listing_label_taken (start es2018)
     = Exited 1 (with_error registry_a (TaskExists "b")).
Proof.
  split; [reflexivity|]. split; [reflexivity|]. split; [reflexivity|].
  split; [|split; [|split; reflexivity]].
  - intros H. specialize (H "g1" eq_refl). discriminate.
  - intros H.
    specialize (H 0 1 "a" (entry (Some "g1")) "b" (entry (Some "g1")) "g1"
                  eq_refl eq_refl).
    assert (declares (entry (Some "g1")) "g1" = false) as E by (by apply H).
    discriminate.
Qed.

(** What the check of the merge does guarantee, in either file: after
    the merge completes, no two registry entries share a task name and
    no entry's namespace label is the name of a task registered before
    it; an entry whose name, or whose namespace label, is the name of a
    task already registered ends the process with status 1 and an error
    naming the entry's own name. *)
Lemma merge_keeps_task_names_distinct (dir : listing) (proto : gset string) :
  (forall w,
     (exists tasksDir, Part000.parseTaskFiles tasksDir dir (start proto) = Returned tt w)
     \/ (exists taskDir, Pwptr.parseTaskFiles taskDir true dir (start proto) = Returned tt w) ->
     NoDup (obj_keys (exportedTasks w))
     /\ labels_avoid_earlier_names (exportedTasks w))
  /\ (forall pre kv post w,
        entries_of dir = pre ++ kv :: post ->
        collides w kv = true ->
        (forEach pre Part000.register (start proto) = Returned tt w ->
         forall tasksDir,
           Part000.parseTaskFiles tasksDir dir (start proto)
           = Exited 1 (with_error w (TaskExists (fst kv))))
        /\ (forEach pre Pwptr.register (start proto) = Returned tt w ->
            forall taskDir,
              Pwptr.parseTaskFiles taskDir true dir (start proto)
              = Exited 1 (with_error w (TaskExists (fst kv))))).
Proof.
  split.
  - intros w [[tasksDir H]|[taskDir H]].
    + exact (Part000_parse_names _ _ _ _ H).
    + exact (Pwptr_parse_names _ _ _ _ _ H).
  - intros pre kv post w Hsplit Hc. apply collides_checked in Hc. split.
    + intros Hpre tasksDir. unfold Part000.parseTaskFiles, bind.
      rewrite merge_entries, Hsplit. unfold forEach.
      erewrite foldM_exits_at; [done | exact Hpre|].
      by rewrite Part000_register_run, Hc.
    + intros Hpre taskDir. unfold Pwptr.parseTaskFiles, bind. simpl.
      rewrite merge_entries, Hsplit. unfold forEach.
      erewrite foldM_exits_at; [done | exact Hpre|].
      by rewrite Pwptr_register_run, Hc.
Qed.

Lemma merge_keeps_task_names_distinct_witness :
  (NoDup (obj_keys (exportedTasks registry_abc))
   /\ labels_avoid_earlier_names (exportedTasks registry_abc))
  /\ Part000.parseTaskFiles "/proj/tasks" listing_label_taken (start es2018)
     = Exited 1 (with_error registry_a (TaskExists "b")).
Proof.
  split.
  - apply (proj1 (merge_keeps_task_names_distinct listing_abc es2018)).
    left. exists "/proj/tasks". reflexivity.
  - apply (proj2 (merge_keeps_task_names_distinct listing_label_taken es2018)
             [("a", entry None)] ("b", entry (Some "a")) [] registry_a);
      reflexivity.
Defined.

(** C3 (as the code has it): with a namespace labelled [undefined]
    registered, the request [undefined] contains no duplicate and
    promises the order [a]; [normalizeTaskSet] returns [a, c], the task
    [c] that declares no namespace being appended by the expansion. *)
Theorem C3_expansion_appends_task_without_namespace :
  Part000.parseTaskFiles "/proj/tasks" listing_undefined (start es2018)
  = Returned tt registry_undefined
  /\ requested_order registry_undefined ["undefined"] = ["a"]
  /\ normalizeTaskSet ["undefined"] registry_undefined
     = Returned ["a"; "c"] (with_log registry_undefined OrderNotGuaranteed).
Proof. repeat split; reflexivity. Qed.

(** C4 (as the code has it): [constructor] is neither a task name nor
    a namespace label of the registry, yet the request [constructor]
    does not end the process: [exportedTasks] and
    [exportedTasksNamespaces] are arrays, the name is inherited from
    [Array.prototype], both look-ups are truthy, and [normalizeTaskSet]
    returns the empty set after the warning. *)
Theorem C4_inherited_name_is_not_rejected :
  Part000.parseTaskFiles "/proj/tasks" listing_abc (start es2018)
  = Returned tt registry_abc
  /\ unknown registry_abc "constructor" = true
  /\ normalizeTaskSet ["constructor"] registry_abc
     = Returned [] (with_log registry_abc OrderNotGuaranteed)
  /\ normalizeTaskSet ["zz"] registry_abc
     = Exited 1 (with_error registry_abc (TaskDoesNotExist "zz")).
Proof. repeat split; reflexivity. Qed.

(** C10 (as the code has it): [logout] declares no namespace and is
    not named in the request, yet the expansion of the requested label
    [undefined] adds it to the returned set. *)
Theorem C10_task_without_namespace_is_expanded :
  Part000.parseTaskFiles "/proj/tasks" listing_login (start es2018)
  = Returned tt registry_login
  /\ obj_get (exportedTasks registry_login) "logout" = Some (entry None)
  /\ direct_names registry_login ["undefined"] = []
  /\ normalizeTaskSet ["undefined"] registry_login
     = Returned ["login"; "logout"] (with_log registry_login OrderNotGuaranteed).
Proof. repeat split; reflexivity. Qed.

End TaskClaims.

(** ** Cookie deletion *)

Section CookieClaims.
Import Js Proc Cookies CookieExamples.

(** C8: once the deletion is confirmed with [y], a cookie file that
    does not exist makes [unlinkSync] fail with [ENOENT], which is
    reported as already removed, and [delFile] returns; a failure with
    any other code (such as a permission error) ends the process with
    status 1. *)
Theorem C8_only_missing_file_is_forgiven
    (file : string) (confirmMsg : option string) (w : world) (rest : list string) :
  stdin w = "y" :: rest ->
  let asked :=
    Log (Prompt (default ("Are you sure you want to delete " +:+ file +:+ "?")
                   confirmMsg)) in
  (locked w !! file = None -> file ∉ files w ->
   delFile file confirmMsg w
   = Returned tt {| console := console w ++ [asked; Log AlreadyRemoved];
                    stdin := rest; files := files w; locked := locked w;
                    readline_open := false |})
  /\ (forall code, locked w !! file = Some code -> code <> "ENOENT" ->
      delFile file confirmMsg w
      = Exited 1 {| console := console w ++ [asked; Err (RemoveFailed file code)];
                    stdin := rest; files := files w; locked := locked w;
                    readline_open := true |}).
Proof.
  intros Hin asked. split.
  - intros Hfree Hgone.
    unfold delFile, bind, set_readline, console_log, modify, next_line. simpl.
    rewrite Hin. simpl. unfold try_catch, bind, unlinkSync. simpl.
    rewrite Hfree, bool_decide_eq_false_2 by done. simpl.
    unfold console_log, modify. simpl. by rewrite <- app_assoc.
  - intros code Hlocked Hcode.
    unfold delFile, bind, set_readline, console_log, modify, next_line. simpl.
    rewrite Hin. simpl. unfold try_catch, bind, unlinkSync. simpl.
    rewrite Hlocked. apply String.eqb_neq in Hcode. rewrite Hcode.
    unfold console_error, modify. simpl. by rewrite <- app_assoc.
Qed.

Lemma C8_only_missing_file_is_forgiven_witness :
  delFile "/p/dev/Default/Cookies" None terminal_absent
  = Returned tt
      {| console := [Log (Prompt "Are you sure you want to delete /p/dev/Default/Cookies?");
                     Log AlreadyRemoved];
         stdin := []; files := ∅; locked := ∅; readline_open := false |}
  /\ delFile "/p/dev/Default/Cookies" (Some "Delete cookies?") terminal_denied
     = Exited 1
         {| console := [Log (Prompt "Delete cookies?");
                        Err (RemoveFailed "/p/dev/Default/Cookies" "EACCES")];
            stdin := ["n"]; files := {["/p/dev/Default/Cookies"]};
            locked := {["/p/dev/Default/Cookies" := "EACCES"]};
            readline_open := true |}.
Proof.
  split.
  - apply (proj1 (C8_only_missing_file_is_forgiven
                    "/p/dev/Default/Cookies" None terminal_absent [] eq_refl));
      [reflexivity | set_solver].
  - apply (proj2 (C8_only_missing_file_is_forgiven
                    "/p/dev/Default/Cookies" (Some "Delete cookies?")
                    terminal_denied ["n"] eq_refl) "EACCES");
      [reflexivity | discriminate].
Defined.

End CookieClaims.

(** ** Configuration paths *)

Section ConfigPaths.
Import Js Proc Str Config ConfigExamples.

Lemma absolute_shape (r : string) :
  String.prefix "/" r = true ->
  starts_with_dot_or_slash r = true /\ is_relative r = false.
Proof. intros [t ->]%prefix_spec. destruct t; split; reflexivity. Qed.

(** What [resolveConfigPath] returns starts with a dot or a slash and
    is not relative to the current directory any more. *)
Lemma resolved_shape (e : env) (p : string) :
  starts_with_dot_or_slash (resolveConfigPath e p) = true
  /\ is_relative (resolveConfigPath e p) = false.
Proof.
  unfold resolveConfigPath. cbv zeta.
  set (q := replace p "{HOME}" (toString (HOME e))).
  destruct (starts_with_dot_or_slash q) eqn:Hq; simpl.
  - destruct (is_relative q) eqn:Hr; [|done].
    apply absolute_shape, resolve_absolute.
  - assert (is_relative ("./" +:+ q) = true) as -> by (by destruct q).
    apply absolute_shape, resolve_absolute.
Qed.

(** A path without placeholder that has that shape is returned as it is. *)
Lemma resolveConfigPath_fixed (e : env) (r : string) :
  includes "{HOME}" r = false ->
  starts_with_dot_or_slash r = true -> is_relative r = false ->
  resolveConfigPath e r = r.
Proof.
  intros Hno Hs Hr. unfold resolveConfigPath, replace. cbv zeta.
  rewrite replace_from_absent by done. rewrite Hs. cbn [negb]. by rewrite Hr.
Qed.

(** Only the first placeholder is replaced. *)
Lemma replace_first_placeholder (pre post home : string) :
  includes "{HOME}" pre = false -> has_char "$" home = false ->
  replace (pre +:+ "{HOME}" +:+ post) "{HOME}" home = pre +:+ home +:+ post.
Proof.
  intros Hpre Hplain. unfold replace.
  rewrite replace_from_first by (by apply placeholder_first).
  by rewrite getSubstitution_plain.
Qed.

(** C5 (counterexample): a second placeholder stays in the resolved path. *)
Lemma C5_second_placeholder_remains :
  resolveConfigPath installed "{HOME}/ext/{HOME}" = "/home/u/ext/{HOME}"
  /\ includes "{HOME}" (resolveConfigPath installed "{HOME}/ext/{HOME}") = true.
Proof. split; reflexivity. Qed.

(** C5 (amended): for every configuration path that contains the
    placeholder [{HOME}] exactly once, a home directory that begins
    with a slash and contains neither [{] nor [$], and a configuration
    directory without the placeholder, [resolveConfigPath] returns the
    resolution of the path with the placeholder replaced by the home
    directory, and no literal [{HOME}] remains in it. *)
Theorem C5_single_placeholder_is_replaced
    (e : env) (pre post home : string) :
  HOME e = Some home ->
  String.prefix "/" home = true ->
  has_char "{" home = false ->
  has_char "$" home = false ->
  includes "{HOME}" (configDir e) = false ->
  includes "{HOME}" pre = false ->
  includes "{HOME}" post = false ->
  resolveConfigPath e (pre +:+ "{HOME}" +:+ post)
  = resolveConfigPath e (pre +:+ home +:+ post)
  /\ includes "{HOME}" (resolveConfigPath e (pre +:+ "{HOME}" +:+ post)) = false.
Proof.
  intros Hhome Habs Hbrace Hplain Hdir Hpre Hpost.
  pose proof (placeholder_not_spelled pre home post Hpre Hpost Habs Hbrace) as Hq.
  assert (resolveConfigPath e (pre +:+ "{HOME}" +:+ post)
          = resolveConfigPath e (pre +:+ home +:+ post)) as Heq.
  { unfold resolveConfigPath. cbv zeta. rewrite Hhome. simpl.
    rewrite replace_first_placeholder by done.
    unfold replace. by rewrite replace_from_absent. }
  split; [exact Heq|]. rewrite Heq.
  unfold resolveConfigPath, replace. cbv zeta. rewrite replace_from_absent by done.
  set (q := pre +:+ home +:+ post) in *.
  assert (includes "{HOME}"
            (if negb (starts_with_dot_or_slash q) then "./" +:+ q else q) = false)
    as Hq'.
  { destruct (starts_with_dot_or_slash q); cbn [negb]; [done|].
    apply includes_false. intros H.
    apply (occurs_around_char "{HOME}" "." "/" q) in H as [H|H]; [| |done].
    - by apply includes_spec in H.
    - apply includes_spec in H. congruence. }
  destruct (is_relative _); [|done].
  apply includes_false. intros H.
  apply resolve_occurs in H; [|done|done|].
  - apply (occurs_around_char "{HOME}" (configDir e) "/") in H as [H|H]; [| |done];
      apply includes_spec in H; congruence.
  - unfold configDir, Path.resolve. apply prefix_spec. eauto.
Qed.

Lemma C5_single_placeholder_is_replaced_witness :
  resolveConfigPath installed ("" +:+ "{HOME}" +:+ "/ext/adblock")
  = resolveConfigPath installed ("" +:+ "/home/u" +:+ "/ext/adblock")
  /\ includes "{HOME}"
       (resolveConfigPath installed ("" +:+ "{HOME}" +:+ "/ext/adblock")) = false.
Proof.
  apply (C5_single_placeholder_is_replaced installed "" "/ext/adblock" "/home/u");
    reflexivity.
Defined.

(** C9 (counterexample): the resolution of [{HOME}/{HOME}] still holds
    a placeholder, which a second resolution replaces. *)
Lemma C9_second_resolution_differs :
  resolveConfigPath installed "{HOME}/{HOME}" = "/home/u/{HOME}"
  /\ resolveConfigPath installed (resolveConfigPath installed "{HOME}/{HOME}")
     = "/home/u//home/u"
  /\ resolveConfigPath installed (resolveConfigPath installed "{HOME}/{HOME}")
     <> resolveConfigPath installed "{HOME}/{HOME}".
Proof. repeat split; [reflexivity..|discriminate]. Qed.

(** C9 (amended): a resolved path that contains no literal [{HOME}],
    be it an absolute path or the result of [resolveConfigPath], is
    returned unchanged when it is resolved again. *)
Theorem C9_resolution_is_idempotent_without_placeholder (e : env) (r : string) :
  includes "{HOME}" r = false ->
  String.prefix "/" r = true \/ (exists p, r = resolveConfigPath e p) ->
  resolveConfigPath e r = r.
Proof.
  intros Hno [Habs|[p ->]].
  - destruct (absolute_shape r Habs). by apply resolveConfigPath_fixed.
  - destruct (resolved_shape e p). by apply resolveConfigPath_fixed.
Qed.

Lemma C9_resolution_is_idempotent_without_placeholder_witness :
  resolveConfigPath installed (resolveConfigPath installed "{HOME}/../tasks")
  = resolveConfigPath installed "{HOME}/../tasks".
Proof.
  apply (C9_resolution_is_idempotent_without_placeholder installed
           (resolveConfigPath installed "{HOME}/../tasks")).
  - reflexivity.
  - right. exists "{HOME}/../tasks". reflexivity.
Defined.

End ConfigPaths.
(** ** Configuration resolution *)

Section ObjFacts.
Import Js.
Context {V : Type}.
Implicit Types (o a b : obj V) (k : string) (v : V).

Lemma obj_get_set_eq o k v : obj_get (obj_set o k v) k = Some v.
Proof.
  induction o as [|[k' v'] o IH]; simpl; [by rewrite String.eqb_refl|].
  destruct (String.eqb k' k) eqn:E; simpl; by rewrite E.
Qed.

Lemma obj_get_set_ne o k k' v : k <> k' -> obj_get (obj_set o k v) k' = obj_get o k'.
Proof.
  intros Hne. induction o as [|[k0 v0] o IH]; simpl.
  - apply String.eqb_neq in Hne. by rewrite Hne.
  - destruct (String.eqb_spec k0 k) as [->|Hk]; simpl.
    + apply String.eqb_neq in Hne. by rewrite Hne.
    + by rewrite IH.
Qed.

Lemma obj_get_spread_other a b k :
  k ∉ obj_keys b -> obj_get (obj_spread a b) k = obj_get a k.
Proof.
  unfold obj_spread. revert a. induction b as [|[k' v'] b IH]; intros a Hk; [done|].
  simpl in *. apply not_elem_of_cons in Hk as [Hne Hk].
  rewrite IH by done. by apply obj_get_set_ne.
Qed.

(** [{...a, ...b}] reads like [b] on the keys of [b]. *)
Lemma obj_get_spread a b k v :
  NoDup (obj_keys b) -> obj_get b k = Some v -> obj_get (obj_spread a b) k = Some v.
Proof.
  unfold obj_spread. revert a. induction b as [|[k' v'] b IH]; intros a Hnd; [done|].
  simpl in *. apply NoDup_cons in Hnd as [Hk' Hnd].
  destruct (String.eqb_spec k' k) as [->|Hne].
  - intros [= ->]. fold (obj_spread (obj_set a k v) b).
    rewrite obj_get_spread_other by done. apply obj_get_set_eq.
  - by apply IH.
Qed.

End ObjFacts.

Section ConfigRuns.
Import Js Proc Str Config ConfigExamples.

Lemma bind_returned {W A B : Type} (m : proc W A) (k : A -> proc W B)
    (w w' : W) (b : B) :
  bind m k w = Returned b w' ->
  exists a w1, m w = Returned a w1 /\ k a w1 = Returned b w'.
Proof. unfold bind. destruct (m w) as [a w1|c w1|x w1]; [eauto | done..]. Qed.

(** The paths of a configuration the script has resolved. *)
Lemma resolveConfig_paths (e : env) (user : userConfig) (w w' : world) (cfg : config) :
  resolveConfig e user w = Returned cfg w' ->
  tasksDir cfg
  = resolveConfigPath e (default (configDir e +:+ "/tasks") (u_tasksDir user))
  /\ profilesDir cfg
     = resolveConfigPath e
         (default (tasksDir cfg +:+ "../.chrome-profiles") (u_profilesDir user)).
Proof.
  unfold resolveConfig. intros H.
  repeat (apply bind_returned in H as (? & ? & _ & H)).
  unfold ret in H. injection H as <- _. done.
Qed.

(** With no [profilesDir] configured, the profiles directory is the
    tasks directory with [../.chrome-profiles] glued to its name. *)
Lemma default_profilesDir_glued (e : env) (user : userConfig) (w w' : world)
    (cfg : config) :
  u_profilesDir user = None ->
  resolveConfig e user w = Returned cfg w' ->
  String.prefix "/" (tasksDir cfg) = true ->
  includes "{HOME}" (tasksDir cfg) = false ->
  profilesDir cfg = tasksDir cfg +:+ "../.chrome-profiles".
Proof.
  intros Hnone [_ Hp]%resolveConfig_paths Habs Hno.
  rewrite Hp, Hnone. simpl.
  apply prefix_spec in Habs as [t Ht]. rewrite Ht.
  apply resolveConfigPath_fixed.
  - apply includes_false. rewrite <- Ht.
    intros [H|H]%(occurs_around_char "{HOME}" (tasksDir cfg) "." "./.chrome-profiles");
      [| |done]; apply includes_spec in H; [congruence | done].
  - rewrite str_app_assoc. by destruct (t +:+ "../.chrome-profiles").
  - rewrite str_app_assoc. by destruct (t +:+ "../.chrome-profiles").
Qed.

(** A profile whose [exts] is neither [null] nor an array ends the
    validation with an error citing its key. *)
Lemma checkProfile_lacks_forEach (e : env) (profiles : obj (obj json))
    (key : string) (opts : obj json) (v : json) (w : world) :
  obj_get profiles key = Some opts ->
  obj_get opts "exts" = Some v ->
  lacks_forEach v = true ->
  checkProfile e profiles key w
  = Exited 1 (with_error w (InvalidExts (configFile e) key)).
Proof.
  intros Hp Hv Hl. unfold checkProfile. rewrite Hp. simpl. rewrite Hv.
  by destruct v.
Qed.

(** In a configuration that is valid up to its first profile, an
    [exts] of that profile that is neither [null] nor an array ends the
    process with status 1 and an error citing the profile's key. *)
Lemma first_profile_lacks_forEach (e : env) (user : userConfig) (w : world)
    (key : string) (opts : obj json) (others : obj (obj json)) (v : json) :
  u_profiles user = Some ((key, opts) :: others) ->
  key ∉ obj_keys others ->
  NoDup (obj_keys opts) ->
  obj_get opts "exts" = Some v ->
  lacks_forEach v = true ->
  let tasks := resolveConfigPath e (default (configDir e +:+ "/tasks") (u_tasksDir user)) in
  tasks ∈ existing w ->
  resolveConfigPath e (default (tasks +:+ "/output") (u_tasksOutputDir user)) ∈ existing w ->
  resolveConfig e user w
  = Exited 1 (with_error w (InvalidExts (configFile e) key)).
Proof.
  intros Hps Hfresh Hnd Hv Hl tasks Htasks Hout.
  unfold resolveConfig. fold tasks. rewrite Hps.
  unfold bind at 1. unfold existsSync at 1, gets.
  rewrite bool_decide_eq_true_2 by done. simpl.
  unfold bind at 1. unfold when, ret.
  unfold bind at 1. unfold ensureDir, bind at 1, existsSync, gets.
  rewrite bool_decide_eq_true_2 by done. simpl. unfold ret.
  rewrite String.eqb_refl.
  set (merged := obj_spread defaultProfileOpts opts).
  assert (forall (ps : obj (obj json)) rest,
            key ∉ obj_keys rest ->
            obj_get (fold_left (fun ps kv => obj_set ps kv.1 (obj_spread defaultProfileOpts kv.2))
                       rest ((key, merged) :: ps)) key = Some merged
            /\ exists ks, obj_keys (fold_left (fun ps kv =>
                              obj_set ps kv.1 (obj_spread defaultProfileOpts kv.2))
                            rest ((key, merged) :: ps)) = key :: ks) as Hfold.
  { intros ps rest. revert ps. induction rest as [|[k o] rest IH]; intros ps Hk.
    - simpl. rewrite String.eqb_refl. eauto.
    - cbn in Hk. apply not_elem_of_cons in Hk as [Hne Hk]. cbn.
      apply String.eqb_neq in Hne. rewrite Hne. by apply IH. }
  destruct (Hfold others others Hfresh) as (Hget & ks & Hkeys).
  rewrite Hkeys. unfold bind at 1. simpl. unfold bind at 1.
  rewrite (checkProfile_lacks_forEach e _ key merged v); [done | done | | done].
  by apply obj_get_spread.
Qed.


(** C6 (as the code has it): with no [profilesDir] configured the
    script joins [tasksDir] and [../.chrome-profiles] without a
    separator, so for the tasks directory [/proj/tasks] the profiles
    directory is [/proj/tasks../.chrome-profiles], not the sibling
    [/proj/.chrome-profiles]; where that directory cannot be created,
    the process ends with status 1. *)
Theorem C6_default_profilesDir_lacks_separator :
  returned (resolveConfig installed no_config fresh_project)
  = Some {| tasksDir := "/proj/tasks";
            tasksOutputDir := "/proj/tasks/output";
            profilesDir := "/proj/tasks../.chrome-profiles";
            profiles := default_profiles |}
  /\ sibling_profilesDir installed "/proj/tasks" = "/proj/.chrome-profiles"
  /\ (let r := resolveConfig installed no_config bare_project in
      r = Exited 1 (final r)
      /\ console (final r)
         = [Err (ProfilesDirNotCreated "/proj/tasks../.chrome-profiles")]).
Proof. repeat split; reflexivity. Qed.

(** C7 (as the code has it): a profile whose [exts] is a string ends
    the process with status 1 and an error citing the profile's key,
    but a profile whose [exts] is [null] raises an uncaught [TypeError]
    at [paths.forEach], and nothing citing the key is printed. *)
Theorem C7_null_exts_raises_TypeError :
  (let r := resolveConfig installed (profile_with_exts (JString "ext")) fresh_project in
   r = Exited 1 (final r)
   /\ console (final r) = [Err (InvalidExts "/proj/.pwptr.json" "work")])
  /\ (let r := resolveConfig installed (profile_with_exts JNull) fresh_project in
      r = Threw "TypeError" (final r)
      /\ console (final r) = []).
Proof. repeat split; reflexivity. Qed.

End ConfigRuns.


(** ** More on the registry built by [parseTaskFiles] *)

Section RegistryOrder.
Import Js Proc Tasks Registry.

Lemma is_js_file_spec (file : string) :
  is_js_file file = true <-> exists stem, file = stem +:+ ".js".
Proof.
  induction file as [|c rest IH].
  - split; [done|]. by intros [[|? ?] ?].
  - cbn [is_js_file]. rewrite orb_true_iff, IH, String.eqb_eq. split.
    + intros [->|[stem ->]]; [by exists "" | by exists (String c stem)].
    + intros [[|c' stem] H]; [by left|].
      rewrite str_app_cons in H. injection H as -> ->. right. by exists stem.
Qed.

Lemma entries_of_app (d1 d2 : listing) :
  entries_of (d1 ++ d2) = entries_of d1 ++ entries_of d2.
Proof. unfold entries_of. by rewrite List.filter_app, map_app, concat_app. Qed.

Lemma obj_get_elem {V : Type} (o : obj V) (k : string) (v : V) :
  NoDup (obj_keys o) -> (k, v) ∈ o -> obj_get o k = Some v.
Proof.
  induction o as [|[k' v'] o IH]; simpl; [by intros _ ?%elem_of_nil|].
  intros [Hk Hnd]%NoDup_cons [[= -> ->]|Hin]%elem_of_cons.
  - by rewrite String.eqb_refl.
  - destruct (String.eqb_spec k' k) as [->|Hne]; [|by apply IH].
    exfalso. apply Hk. by apply (list_elem_of_fmap_2 fst) in Hin.
Qed.

(** The rounds of the merge that return append the entries they visit. *)
Lemma forEach_register_appends (register : string * Task -> proc world unit)
    (l : obj Task) :
  (forall kv w u w', register kv w = Returned u w' ->
                     exportedTasks w' = exportedTasks w ++ [kv]
                     /\ is_task_name w (fst kv) = false
                     /\ is_task_name w (toKey (namespace (snd kv))) = false) ->
  forall w u w', forEach l register w = Returned u w' ->
                 exportedTasks w' = exportedTasks w ++ l.
Proof.
  intros Hreg. induction l as [|kv l IH]; intros w u w'.
  - unfold forEach, ret. simpl. intros [= _ <-]. by rewrite app_nil_r.
  - rewrite forEach_cons. intros (u1 & w1 & H1 & H2)%bind_returned.
    apply Hreg in H1 as (H1 & _). rewrite (IH _ _ _ H2), H1.
    by rewrite <- app_assoc.
Qed.

Lemma Part000_parse_entries tasksDir dir proto w :
  Part000.parseTaskFiles tasksDir dir (start proto) = Returned tt w ->
  exportedTasks w = entries_of dir.
Proof.
  intros [H _]%Part000_parse_returned. rewrite merge_entries in H.
  by apply (forEach_register_appends _ _ Part000_register_appends) in H.
Qed.

Lemma Pwptr_parse_entries taskDir taskDirExists dir proto w :
  Pwptr.parseTaskFiles taskDir taskDirExists dir (start proto) = Returned tt w ->
  exportedTasks w = entries_of dir.
Proof.
  intros [H _]%Pwptr_parse_returned. rewrite merge_entries in H.
  by apply (forEach_register_appends _ _ Pwptr_register_appends) in H.
Qed.

End RegistryOrder.

Section RegistryContents.
Import Js Proc Tasks Registry Examples.

(** X1: when [parseTaskFiles] returns, in either file, the registry
    holds exactly the entries exported by the [.js] modules of the
    directory, in directory order and then export order, and every
    exported entry is found again under its name (names that are array
    indices apart, which the model leaves out). *)
Theorem parse_registers_exports_in_order
    (dir : listing) (proto : gset string) (w : world) :
  (exists tasksDir, Part000.parseTaskFiles tasksDir dir (start proto) = Returned tt w)
  \/ (exists taskDir taskDirExists,
        Pwptr.parseTaskFiles taskDir taskDirExists dir (start proto) = Returned tt w) ->
  exportedTasks w = entries_of dir
  /\ forall key value,
       (key, value) ∈ entries_of dir -> obj_get (exportedTasks w) key = Some value.
Proof.
  intros H.
  assert (exportedTasks w = entries_of dir /\ names_distinct w) as [He [Hnd _]].
  { destruct H as [[tasksDir H]|(taskDir & b & H)].
    - split; [by eapply Part000_parse_entries | by eapply Part000_parse_names].
    - split; [by eapply Pwptr_parse_entries | by eapply Pwptr_parse_names]. }
  split; [done|]. intros key value Hin. apply obj_get_elem; [done|].
  by rewrite He.
Qed.

Lemma parse_registers_exports_in_order_witness :
  exportedTasks registry_clash = entries_of listing_clash
  /\ forall key value,
       (key, value) ∈ entries_of listing_clash ->
       obj_get (exportedTasks registry_clash) key = Some value.
Proof.
  apply (parse_registers_exports_in_order listing_clash es2018 registry_clash).
  left. exists "/proj/tasks". reflexivity.
Defined.

(** X2: a file whose name does not end in [.js] is never loaded: with
    or without it in the directory, [parseTaskFiles] ends the same way,
    in either file. *)
Theorem parse_skips_files_without_js_suffix
    (pre post : listing) (file : string) (exports : obj Task) (w : world) :
  (forall stem, file <> stem +:+ ".js") ->
  (forall tasksDir,
     Part000.parseTaskFiles tasksDir (pre ++ (file, exports) :: post) w
     = Part000.parseTaskFiles tasksDir (pre ++ post) w)
  /\ (forall taskDir taskDirExists,
        Pwptr.parseTaskFiles taskDir taskDirExists (pre ++ (file, exports) :: post) w
        = Pwptr.parseTaskFiles taskDir taskDirExists (pre ++ post) w).
Proof.
  intros Hfile.
  assert (is_js_file file = false) as Hjs.
  { apply not_true_is_false. intros [stem ->]%is_js_file_spec. by apply (Hfile stem). }
  assert (entries_of (pre ++ (file, exports) :: post) = entries_of (pre ++ post)) as He.
  { rewrite !entries_of_app. f_equal. unfold entries_of. simpl. by rewrite Hjs. }
  split.
  - intros tasksDir. unfold Part000.parseTaskFiles, bind.
    by rewrite !merge_entries, He.
  - intros taskDir b. unfold Pwptr.parseTaskFiles, bind.
    destruct b; simpl; [|done]. by rewrite !merge_entries, He.
Qed.

Lemma parse_skips_files_without_js_suffix_witness :
  Part000.parseTaskFiles "/proj/tasks"
    ([] ++ ("notes.json", [("a", entry None)]) :: listing_abc) (start es2018)
  = Part000.parseTaskFiles "/proj/tasks" ([] ++ listing_abc) (start es2018).
Proof.
  apply (parse_skips_files_without_js_suffix [] listing_abc "notes.json"
           [("a", entry None)] (start es2018)).
  intros stem H.
  assert (is_js_file "notes.json" = true) as Hjs
    by (apply is_js_file_spec; by exists stem).
  discriminate Hjs.
Defined.

(** X3: a directory whose [.js] modules export nothing ends
    [parseTaskFiles] of [src/unnamed/part_000] with status 1 and the
    error that no exported task was found; [parseTaskFiles] of
    [src/pwptr.js] has no such check and returns with an empty registry. *)
Theorem parse_without_exports (dir : listing) (proto : gset string) :
  entries_of dir = [] ->
  (forall tasksDir,
     Part000.parseTaskFiles tasksDir dir (start proto)
     = Exited 1 (with_error (start proto) (NoExportedTasks tasksDir)))
  /\ (forall taskDir,
        Pwptr.parseTaskFiles taskDir true dir (start proto) = Returned tt (start proto)).
Proof.
  intros He. split.
  - intros tasksDir. unfold Part000.parseTaskFiles, bind.
    by rewrite merge_entries, He.
  - intros taskDir. unfold Pwptr.parseTaskFiles, bind. simpl.
    by rewrite merge_entries, He.
Qed.

Lemma parse_without_exports_witness :
  Part000.parseTaskFiles "/proj/tasks" [("README.md", [("a", entry None)]); ("empty.js", [])]
    (start es2018)
  = Exited 1 (with_error (start es2018) (NoExportedTasks "/proj/tasks")).
Proof.
  apply (proj1 (parse_without_exports
                  [("README.md", [("a", entry None)]); ("empty.js", [])] es2018 eq_refl)).
Defined.

End RegistryContents.

(** ** What [parseTaskFiles] keeps out of the registry *)

Section RegistryInvariants.
Import Js Proc Tasks Registry Built.

Lemma inherits_false (w : world) (t : string) :
  inherits w t = false <-> t ∉ inherited w.
Proof. unfold inherits. by rewrite bool_decide_eq_false. Qed.

Lemma inherits_true (w : world) (t : string) :
  inherits w t = true <-> t ∈ inherited w.
Proof. unfold inherits. by rewrite bool_decide_eq_true. Qed.

Lemma Part000_register_checked kv w u w' :
  Part000.register kv w = Returned u w' ->
  exportedTasks w' = exportedTasks w ++ [kv]
  /\ inherited w' = inherited w
  /\ inherits w (fst kv) = false
  /\ inherits w (toKey (namespace (snd kv))) = false.
Proof.
  rewrite Part000_register_run.
  destruct (is_task_name w kv.1); simpl; [done|].
  destruct (inherits w kv.1); simpl; [done|].
  destruct (is_task_name w (toKey _)); simpl; [done|].
  destruct (inherits w (toKey _)); simpl; [done|].
  repeat (match goal with |- context [if ?c then _ else _] => destruct c end;
          try done).
  all: by intros [= _ <-].
Qed.

Lemma Pwptr_register_checked kv w u w' :
  Pwptr.register kv w = Returned u w' ->
  exportedTasks w' = exportedTasks w ++ [kv]
  /\ inherited w' = inherited w
  /\ inherits w (fst kv) = false
  /\ inherits w (toKey (namespace (snd kv))) = false.
Proof.
  rewrite Pwptr_register_run.
  destruct (is_task_name w kv.1); simpl; [done|].
  destruct (inherits w kv.1); simpl; [done|].
  destruct (is_task_name w (toKey _)); simpl; [done|].
  destruct (inherits w (toKey _)); simpl; [done|].
  repeat (match goal with |- context [if ?c then _ else _] => destruct c end;
          try done).
  all: by intros [= _ <-].
Qed.

(** The rounds of the merge keep the names arrays inherit out of the
    registry. *)
Lemma forEach_register_avoids (register : string * Task -> proc world unit)
    (l : obj Task) (proto : gset string) :
  (forall kv w u w', register kv w = Returned u w' ->
                     exportedTasks w' = exportedTasks w ++ [kv]
                     /\ inherited w' = inherited w
                     /\ inherits w (fst kv) = false
                     /\ inherits w (toKey (namespace (snd kv))) = false) ->
  forall w u w',
    inherited w = proto /\ entries_avoid_inherited w ->
    forEach l register w = Returned u w' ->
    inherited w' = proto /\ entries_avoid_inherited w'.
Proof.
  intros Hreg. apply forEach_returned_inv.
  intros kv w u w' [Hp Hav] (He & Hi & Hk & Hn)%Hreg.
  split; [congruence|]. unfold entries_avoid_inherited. rewrite He, Hi.
  apply Forall_app. split; [exact Hav|]. apply Forall_singleton.
  by rewrite <- !inherits_false.
Qed.

Lemma built_avoids_inherited dir proto w :
  built dir proto w -> inherited w = proto /\ entries_avoid_inherited w.
Proof.
  assert (inherited (start proto) = proto /\ entries_avoid_inherited (start proto))
    as Hstart by (split; [done | apply Forall_nil_2]).
  intros [[tasksDir H]|(taskDir & b & H)].
  - apply Part000_parse_returned in H as [H _]. rewrite merge_entries in H.
    exact (forEach_register_avoids _ _ _ Part000_register_checked _ _ _ Hstart H).
  - apply Pwptr_parse_returned in H as [H _]. rewrite merge_entries in H.
    exact (forEach_register_avoids _ _ _ Pwptr_register_checked _ _ _ Hstart H).
Qed.

Lemma Part000_register_keyed kv w u w' :
  labels_keyed w -> Part000.register kv w = Returned u w' -> labels_keyed w'.
Proof.
  intros Hk. rewrite Part000_register_run.
  destruct (_ || _); [done|]. cbv zeta.
  destruct (_ && _); [done|]. destruct (String.eqb kv.1 "length"); [done|].
  intros [= _ <-] k v. simpl.
  destruct (namespace kv.2) as [n|]; simpl; [|apply Hk].
  destruct (truthy_string n); [|apply Hk].
  destruct (decide (n = k)) as [->|Hne].
  - rewrite lookup_insert_eq. by intros [= <-].
  - rewrite lookup_insert_ne by done. apply Hk.
Qed.

Lemma Part000_parse_keyed tasksDir dir proto w :
  Part000.parseTaskFiles tasksDir dir (start proto) = Returned tt w ->
  labels_keyed w.
Proof.
  intros [H _]%Part000_parse_returned. rewrite merge_entries in H.
  revert H. apply forEach_returned_inv.
  - intros kv w1 u1 w2. apply Part000_register_keyed.
  - intros k v. done.
Qed.

End RegistryInvariants.

Section RegistryNames.
Import Js Proc Tasks Registry Built Examples.

(** X4: when [parseTaskFiles] of [src/unnamed/part_000] returns, the
    table of namespaces holds a label exactly when it is the non-empty
    namespace of an exported entry, and holds it under itself. *)
Theorem Part000_label_table_follows_exports
    (tasksDir : string) (dir : listing) (proto : gset string) (w : world) :
  Part000.parseTaskFiles tasksDir dir (start proto) = Returned tt w ->
  forall n,
    (exportedTasksNamespaces w !! n = Some (Some n)
     <-> n <> "" /\ exists key value,
                      (key, value) ∈ entries_of dir /\ namespace value = Some n)
    /\ (forall v, exportedTasksNamespaces w !! n = Some v -> v = Some n).
Proof.
  intros H n.
  pose proof (Part000_parse_labels _ _ _ _ H n) as Hl.
  pose proof (Part000_parse_keyed _ _ _ _ H n) as Hk.
  pose proof (Part000_parse_entries _ _ _ _ H) as He.
  assert (is_namespace_label w n = true
          <-> n <> "" /\ exists key value,
                           (key, value) ∈ entries_of dir /\ namespace value = Some n)
    as Hdecl.
  { unfold is_namespace_label. rewrite existsb_exists, He. split.
    - intros ([key value] & Hin & [Hns Hne]%declares_true).
      split; [done|]. exists key, value. by rewrite list_elem_of_In.
    - intros (Hne & key & value & Hin & Hns). exists (key, value).
      rewrite <- list_elem_of_In. split; [done|]. by apply declares_true. }
  split; [|exact Hk]. rewrite <- Hdecl.
  destruct (exportedTasksNamespaces w !! n) as [v|].
  - destruct Hl as [_ ->]. by rewrite (Hk v eq_refl).
  - rewrite Hl. split; done.
Qed.

Lemma Part000_label_table_follows_exports_witness :
  (exportedTasksNamespaces registry_abc !! "g1" = Some (Some "g1")
   <-> "g1" <> "" /\ exists key value,
                       (key, value) ∈ entries_of listing_abc
                       /\ namespace value = Some "g1")
  /\ (forall v, exportedTasksNamespaces registry_abc !! "g1" = Some v -> v = Some "g1").
Proof.
  apply (Part000_label_table_follows_exports "/proj/tasks" listing_abc es2018
           registry_abc eq_refl "g1").
Defined.

(** X5: a name arrays inherit, such as [constructor] or [toString],
    can be neither the name nor the namespace of a task: in either
    file, the first exported entry with such a name or namespace ends
    [parseTaskFiles] with status 1 and the error that the entry's name
    already exists, and a registry that was built holds no such entry. *)
Theorem inherited_names_are_refused (dir : listing) (proto : gset string) :
  (forall w, built dir proto w ->
             forall key value, (key, value) ∈ exportedTasks w ->
                               (key ∉ proto) /\ (toKey (namespace value) ∉ proto))
  /\ (forall pre kv post w,
        entries_of dir = pre ++ kv :: post ->
        fst kv ∈ proto \/ toKey (namespace (snd kv)) ∈ proto ->
        (forEach pre Part000.register (start proto) = Returned tt w ->
         forall tasksDir,
           Part000.parseTaskFiles tasksDir dir (start proto)
           = Exited 1 (with_error w (TaskExists (fst kv))))
        /\ (forEach pre Pwptr.register (start proto) = Returned tt w ->
            forall taskDir,
              Pwptr.parseTaskFiles taskDir true dir (start proto)
              = Exited 1 (with_error w (TaskExists (fst kv))))).
Proof.
  assert (inherited (start proto) = proto /\ entries_avoid_inherited (start proto))
    as Hstart by (split; [done | apply Forall_nil_2]).
  split.
  - intros w [Hp Hav]%built_avoids_inherited key value Hin.
    unfold entries_avoid_inherited in Hav. rewrite Forall_forall in Hav.
    rewrite <- Hp. exact (Hav (key, value) Hin).
  - intros pre kv post w Hsplit Hin.
    assert (inherited w = proto ->
            (is_task_name w (fst kv) || inherits w (fst kv))
            || (is_task_name w (toKey (namespace (snd kv)))
                || inherits w (toKey (namespace (snd kv)))) = true) as Hc.
    { intros Hp. rewrite <- Hp in Hin.
      destruct Hin as [Hin|Hin]; apply inherits_true in Hin; rewrite Hin;
        by rewrite !orb_true_r. }
    split.
    + intros Hpre tasksDir.
      destruct (forEach_register_avoids _ _ _ Part000_register_checked _ _ _ Hstart Hpre)
        as [Hp _].
      unfold Part000.parseTaskFiles, bind.
      rewrite merge_entries, Hsplit. unfold forEach.
      erewrite foldM_exits_at; [done | exact Hpre|].
      by rewrite Part000_register_run, Hc.
    + intros Hpre taskDir.
      destruct (forEach_register_avoids _ _ _ Pwptr_register_checked _ _ _ Hstart Hpre)
        as [Hp _].
      unfold Pwptr.parseTaskFiles, bind. simpl.
      rewrite merge_entries, Hsplit. unfold forEach.
      erewrite foldM_exits_at; [done | exact Hpre|].
      by rewrite Pwptr_register_run, Hc.
Qed.

Lemma inherited_names_are_refused_witness :
  (forall key value, (key, value) ∈ exportedTasks registry_abc ->
                     (key ∉ es2018) /\ (toKey (namespace value) ∉ es2018))
  /\ Part000.parseTaskFiles "/proj/tasks"
       [("site.js", [("a", entry None); ("toString", entry (Some "g1"))])]
       (start es2018)
     = Exited 1 (with_error registry_a (TaskExists "toString")).
Proof.
  split.
  - apply (proj1 (inherited_names_are_refused listing_abc es2018) registry_abc).
    left. exists "/proj/tasks". reflexivity.
  - apply (proj2 (inherited_names_are_refused
                    [("site.js", [("a", entry None); ("toString", entry (Some "g1"))])]
                    es2018)
             [("a", entry None)] ("toString", entry (Some "g1")) [] registry_a).
    + reflexivity.
    + left. simpl. set_solver.
    + reflexivity.
Defined.

End RegistryNames.

(** ** More on [normalizeTaskSet] *)

Section SetMore.
Import Js.

Lemma fold_Set_add_NoDup (l s : list string) :
  NoDup s -> NoDup (fold_left Set_add l s).
Proof.
  revert s. induction l as [|x l IH]; intros s Hs; simpl; [done|].
  apply IH. unfold Set_add. destruct (Set_has s x) eqn:Hx; [done|].
  apply Set_has_false in Hx. apply NoDup_app. split; [done|].
  split; [|apply NoDup_singleton]. by intros y Hy ->%list_elem_of_singleton.
Qed.

(** A [Set] holds nothing twice. *)
Lemma Set_from_distinct (l : list string) : NoDup (Set_from l).
Proof. apply fold_Set_add_NoDup. constructor. Qed.

Lemma filter_none {A : Type} (f : A -> bool) (l : list A) :
  (forall x, x ∈ l -> f x = false) -> List.filter f l = [].
Proof.
  induction l as [|x l IH]; [done|]. intros H. simpl.
  rewrite (H x) by left. apply IH. intros y Hy. apply H. by right.
Qed.

End SetMore.

Section NormalizerMore.
Import Js Proc Tasks Registry Built.

Variables (tasksDir : string) (dir : listing) (proto : gset string) (w : world).
Hypothesis Hbuilt :
  Part000.parseTaskFiles tasksDir dir (start proto) = Returned tt w.

Lemma Part000_built : built dir proto w.
Proof. left. by exists tasksDir. Qed.

(** What is known to the registry is not a name arrays inherit. *)
Lemma known_not_inherited (t : string) :
  is_task_name w t = true \/ is_namespace_label w t = true -> inherits w t = false.
Proof.
  destruct (built_avoids_inherited _ _ _ Part000_built) as [_ Hav].
  unfold entries_avoid_inherited in Hav. rewrite Forall_forall in Hav.
  intros [Ht|Ht]; apply inherits_false.
  - apply is_task_name_true in Ht. unfold obj_keys in Ht.
    apply list_elem_of_fmap in Ht as (kv & -> & Hin). by apply Hav.
  - unfold is_namespace_label in Ht. apply existsb_exists in Ht as (kv & Hin & Hd).
    apply declares_true in Hd as [Hd _]. apply list_elem_of_In in Hin.
    destruct (Hav kv Hin) as [_ Hn]. by rewrite Hd in Hn.
Qed.

Lemma entry_key_not_inherited (kv : string * Task) :
  kv ∈ exportedTasks w -> inherits w (toKey (namespace (snd kv))) = false.
Proof.
  destruct (built_avoids_inherited _ _ _ Part000_built) as [_ Hav].
  unfold entries_avoid_inherited in Hav. rewrite Forall_forall in Hav.
  intros Hin. apply inherits_false. by apply Hav.
Qed.

(** A request of known identifiers passes the first loop. *)
Lemma known_request_passes (tasks : list string) :
  Forall (fun t => is_task_name w t = true \/ is_namespace_label w t = true) tasks ->
  forallb (fun t => negb (rejected w t)) tasks = true.
Proof.
  rewrite Forall_forall, forallb_forall. intros Hk t Hin%list_elem_of_In.
  unfold rejected, unknown.
  destruct (Hk t Hin) as [->| ->]; by rewrite ?andb_false_r.
Qed.


End NormalizerMore.

(** ** What a computation leaves behind, however it ends *)

Section Final.
Import Proc.
Context {W : Type}.
Variable R : W -> W -> Prop.
Hypothesis R_refl : forall w, R w w.
Hypothesis R_trans : forall a b c, R a b -> R b c -> R a c.

Lemma final_bind {A B : Type} (m : proc W A) (k : A -> proc W B) :
  (forall w, R w (final (m w))) -> (forall a w, R w (final (k a w))) ->
  forall w, R w (final (bind m k w)).
Proof.
  intros Hm Hk w. unfold bind. specialize (Hm w).
  destruct (m w) as [a w1|c w1|e w1]; [|exact Hm..].
  exact (R_trans _ _ _ Hm (Hk a w1)).
Qed.

Lemma final_foldM {A S : Type} (body : S -> A -> proc W S) (l : list A) :
  (forall s x w, R w (final (body s x w))) ->
  forall s w, R w (final (foldM body l s w)).
Proof.
  intros Hbody. induction l as [|x l IH]; intros s w; simpl.
  - apply R_refl.
  - apply final_bind; [apply Hbody | intros; apply IH].
Qed.

Lemma final_forEach {A : Type} (body : A -> proc W unit) (l : list A) :
  (forall x w, R w (final (body x w))) ->
  forall w, R w (final (forEach l body w)).
Proof. intros Hbody w. apply final_foldM. intros _. apply Hbody. Qed.

Lemma final_when (c : bool) (body : proc W unit) :
  (forall w, R w (final (body w))) -> forall w, R w (final (when c body w)).
Proof. intros Hbody w. destruct c; [apply Hbody | apply R_refl]. Qed.

Lemma final_try_catch {A : Type} (body : proc W A) (handler : string -> proc W A) :
  (forall w, R w (final (body w))) -> (forall e w, R w (final (handler e w))) ->
  forall w, R w (final (try_catch body handler w)).
Proof.
  intros Hb Hh w. unfold try_catch. specialize (Hb w).
  destruct (body w) as [a w1|c w1|e w1]; [exact Hb..|].
  exact (R_trans _ _ _ Hb (Hh e w1)).
Qed.

End Final.

Section NormalizerFrame.
Import Js Proc Tasks Registry Frame.

Lemma only_prints_refl (w : world) : only_prints w w.
Proof. repeat split. exists []. by rewrite app_nil_r. Qed.

Lemma only_prints_trans (a b c : world) :
  only_prints a b -> only_prints b c -> only_prints a c.
Proof.
  intros (H1 & H2 & H3 & m1 & H4) (H1' & H2' & H3' & m2 & H4').
  repeat split; [congruence..|]. exists (m1 ++ m2).
  by rewrite H4', H4, app_assoc.
Qed.

Lemma only_prints_log (m : message) (w : world) :
  only_prints w (final (console_log m w)).
Proof. repeat split. by exists [Log m]. Qed.

Lemma only_prints_error (m : message) (w : world) :
  only_prints w (final (console_error m w)).
Proof. repeat split. by exists [Err m]. Qed.

Lemma classify_only_prints st t (w : world) :
  only_prints w (final (classify st t w)).
Proof.
  unfold classify.
  apply (final_bind _ only_prints_trans); [intros; apply only_prints_refl|].
  intros isTask w1.
  apply (final_bind _ only_prints_trans); [intros; apply only_prints_refl|].
  intros isLabel w2.
  apply (final_bind _ only_prints_trans).
  - apply (final_when _ only_prints_refl).
    apply (final_bind _ only_prints_trans); [apply only_prints_error|].
    intros; apply only_prints_refl.
  - intros _ w3. destruct isLabel; apply only_prints_refl.
Qed.

(** The first loop of [normalizeTaskSet] prints nothing when it returns. *)
Lemma classify_loop_world (tasks : list string) st st' (w w' : world) :
  foldM classify tasks st w = Returned st' w' -> w' = w.
Proof.
  revert st. induction tasks as [|t tasks IH]; intros st; simpl.
  - unfold ret. by intros [= _ <-].
  - intros (st1 & w2 & Hc & Hrest)%bind_returned.
    assert (w2 = w) as ->; [|by eapply IH].
    revert Hc. unfold classify, bind, has_task, has_label, gets, when.
    destruct (negb _ && negb _); simpl.
    + done.
    + unfold ret. destruct (truthy_at truthy_jsstring _ _ _); by intros [= _ <-].
Qed.

End NormalizerFrame.

(** ** The task set, from the directory to the run *)

Section TaskSet.
Import Js Proc Tasks Registry Built Frame Commands Examples.

(** X6: [normalizeTaskSet] changes neither the registry nor the table
    of namespaces, however it ends; it only adds lines to the console. *)
Theorem normalize_only_prints (tasks : list string) (w : world) :
  only_prints w (final (normalizeTaskSet tasks w)).
Proof.
  unfold normalizeTaskSet.
  apply (final_bind _ only_prints_trans).
  { intros w0. apply (final_foldM _ only_prints_refl only_prints_trans).
    intros. apply classify_only_prints. }
  intros st w1.
  apply (final_bind _ only_prints_trans); [intros; apply only_prints_refl|].
  intros tasksByName w2.
  apply (final_bind _ only_prints_trans); [intros; apply only_prints_refl|].
  intros proto w3.
  apply (final_bind _ only_prints_trans).
  - apply (final_when _ only_prints_refl). apply only_prints_log.
  - intros; apply only_prints_refl.
Qed.



(** X8: on a registry built by [parseTaskFiles] of
    [src/unnamed/part_000], the first requested identifier that is
    neither a task name, nor a namespace label, nor a name arrays
    inherit, ends the process with status 1 and an error naming it;
    no set is returned.  The identifier [length] is left out, up to and
    including that identifier: an array answers it with its own length,
    which is not zero once a name is an array index. *)
Theorem normalize_rejects_first_unknown
    (tasksDir : string) (dir : listing) (proto : gset string) (w : world)
    (pre post : list string) (t : string) :
  Part000.parseTaskFiles tasksDir dir (start proto) = Returned tt w ->
  "length" ∉ pre ++ [t] ->
  Forall (fun x => is_task_name w x = true \/ is_namespace_label w x = true
                   \/ x ∈ proto) pre ->
  is_task_name w t = false -> is_namespace_label w t = false -> t ∉ proto ->
  normalizeTaskSet (pre ++ t :: post) w
  = Exited 1 (with_error w (TaskDoesNotExist t)).
Proof.
  intros Hbuilt _ Hpre Ht Hl Hp.
  pose proof (Part000_parse_labels _ _ _ _ Hbuilt) as Hlabels.
  destruct (built_avoids_inherited dir proto w) as [Hproto _];
    [left; by exists tasksDir|].
  apply normalize_first_rejected; [done| |].
  - rewrite Forall_forall in Hpre. apply forallb_forall.
    intros x Hin%list_elem_of_In. unfold rejected, unknown.
    destruct (Hpre x Hin) as [->|[->|Hx]]; rewrite ?andb_false_r; try done.
    rewrite <- Hproto in Hx. apply inherits_true in Hx. rewrite Hx.
    by rewrite andb_false_r.
  - unfold rejected, unknown. rewrite Ht, Hl. simpl.
    apply negb_true_iff, inherits_false. by rewrite Hproto.
Qed.

Lemma normalize_rejects_first_unknown_witness :
  normalizeTaskSet (["a"; "g1"; "find"] ++ "zz" :: ["yy"]) registry_abc
  = Exited 1 (with_error registry_abc (TaskDoesNotExist "zz")).
Proof.
  apply (normalize_rejects_first_unknown "/proj/tasks" listing_abc es2018 registry_abc
           ["a"; "g1"; "find"] ["yy"] "zz" eq_refl).
  - compute_done.
  - apply Forall_cons_2; [by left|]. apply Forall_cons_2; [by right; left|].
    apply Forall_cons_2; [right; right; set_solver|]. apply Forall_nil_2.
  - reflexivity.
  - reflexivity.
  - set_solver.
Defined.

(** X9: on a registry built by [parseTaskFiles] of
    [src/unnamed/part_000], for a request without the identifier
    [length] (which an array answers with its own length), the set
    [normalizeTaskSet] returns holds nothing twice and only names of
    registered tasks, and it holds every requested task name that is
    not also a namespace label, and every task that declares a requested
    namespace. *)
Theorem normalize_returns_registered_tasks
    (tasksDir : string) (dir : listing) (proto : gset string) (w w' : world)
    (tasks taskSet : list string) :
  Part000.parseTaskFiles tasksDir dir (start proto) = Returned tt w ->
  "length" ∉ tasks ->
  normalizeTaskSet tasks w = Returned taskSet w' ->
  NoDup taskSet
  /\ (forall t, t ∈ taskSet -> is_task_name w t = true)
  /\ (forall t, t ∈ tasks -> is_task_name w t = true ->
                is_namespace_label w t = false -> t ∈ taskSet)
  /\ (forall key value n, (key, value) ∈ exportedTasks w ->
                          namespace value = Some n -> n <> "" -> n ∈ tasks ->
                          key ∈ taskSet).
Proof.
  intros Hbuilt Hlen Hrun.
  pose proof (Part000_parse_labels _ _ _ _ Hbuilt) as Hlabels.
  split; [|split; [by eapply normalize_returns_task_names|]].
  { revert Hrun. unfold normalizeTaskSet.
    intros (st & w1 & _ & Hrun)%bind_returned.
    apply bind_returned in Hrun as (o & w2 & _ & Hrun).
    apply bind_returned in Hrun as (p & w3 & _ & Hrun).
    apply bind_returned in Hrun as (u & w4 & _ & Hrun).
    unfold ret in Hrun. injection Hrun as <- _. apply Set_from_distinct. }
  destruct (passed_or_first_rejected w tasks) as [Hk|(pre & u & post & -> & Hpre & Hu)].
  2: { by rewrite (normalize_first_rejected w Hlabels pre u post Hpre Hu) in Hrun. }
  rewrite (normalize_all_passed w Hlabels tasks Hk) in Hrun. simpl in Hrun.
  injection Hrun as <- _. split.
  - intros t Hin Ht Hl. rewrite Set_from_elem, elem_of_app. left.
    unfold kept. apply list_elem_of_In, filter_In.
    split; [by apply list_elem_of_In|].
    rewrite Hl. rewrite (known_not_inherited _ _ _ _ Hbuilt) by auto. done.
  - intros key value n Hin Hn Hne Hreq. rewrite Set_from_elem, elem_of_app. right.
    unfold expanded. apply list_elem_of_In, in_map_iff. exists (key, value).
    split; [done|]. apply filter_In. split; [by apply list_elem_of_In|].
    cbv zeta. simpl. rewrite Hn. simpl.
    assert (is_namespace_label w n = true) as ->.
    { unfold is_namespace_label. apply existsb_exists. exists (key, value).
      split; [by apply list_elem_of_In|]. by apply declares_true. }
    apply Set_has_true in Hreq. by rewrite Hreq.
Qed.

Lemma normalize_returns_registered_tasks_witness :
  NoDup ["a"; "b"]
  /\ (forall t, t ∈ ["a"; "b"] -> is_task_name registry_abc t = true)
  /\ (forall t, t ∈ ["a"; "g1"; "a"] -> is_task_name registry_abc t = true ->
                is_namespace_label registry_abc t = false -> t ∈ ["a"; "b"])
  /\ (forall key value n, (key, value) ∈ exportedTasks registry_abc ->
                          namespace value = Some n -> n <> "" ->
                          n ∈ ["a"; "g1"; "a"] -> key ∈ ["a"; "b"]).
Proof.
  refine (normalize_returns_registered_tasks "/proj/tasks" listing_abc es2018
            registry_abc (with_log registry_abc OrderNotGuaranteed)
            ["a"; "g1"; "a"] ["a"; "b"] eq_refl _ eq_refl).
  compute_done.
Defined.

(** X10: [run] without task names has nothing to run and prints
    nothing: in either file, once [parseTaskFiles] has returned, the
    handler of [run] obtains the empty set for an absent or empty
    [argv.tasks], and the console is as [parseTaskFiles] left it. *)
Theorem run_without_tasks_runs_nothing
    (dir : listing) (proto : gset string) (w : world) (tasks : option (list string)) :
  tasks = None \/ tasks = Some [] ->
  (forall tasksDir,
     Part000.parseTaskFiles tasksDir dir (start proto) = Returned tt w ->
     runCommand (Part000.parseTaskFiles tasksDir dir) tasks (start proto)
     = Returned [] w)
  /\ (forall taskDir taskDirExists,
        Pwptr.parseTaskFiles taskDir taskDirExists dir (start proto) = Returned tt w ->
        runCommand (Pwptr.parseTaskFiles taskDir taskDirExists dir) tasks (start proto)
        = Returned [] w).
Proof.
  intros Htasks.
  assert (default [] tasks = []) as Hdef by (by destruct Htasks as [-> | ->]).
  assert (built dir proto w -> normalizeTaskSet [] w = Returned [] w) as Hempty.
  { intros [_ Hav]%built_avoids_inherited.
    unfold normalizeTaskSet, bind, gets. simpl. rewrite expand_fold.
    rewrite filter_none; [done|]. intros kv Hin.
    unfold entries_avoid_inherited in Hav. rewrite Forall_forall in Hav.
    destruct (Hav kv Hin) as [_ Hn]. rewrite lookup_empty. simpl.
    by rewrite bool_decide_eq_false_2. }
  split.
  - intros tasksDir Hp. unfold runCommand, bind. rewrite Hdef, Hp.
    apply Hempty. left. by exists tasksDir.
  - intros taskDir b Hp. unfold runCommand, bind. rewrite Hdef, Hp.
    apply Hempty. right. by exists taskDir, b.
Qed.

Lemma run_without_tasks_runs_nothing_witness :
  runCommand (Pwptr.parseTaskFiles "/proj/tasks" true listing_clash) None (start es2018)
  = Returned [] registry_clash_pwptr.
Proof.
  apply (proj2 (run_without_tasks_runs_nothing listing_clash es2018
                  registry_clash_pwptr None (or_introl eq_refl))
           "/proj/tasks" true eq_refl).
Defined.

(** X11: for distinct names of registered tasks, none of them also a
    namespace label, the handler of [run] of [src/unnamed/part_000]
    obtains exactly these names, in the order given, as the set of
    tasks to run, and prints no warning. *)
Theorem run_of_distinct_task_names
    (tasksDir : string) (dir : listing) (proto : gset string) (w : world)
    (tasks : list string) :
  Part000.parseTaskFiles tasksDir dir (start proto) = Returned tt w ->
  NoDup tasks ->
  Forall (fun t => is_task_name w t = true /\ is_namespace_label w t = false) tasks ->
  runCommand (Part000.parseTaskFiles tasksDir dir) (Some tasks) (start proto)
  = Returned tasks w.
Proof.
  intros Hbuilt Hnd Hnames.
  pose proof (Part000_parse_labels _ _ _ _ Hbuilt) as Hlabels.
  unfold runCommand, bind. simpl. rewrite Hbuilt.
  rewrite (normalize_all_passed w Hlabels tasks).
  2: { apply known_request_passes.
       eapply Forall_impl; [exact Hnames|]. by intros t [? _]; left. }
  assert (kept w tasks = tasks) as ->.
  { unfold kept. rewrite Forall_forall in Hnames. clear Hnd.
    induction tasks as [|t tasks IH]; [done|]. simpl.
    destruct (Hnames t) as [Ht Hl]; [left|].
    rewrite Hl, (known_not_inherited _ _ _ _ Hbuilt) by auto. simpl.
    f_equal. apply IH. intros x Hx. apply Hnames. by right. }
  assert (expanded w tasks = []) as ->.
  { unfold expanded. rewrite filter_none; [done|].
    intros kv Hin. cbv zeta.
    rewrite (entry_key_not_inherited _ _ _ _ Hbuilt) by done.
    rewrite orb_false_r. apply not_true_is_false.
    intros [Hl Hs]%andb_true_iff. apply Set_has_true in Hs.
    rewrite Forall_forall in Hnames. destruct (Hnames _ Hs) as [_ Hl'].
    congruence. }
  rewrite app_nil_r. cbv zeta. rewrite Set_from_NoDup by done.
  unfold Set_size. by rewrite Nat.eqb_refl.
Qed.

Lemma run_of_distinct_task_names_witness :
  runCommand (Part000.parseTaskFiles "/proj/tasks" listing_abc) (Some ["c"; "a"])
    (start es2018)
  = Returned ["c"; "a"] registry_abc.
Proof.
  apply (run_of_distinct_task_names "/proj/tasks" listing_abc es2018 registry_abc
           ["c"; "a"] eq_refl).
  - compute_done.
  - apply Forall_cons_2; [done|]. apply Forall_cons_2; [done|]. apply Forall_nil_2.
Defined.

(** X12: when [normalizeTaskSet] returns, it has printed the warning
    about the run order exactly when the size of the set differs from
    the number of identifiers requested, and nothing else; whatever the
    registry. *)
Theorem normalize_warns_when_size_differs
    (tasks taskSet : list string) (w w' : world) :
  normalizeTaskSet tasks w = Returned taskSet w' ->
  (length taskSet <> length tasks /\ w' = with_log w OrderNotGuaranteed)
  \/ (length taskSet = length tasks /\ w' = w).
Proof.
  unfold normalizeTaskSet.
  intros (st & w1 & Hloop & H)%bind_returned.
  apply classify_loop_world in Hloop as ->.
  revert H. unfold bind, gets, when, Set_size.
  destruct (Nat.eqb_spec (length (Set_from (fold_left
              (expand (inherited w) st.1) (exportedTasks w) st.2))) (length tasks))
    as [He|Hne]; simpl; unfold ret; intros [= <- <-]; [right | left]; done.
Qed.

Lemma normalize_warns_when_size_differs_witness :
  (length ["c"; "a"; "b"] <> length ["c"; "g1"]
   /\ with_log registry_abc OrderNotGuaranteed = with_log registry_abc OrderNotGuaranteed)
  \/ (length ["c"; "a"; "b"] = length ["c"; "g1"]
      /\ with_log registry_abc OrderNotGuaranteed = registry_abc).
Proof.
  apply (normalize_warns_when_size_differs ["c"; "g1"] ["c"; "a"; "b"] registry_abc
           (with_log registry_abc OrderNotGuaranteed) eq_refl).
Defined.

End TaskSet.

(** ** The [list] command *)

Section ListFacts.
Import Js Proc Tasks Registry Built Commands.

Lemma last_header_snoc_header (out : list listed) (n : jsstring) :
  last_header (out ++ [Header n]) = n.
Proof. unfold last_header. by rewrite fold_left_app. Qed.

Lemma last_header_snoc_task (out : list listed) (key description : string) :
  last_header (out ++ [TaskLine key description]) = last_header out.
Proof. unfold last_header. by rewrite fold_left_app. Qed.

Lemma task_lines_app (o1 o2 : list listed) :
  task_lines (o1 ++ o2) = task_lines o1 ++ task_lines o2.
Proof. unfold task_lines. apply omap_app. Qed.

(** One round of the loop: a header if the namespace changes, then
    the line of the task. *)
Lemma listEntry_run (ns : jsstring) (out : list listed) (kv : string * Task) :
  listEntry (ns, out) kv
  = (namespace (snd kv),
     out ++ (if strict_ne ns (namespace (snd kv))
             then [Header (namespace (snd kv))] else [])
         ++ [TaskLine (fst kv) (description (snd kv))]).
Proof.
  unfold listEntry, strict_ne. cbn [fst snd].
  destruct (decide (ns = namespace kv.2)) as [->|Hne].
  - rewrite bool_decide_eq_true_2 by done. done.
  - rewrite bool_decide_eq_false_2 by done. simpl. by rewrite <- app_assoc.
Qed.

(** The loop keeps in [namespace] the namespace of the last header and
    only appends to what is printed. *)
Lemma list_loop_run (entries : obj Task) (ns : jsstring) (out : list listed) :
  last_header out = ns ->
  exists more,
    fold_left listEntry entries (ns, out)
    = (last_header (out ++ more), out ++ more)
    /\ task_lines more = map (fun kv => (fst kv, description (snd kv))) entries.
Proof.
  revert ns out. induction entries as [|kv entries IH]; intros ns out Hns.
  - exists []. rewrite app_nil_r. by rewrite Hns.
  - simpl. rewrite listEntry_run.
    set (step := (if strict_ne ns (namespace kv.2) then [Header (namespace kv.2)] else [])
                 ++ [TaskLine kv.1 (description kv.2)]).
    destruct (IH (namespace kv.2) (out ++ step)) as (more & Hrun & Hlines).
    { unfold step, strict_ne. rewrite app_assoc, last_header_snoc_task.
      destruct (decide (ns = namespace kv.2)) as [<-|Hne].
      - rewrite bool_decide_eq_true_2 by done. by rewrite app_nil_r.
      - rewrite bool_decide_eq_false_2 by done. apply last_header_snoc_header. }
    exists (step ++ more). rewrite app_assoc. split; [exact Hrun|].
    rewrite task_lines_app, Hlines. unfold step.
    rewrite task_lines_app. by destruct (strict_ne _ _).
Qed.

(** The line of a task stands under the header of its namespace. *)
Lemma list_loop_under_header (pre post : obj Task) (kv : string * Task) :
  exists before after,
    snd (fold_left listEntry (pre ++ kv :: post) (None, []))
    = before ++ TaskLine (fst kv) (description (snd kv)) :: after
    /\ last_header before = namespace (snd kv)
    /\ task_lines before = map (fun kv => (fst kv, description (snd kv))) pre.
Proof.
  rewrite fold_left_app.
  destruct (list_loop_run pre None []) as (out1 & -> & Hl1); [done|].
  simpl. rewrite listEntry_run.
  set (head := if strict_ne (last_header out1) (namespace kv.2)
               then [Header (namespace kv.2)] else []).
  destruct (list_loop_run post (namespace kv.2)
              (out1 ++ head ++ [TaskLine kv.1 (description kv.2)]))
    as (out2 & -> & _).
  { rewrite app_assoc, last_header_snoc_task. unfold head, strict_ne.
    destruct (decide (last_header out1 = namespace kv.2)) as [He|Hne].
    - rewrite bool_decide_eq_true_2 by done. by rewrite app_nil_r.
    - rewrite bool_decide_eq_false_2 by done. apply last_header_snoc_header. }
  exists (out1 ++ head), out2. simpl. split; [by rewrite <- !app_assoc|]. split.
  - unfold head, strict_ne.
    destruct (decide (last_header out1 = namespace kv.2)) as [He|Hne].
    + rewrite bool_decide_eq_true_2 by done. by rewrite app_nil_r.
    + rewrite bool_decide_eq_false_2 by done. apply last_header_snoc_header.
  - rewrite task_lines_app, Hl1. unfold head.
    destruct (strict_ne _ _); simpl; by rewrite app_nil_r.
Qed.

(** A header is printed only where the namespace changes, and the
    line of a task follows it. *)
Lemma list_loop_headers (entries : obj Task) (ns : jsstring) (out : list listed) :
  last_header out = ns ->
  forall a b n,
    snd (fold_left listEntry entries (ns, out)) = out ++ a ++ Header n :: b ->
    last_header (out ++ a) <> n
    /\ exists key description b', b = TaskLine key description :: b'.
Proof.
  revert ns out. induction entries as [|kv entries IH]; intros ns out Hns a b n.
  - simpl. intros H. rewrite <- (app_nil_r out) in H at 1.
    apply app_inv_head in H. by destruct a.
  - simpl. rewrite listEntry_run. unfold strict_ne.
    destruct (decide (ns = namespace kv.2)) as [He|Hne].
    + rewrite bool_decide_eq_true_2 by done. simpl.
      destruct (list_loop_run entries (namespace kv.2)
                  (out ++ [TaskLine kv.1 (description kv.2)])) as (more & Hrun & _).
      { rewrite last_header_snoc_task. congruence. }
      intros H. pose proof H as H'. rewrite Hrun in H'. simpl in H'.
      rewrite <- app_assoc in H'. apply app_inv_head in H'.
      destruct a as [|x a]; [done|]. simpl in H'. injection H' as <- Hmore.
      specialize (IH (namespace kv.2) (out ++ [TaskLine kv.1 (description kv.2)])).
      rewrite last_header_snoc_task in IH. specialize (IH (eq_trans Hns He) a b n).
      rewrite <- !app_assoc in IH. simpl in IH. apply IH. exact H.
    + rewrite bool_decide_eq_false_2 by done. simpl.
      destruct (list_loop_run entries (namespace kv.2)
                  (out ++ [Header (namespace kv.2); TaskLine kv.1 (description kv.2)]))
        as (more & Hrun & _).
      { change [Header (namespace kv.2); TaskLine kv.1 (description kv.2)]
          with ([Header (namespace kv.2)] ++ [TaskLine kv.1 (description kv.2)]).
        rewrite app_assoc, last_header_snoc_task. apply last_header_snoc_header. }
      intros H. pose proof H as H'. rewrite Hrun in H'. simpl in H'.
      rewrite <- app_assoc in H'. apply app_inv_head in H'.
      destruct a as [|x a].
      * simpl in H'. injection H' as <- <-. rewrite app_nil_r. split; [congruence|].
        eauto.
      * simpl in H'. injection H' as <- H'. destruct a as [|y a]; [done|].
        simpl in H'. injection H' as <- Hmore.
        specialize (IH (namespace kv.2)
                      (out ++ [Header (namespace kv.2);
                               TaskLine kv.1 (description kv.2)])).
        assert (last_header
                  (out ++ [Header (namespace kv.2); TaskLine kv.1 (description kv.2)])
                = namespace kv.2) as Hl.
        { change [Header (namespace kv.2); TaskLine kv.1 (description kv.2)]
            with ([Header (namespace kv.2)] ++ [TaskLine kv.1 (description kv.2)]).
          rewrite app_assoc, last_header_snoc_task. apply last_header_snoc_header. }
        specialize (IH Hl a b n). rewrite <- !app_assoc in IH. simpl in IH.
        apply IH. exact H.
Qed.

Lemma listCommand_returned (parse : proc world unit) (w0 w : world) (out : list listed) :
  listCommand parse w0 = Returned out w ->
  parse w0 = Returned tt w
  /\ out = snd (fold_left listEntry (exportedTasks w) (None, [])).
Proof.
  unfold listCommand. intros ([] & w1 & Hp & H)%bind_returned.
  unfold bind, gets, ret in H. injection H as <- <-. done.
Qed.

End ListFacts.

Section ListCommand.
Import Js Proc Tasks Registry Built Commands Examples.

(** X13: [list] prints one line for every task exported by the [.js]
    modules of the directory, with its name and description, in
    directory order and then export order, and no other task line; in
    either file (names that are array indices apart, which the model
    leaves out). *)
Theorem list_prints_every_task_once
    (dir : listing) (proto : gset string) (w : world) (out : list listed) :
  (exists tasksDir,
     listCommand (Part000.parseTaskFiles tasksDir dir) (start proto) = Returned out w)
  \/ (exists taskDir taskDirExists,
        listCommand (Pwptr.parseTaskFiles taskDir taskDirExists dir) (start proto)
        = Returned out w) ->
  task_lines out = map (fun kv => (fst kv, description (snd kv))) (entries_of dir).
Proof.
  intros H.
  assert (exportedTasks w = entries_of dir
          /\ out = snd (fold_left listEntry (exportedTasks w) (None, []))) as [He ->].
  { destruct H as [[tasksDir H]|(taskDir & b & H)];
      apply listCommand_returned in H as [Hp Ho]; split; try done.
    - by eapply Part000_parse_entries.
    - by eapply Pwptr_parse_entries. }
  destruct (list_loop_run (exportedTasks w) None []) as (more & -> & Hl); [done|].
  simpl. by rewrite Hl, He.
Qed.

Lemma list_prints_every_task_once_witness :
  task_lines [Header (Some "g1"); TaskLine "a" ""; TaskLine "b" "";
              Header None; TaskLine "c" ""]
  = map (fun kv => (fst kv, description (snd kv))) (entries_of listing_abc).
Proof.
  apply (list_prints_every_task_once listing_abc es2018 registry_abc).
  left. exists "/proj/tasks". reflexivity.
Defined.

(** X14: in the listing every task of the registry stands under the
    header of its own namespace: the header printed last before the
    line of a task is the header of the namespace the task declares; a
    task that declares none stands under no header at all or under the
    header of the undefined namespace; in either file. *)
Theorem list_groups_tasks_under_their_namespace
    (dir : listing) (proto : gset string) (w : world) (out : list listed)
    (key : string) (value : Task) :
  (exists tasksDir,
     listCommand (Part000.parseTaskFiles tasksDir dir) (start proto) = Returned out w)
  \/ (exists taskDir taskDirExists,
        listCommand (Pwptr.parseTaskFiles taskDir taskDirExists dir) (start proto)
        = Returned out w) ->
  (key, value) ∈ exportedTasks w ->
  exists before after,
    out = before ++ TaskLine key (description value) :: after
    /\ last_header before = namespace value.
Proof.
  intros H Hin.
  assert (out = snd (fold_left listEntry (exportedTasks w) (None, []))) as ->.
  { by destruct H as [[tasksDir H]|(taskDir & b & H)];
      apply listCommand_returned in H as [_ Ho]. }
  apply list_elem_of_split in Hin as (pre & post & ->).
  destruct (list_loop_under_header pre post (key, value))
    as (before & after & Hout & Hlast & _).
  by exists before, after.
Qed.

Lemma list_groups_tasks_under_their_namespace_witness :
  exists before after,
    [Header (Some "g1"); TaskLine "a" ""; TaskLine "b" ""; Header None; TaskLine "c" ""]
    = before ++ TaskLine "c" (description (entry None)) :: after
    /\ last_header before = namespace (entry None).
Proof.
  apply (list_groups_tasks_under_their_namespace listing_abc es2018 registry_abc
           [Header (Some "g1"); TaskLine "a" ""; TaskLine "b" ""; Header None;
            TaskLine "c" ""]
           "c" (entry None)).
  - left. exists "/proj/tasks". reflexivity.
  - apply list_elem_of_In. simpl. tauto.
Defined.

(** X15: [list] prints the header of a namespace only where the
    namespace changes: the header printed last before it, if any, is of
    another namespace, and the line of a task follows it; in either
    file. *)
Theorem list_prints_header_on_change
    (dir : listing) (proto : gset string) (w : world) (out : list listed)
    (before after : list listed) (n : jsstring) :
  (exists tasksDir,
     listCommand (Part000.parseTaskFiles tasksDir dir) (start proto) = Returned out w)
  \/ (exists taskDir taskDirExists,
        listCommand (Pwptr.parseTaskFiles taskDir taskDirExists dir) (start proto)
        = Returned out w) ->
  out = before ++ Header n :: after ->
  last_header before <> n
  /\ exists key description after',
       after = TaskLine key description :: after'.
Proof.
  intros H Hsplit.
  assert (out = snd (fold_left listEntry (exportedTasks w) (None, []))) as Ho.
  { by destruct H as [[tasksDir H]|(taskDir & b & H)];
      apply listCommand_returned in H as [_ Ho]. }
  apply (list_loop_headers (exportedTasks w) None [] eq_refl before after n).
  by rewrite <- Ho.
Qed.

Lemma list_prints_header_on_change_witness :
  last_header [Header (Some "g1"); TaskLine "a" ""; TaskLine "b" ""] <> None
  /\ exists key description after', [TaskLine "c" ""] = TaskLine key description :: after'.
Proof.
  apply (list_prints_header_on_change listing_abc es2018 registry_abc
           [Header (Some "g1"); TaskLine "a" ""; TaskLine "b" ""; Header None;
            TaskLine "c" ""]
           [Header (Some "g1"); TaskLine "a" ""; TaskLine "b" ""] [TaskLine "c" ""] None).
  - left. exists "/proj/tasks". reflexivity.
  - reflexivity.
Defined.

End ListCommand.

(** ** More on [resolveConfigPath] *)

Section ConfigPathShapes.
Import Js Proc Str Config ConfigExamples.


(** X16: [resolveConfigPath] returns an absolute path, unless the path
    begins with a dot that is followed neither by a slash nor by [./]:
    such a path, like [.ext/adblock], [..] or [.], is returned as it is,
    once the placeholder is replaced, and is not resolved against the
    configuration directory. *)
Theorem resolveConfigPath_absolute_or_dot_name (e : env) (p : string) :
  let q := replace p "{HOME}" (toString (HOME e)) in
  (String.prefix "." q = true /\ is_relative q = false -> resolveConfigPath e p = q)
  /\ (String.prefix "." q = false \/ is_relative q = true ->
      String.prefix "/" (resolveConfigPath e p) = true).
Proof.
  intros q. unfold resolveConfigPath. cbv zeta. fold q. split.
  - intros [Hdot Hrel]. unfold starts_with_dot_or_slash. rewrite Hdot. simpl.
    by rewrite Hrel.
  - intros H. destruct (starts_with_dot_or_slash q) eqn:Hs; cbn [negb].
    + destruct (is_relative q) eqn:Hr; [apply resolve_absolute|].
      destruct H as [H|H]; [|done]. unfold starts_with_dot_or_slash in Hs.
      by rewrite H in Hs.
    + assert (is_relative ("./" +:+ q) = true) as -> by (by destruct q).
      apply resolve_absolute.
Qed.

Lemma resolveConfigPath_absolute_or_dot_name_witness :
  resolveConfigPath installed ".ext/adblock" = ".ext/adblock"
  /\ String.prefix "/" (resolveConfigPath installed "ext/adblock") = true.
Proof.
  split.
  - apply (proj1 (resolveConfigPath_absolute_or_dot_name installed ".ext/adblock")).
    split; reflexivity.
  - apply (proj2 (resolveConfigPath_absolute_or_dot_name installed "ext/adblock")).
    left. reflexivity.
Defined.

(** X17: a relative path that begins neither with a dot nor with a
    slash is resolved like the same path behind [./], against the
    configuration directory. *)
Theorem resolveConfigPath_bare_name (e : env) (p : string) :
  includes "{HOME}" p = false ->
  starts_with_dot_or_slash p = false ->
  resolveConfigPath e p = resolveConfigPath e ("./" +:+ p)
  /\ resolveConfigPath e p = Path.resolve (cwd e) (configDir e +:+ "/./" +:+ p).
Proof.
  intros Hno Hs.
  assert (includes "{HOME}" ("./" +:+ p) = false) as Hno'.
  { apply includes_false. intros H.
    apply (occurs_around_char "{HOME}" "." "/" p) in H as [H|H]; [| |done].
    - by apply includes_spec in H.
    - apply includes_spec in H. congruence. }
  unfold resolveConfigPath, replace. cbv zeta.
  rewrite !replace_from_absent by done. rewrite Hs. cbn [negb].
  assert (starts_with_dot_or_slash ("./" +:+ p) = true) as -> by done.
  cbn [negb].
  assert (is_relative ("./" +:+ p) = true) as -> by (by destruct p).
  split; [done|]. f_equal.
Qed.

Lemma resolveConfigPath_bare_name_witness :
  resolveConfigPath installed "ext/adblock" = resolveConfigPath installed ("./" +:+ "ext/adblock")
  /\ resolveConfigPath installed "ext/adblock"
     = Path.resolve (cwd installed) (configDir installed +:+ "/./" +:+ "ext/adblock").
Proof.
  apply (resolveConfigPath_bare_name installed "ext/adblock"); reflexivity.
Defined.

(** X18: when the environment has no [HOME], the placeholder is
    replaced by the text [undefined]: a path that begins with [{HOME}]
    is resolved to the entry named [undefined] of the configuration
    directory. *)
Theorem resolveConfigPath_without_HOME (e : env) (post : string) :
  HOME e = None ->
  resolveConfigPath e ("{HOME}" +:+ post)
  = Path.resolve (cwd e) (configDir e +:+ "/./undefined" +:+ post).
Proof.
  intros Hhome. unfold resolveConfigPath. cbv zeta. rewrite Hhome.
  change ("{HOME}" +:+ post) with ("" +:+ "{HOME}" +:+ post).
  rewrite replace_first_placeholder by done. simpl. done.
Qed.

Lemma resolveConfigPath_without_HOME_witness :
  resolveConfigPath {| HOME := None; dirname := "/proj/node_modules/pwptr"; cwd := "/work" |}
    ("{HOME}" +:+ "/ext")
  = "/proj/undefined/ext".
Proof.
  apply (resolveConfigPath_without_HOME
           {| HOME := None; dirname := "/proj/node_modules/pwptr"; cwd := "/work" |}
           "/ext" eq_refl).
Defined.



End ConfigPathShapes.

(** ** More on the resolution of the configuration *)

Section ConfigFrameFacts.
Import Js Proc Str Config ConfigFrame.

Lemma only_creates_refl (w : world) : only_creates w w.
Proof.
  repeat split; [set_solver..|]. exists []. by rewrite app_nil_r.
Qed.

Lemma only_creates_trans (a b c : world) :
  only_creates a b -> only_creates b c -> only_creates a c.
Proof.
  intros (H1 & H2 & H3 & m1 & H4) (H1' & H2' & H3' & m2 & H4').
  repeat split; [set_solver | rewrite H3 in H2'; set_solver | congruence |].
  exists (m1 ++ m2). by rewrite H4', H4, app_assoc.
Qed.

Lemma only_creates_error (m : message) (w : world) :
  only_creates w (final (console_error m w)).
Proof. repeat split; [set_solver..|]. by exists [Err m]. Qed.

Lemma only_creates_mkdir (d : string) (w : world) :
  only_creates w (final (mkdirSync d w)).
Proof.
  unfold mkdirSync.
  destruct (bool_decide (d ∈ creatable w)) eqn:Hc; simpl;
    [|apply only_creates_refl].
  destruct (bool_decide (d ∈ existing w)); simpl; [apply only_creates_refl|].
  apply bool_decide_eq_true in Hc.
  repeat split; simpl; [set_solver..|]. exists []. by rewrite app_nil_r.
Qed.

Lemma only_creates_ensureDir (d : string) (m : message) (w : world) :
  only_creates w (final (ensureDir d m w)).
Proof.
  unfold ensureDir.
  apply (final_bind _ only_creates_trans); [intros; apply only_creates_refl|].
  intros present w1. apply (final_when _ only_creates_refl).
  apply (final_try_catch _ only_creates_trans); [apply only_creates_mkdir|].
  intros _ w2.
  apply (final_bind _ only_creates_trans); [apply only_creates_error|].
  intros; apply only_creates_refl.
Qed.

Lemma only_creates_checkExt (e : env) (key : string) (resolved : list json) (p : json)
    (w : world) :
  only_creates w (final (checkExt e key resolved p w)).
Proof.
  unfold checkExt. destruct p; try apply only_creates_refl.
  apply (final_bind _ only_creates_trans); [intros; apply only_creates_refl|].
  intros present w1. destruct (negb present); [|apply only_creates_refl].
  apply (final_bind _ only_creates_trans); [apply only_creates_error|].
  intros; apply only_creates_refl.
Qed.

Lemma only_creates_checkProfile (e : env) (profiles : obj (obj json)) (key : string)
    (w : world) :
  only_creates w (final (checkProfile e profiles key w)).
Proof.
  unfold checkProfile.
  destruct (obj_get _ "exts") as [[]|]; try apply only_creates_refl.
  - apply (final_bind _ only_creates_trans); [apply only_creates_error|].
    intros; apply only_creates_refl.
  - apply (final_bind _ only_creates_trans); [apply only_creates_error|].
    intros; apply only_creates_refl.
  - apply (final_bind _ only_creates_trans); [apply only_creates_error|].
    intros; apply only_creates_refl.
  - apply (final_bind _ only_creates_trans).
    + intros w0. apply (final_foldM _ only_creates_refl only_creates_trans).
      intros. apply only_creates_checkExt.
    + intros; apply only_creates_refl.
  - apply (final_bind _ only_creates_trans); [apply only_creates_error|].
    intros; apply only_creates_refl.
Qed.

Lemma returned_final {W A : Type} (m : proc W A) (w w' : W) (a : A) :
  m w = Returned a w' -> final (m w) = w'.
Proof. by intros ->. Qed.

End ConfigFrameFacts.

Section ConfigEffects.
Import Js Proc Str Config ConfigFrame ConfigExamples.

(** X20: however the configuration script ends, it has removed
    nothing: every directory that existed still exists, what exists
    besides was created by the script among the directories that can be
    created, and the console has only grown. *)
Theorem resolveConfig_only_creates (e : env) (user : userConfig) (w : world) :
  only_creates w (final (resolveConfig e user w)).
Proof.
  unfold resolveConfig.
  apply (final_bind _ only_creates_trans); [intros; apply only_creates_refl|].
  intros present w1.
  apply (final_bind _ only_creates_trans).
  { apply (final_when _ only_creates_refl).
    apply (final_bind _ only_creates_trans); [apply only_creates_error|].
    intros; apply only_creates_refl. }
  intros _ w2.
  apply (final_bind _ only_creates_trans); [apply only_creates_ensureDir|].
  intros _ w3.
  apply (final_bind _ only_creates_trans).
  { intros w0. apply (final_foldM _ only_creates_refl only_creates_trans).
    intros. apply only_creates_checkProfile. }
  intros profiles w4.
  apply (final_bind _ only_creates_trans); [apply only_creates_ensureDir|].
  intros _ w5.
  apply (final_bind _ only_creates_trans).
  { intros w0. apply (final_forEach _ only_creates_refl only_creates_trans).
    intros. apply only_creates_ensureDir. }
  intros; apply only_creates_refl.
Qed.

End ConfigEffects.

Section ConfigReturned.
Import Js Proc Str Config ConfigFrame.

Lemma ensureDir_returned (d : string) (m : message) (w w' : world) (u : unit) :
  ensureDir d m w = Returned u w' -> d ∈ existing w' /\ only_creates w w'.
Proof.
  intros H. split.
  - revert H. unfold ensureDir, bind, existsSync, gets.
    destruct (bool_decide (d ∈ existing w)) eqn:Hd; simpl.
    + unfold ret. intros [= _ <-]. by apply bool_decide_eq_true in Hd.
    + unfold try_catch, mkdirSync. rewrite Hd.
      destruct (bool_decide (d ∈ creatable w)); simpl; [|done].
      intros [= _ <-]. simpl. set_solver.
  - rewrite <- (returned_final _ _ _ _ H). apply only_creates_ensureDir.
Qed.

Lemma forEach_ensureDir_returned (f : string -> string) (m : string -> message)
    (l : list string) (w w' : world) (u : unit) :
  forEach l (fun key => ensureDir (f key) (m key)) w = Returned u w' ->
  only_creates w w' /\ forall key, key ∈ l -> f key ∈ existing w'.
Proof.
  revert w. induction l as [|k l IH]; intros w.
  - unfold forEach, ret. simpl. intros [= _ <-].
    split; [apply only_creates_refl | by intros key ?%elem_of_nil].
  - rewrite forEach_cons. intros (u1 & w1 & H1 & H2)%bind_returned.
    apply ensureDir_returned in H1 as [Hk Hc1].
    apply IH in H2 as [Hc2 Hl]. split; [by eapply only_creates_trans|].
    intros key [->|Hin]%elem_of_cons; [|by apply Hl].
    destruct Hc2 as (Hsub & _). set_solver.
Qed.

(** The loop over the elements of [exts] returns when every element
    is a string that resolves to a path that exists. *)
Lemma checkExt_loop_returned (e : env) (key : string) (paths acc rs : list json)
    (w w' : world) :
  foldM (checkExt e key) paths acc w = Returned rs w' ->
  w' = w
  /\ exists strs,
       paths = map JString strs
       /\ Forall (fun s => resolveConfigPath e s ∈ existing w) strs
       /\ rs = acc ++ map (fun s => JString (resolveConfigPath e s)) strs.
Proof.
  revert acc. induction paths as [|p paths IH]; intros acc; simpl.
  - unfold ret. intros [= <- <-]. split; [done|]. exists [].
    by rewrite app_nil_r.
  - intros (acc1 & w1 & H1 & H2)%bind_returned.
    destruct p as [| | |s| |]; try done. simpl in H1.
    unfold bind, existsSync, gets in H1.
    destruct (bool_decide (resolveConfigPath e s ∈ existing w)) eqn:Hs; simpl in H1;
      [|done].
    unfold ret in H1. injection H1 as <- <-.
    apply IH in H2 as (-> & strs & -> & Hall & ->). split; [done|].
    exists (s :: strs). split; [done|]. split.
    + apply Forall_cons_2; [by apply bool_decide_eq_true in Hs | done].
    + by rewrite <- app_assoc.
Qed.

Lemma checkProfile_returned (e : env) (profiles profiles' : obj (obj json))
    (key : string) (w w' : world) :
  checkProfile e profiles key w = Returned profiles' w' ->
  w' = w
  /\ exists strs,
       obj_get (default [] (obj_get profiles key)) "exts" = Some (JArray (map JString strs))
       /\ Forall (fun s => resolveConfigPath e s ∈ existing w) strs
       /\ profiles'
          = obj_set profiles key
              (obj_set (default [] (obj_get profiles key)) "exts"
                 (JArray (map (fun s => JString (resolveConfigPath e s)) strs))).
Proof.
  unfold checkProfile.
  destruct (obj_get (default [] (obj_get profiles key)) "exts") as [[| | | |paths|]|];
    try done.
  intros (rs & w1 & H1 & H2)%bind_returned.
  apply checkExt_loop_returned in H1 as (-> & strs & -> & Hall & ->).
  unfold ret in H2. injection H2 as <- <-. split; [done|]. by exists strs.
Qed.

Lemma obj_keys_set_present {V : Type} (o : obj V) (k : string) (v : V) :
  k ∈ obj_keys o -> obj_keys (obj_set o k v) = obj_keys o.
Proof.
  induction o as [|[k' v'] o IH]; simpl; [by intros ?%elem_of_nil|].
  destruct (String.eqb_spec k' k) as [->|Hne]; [done|].
  intros [?|Hin]%elem_of_cons; [congruence|]. simpl. by rewrite IH.
Qed.

Lemma obj_get_present {V : Type} (o : obj V) (k : string) :
  k ∈ obj_keys o <-> exists v, obj_get o k = Some v.
Proof.
  induction o as [|[k' v'] o IH]; simpl.
  - split; [by intros ?%elem_of_nil | by intros [? ?]].
  - destruct (String.eqb_spec k' k) as [->|Hne].
    + split; [eauto | intros _; left].
    + rewrite elem_of_cons, IH. split; [intros [?|?]; [congruence|done] | by right].
Qed.

(** The loop that validates the profiles, one round for each key. *)
Lemma checkProfile_loop_returned (e : env) (keys : list string)
    (ps ps' : obj (obj json)) (w w' : world) :
  NoDup keys -> (forall k, k ∈ keys -> k ∈ obj_keys ps) ->
  foldM (checkProfile e) keys ps w = Returned ps' w' ->
  w' = w
  /\ obj_keys ps' = obj_keys ps
  /\ (forall k, k ∉ keys -> obj_get ps' k = obj_get ps k)
  /\ (forall k, k ∈ keys ->
        exists opts strs,
          obj_get ps k = Some opts
          /\ obj_get opts "exts" = Some (JArray (map JString strs))
          /\ Forall (fun s => resolveConfigPath e s ∈ existing w) strs
          /\ obj_get ps' k
             = Some (obj_set opts "exts"
                       (JArray (map (fun s => JString (resolveConfigPath e s)) strs)))).
Proof.
  revert ps. induction keys as [|key keys IH]; intros ps Hnd Hkeys; simpl.
  - unfold ret. intros [= <- <-]. repeat split; try done.
    by intros k ?%elem_of_nil.
  - apply NoDup_cons in Hnd as [Hfresh Hnd].
    intros (ps1 & w1 & H1 & H2)%bind_returned.
    apply checkProfile_returned in H1 as (-> & strs & Hexts & Hall & ->).
    assert (key ∈ obj_keys ps) as Hkey by (apply Hkeys; left).
    apply obj_get_present in Hkey as [opts Hopts]. rewrite Hopts in *. simpl in *.
    apply IH in H2 as (-> & Hks & Hout & Hin); [|done|].
    2: { intros k Hk. rewrite obj_keys_set_present; [apply Hkeys; by right|].
         apply obj_get_present. eauto. }
    split; [done|]. split.
    { rewrite Hks. apply obj_keys_set_present. apply obj_get_present. eauto. }
    split.
    + intros k [Hne Hk]%not_elem_of_cons. rewrite Hout by done.
      apply obj_get_set_ne. congruence.
    + intros k [->|Hk]%elem_of_cons.
      * exists opts, strs. repeat split; [done..|].
        rewrite Hout by done. apply obj_get_set_eq.
      * destruct (Hin k Hk) as (opts' & strs' & Hg & He & Ha & Hr).
        exists opts', strs'. repeat split; [|done..].
        rewrite obj_get_set_ne in Hg; [done|]. intros ->. done.
Qed.

(** The profiles the script starts from: the defaults under the
    options of each profile given. *)
Lemma defaults_loop (g : obj json -> obj json) (given ps : obj (obj json)) :
  NoDup (obj_keys given) -> (forall k, k ∈ obj_keys given -> k ∈ obj_keys ps) ->
  let ps' := fold_left (fun ps kv => obj_set ps (fst kv) (g (snd kv))) given ps in
  obj_keys ps' = obj_keys ps
  /\ (forall k, k ∉ obj_keys given -> obj_get ps' k = obj_get ps k)
  /\ (forall k opts, (k, opts) ∈ given -> obj_get ps' k = Some (g opts)).
Proof.
  revert ps. induction given as [|[key opts0] given IH]; intros ps Hnd Hkeys; simpl.
  - repeat split. by intros k opts ?%elem_of_nil.
  - simpl in Hnd. apply NoDup_cons in Hnd as [Hfresh Hnd].
    assert (key ∈ obj_keys ps) as Hkey by (apply Hkeys; left).
    destruct (IH (obj_set ps key (g opts0)) Hnd) as (Hks & Hout & Hin).
    { intros k Hk. rewrite obj_keys_set_present by done. apply Hkeys. by right. }
    split; [by rewrite Hks, obj_keys_set_present|]. split.
    + intros k [Hne Hk]%not_elem_of_cons. rewrite Hout by done.
      apply obj_get_set_ne. congruence.
    + intros k opts [[= -> ->]|Hk]%elem_of_cons.
      * rewrite Hout by done. apply obj_get_set_eq.
      * by apply Hin.
Qed.

(** The validation of the profiles changes nothing when it returns. *)
Lemma checkProfile_loop_world (e : env) (keys : list string)
    (ps ps' : obj (obj json)) (w w' : world) :
  foldM (checkProfile e) keys ps w = Returned ps' w' -> w' = w.
Proof.
  revert ps. induction keys as [|k keys IH]; intros ps; simpl.
  - unfold ret. by intros [= _ <-].
  - intros (ps1 & w1 & Hk & Hrest)%bind_returned.
    apply checkProfile_returned in Hk as (-> & _). by eapply IH.
Qed.

(** What the script has done when it returns. *)
Lemma resolveConfig_returned (e : env) (user : userConfig) (w w' : world) (cfg : config) :
  resolveConfig e user w = Returned cfg w' ->
  let tasks := resolveConfigPath e (default (configDir e +:+ "/tasks") (u_tasksDir user)) in
  let profiles0 :=
    match u_profiles user with
    | None => [("default", obj_spread defaultProfileOpts [("runByDefault", JBool true)])]
    | Some given =>
        fold_left (fun ps kv => obj_set ps (fst kv) (obj_spread defaultProfileOpts (snd kv)))
          given given
    end in
  exists w3,
    tasksDir cfg = tasks
    /\ tasksOutputDir cfg
       = resolveConfigPath e (default (tasks +:+ "/output") (u_tasksOutputDir user))
    /\ profilesDir cfg
       = resolveConfigPath e (default (tasks +:+ "../.chrome-profiles") (u_profilesDir user))
    /\ tasks ∈ existing w
    /\ tasksOutputDir cfg ∈ existing w3
    /\ only_creates w w3
    /\ foldM (checkProfile e) (obj_keys profiles0) profiles0 w3
       = Returned (profiles cfg) w3
    /\ only_creates w3 w'
    /\ profilesDir cfg ∈ existing w'
    /\ (forall key, key ∈ obj_keys (profiles cfg) ->
                    profilesDir cfg +:+ "/" +:+ key ∈ existing w').
Proof.
  unfold resolveConfig. intros H. cbv zeta.
  apply bind_returned in H as (present & w1 & H1 & H).
  unfold existsSync, gets in H1. injection H1 as <- <-.
  apply bind_returned in H as ([] & w2 & H2 & H).
  destruct (bool_decide (_ ∈ existing w)) eqn:Htasks; simpl in H2; [|done].
  unfold ret in H2. injection H2 as <-. apply bool_decide_eq_true in Htasks.
  apply bind_returned in H as ([] & w3 & H3 & H).
  apply ensureDir_returned in H3 as [Hout Hc3].
  apply bind_returned in H as (profiles & w4 & H4 & H).
  apply bind_returned in H as ([] & w5 & H5 & H).
  apply ensureDir_returned in H5 as [Hpdir Hc5].
  apply bind_returned in H as ([] & w6 & H6 & H).
  apply (forEach_ensureDir_returned
           (fun key => resolveConfigPath e
                         (default (resolveConfigPath e
                                     (default (configDir e +:+ "/tasks") (u_tasksDir user))
                                   +:+ "../.chrome-profiles") (u_profilesDir user))
                       +:+ "/" +:+ key)
           (fun key => ProfileDirNotCreated
                         (resolveConfigPath e
                            (default (resolveConfigPath e
                                        (default (configDir e +:+ "/tasks")
                                           (u_tasksDir user))
                                      +:+ "../.chrome-profiles") (u_profilesDir user))
                          +:+ "/" +:+ key))) in H6 as [Hc6 Hdirs].
  unfold ret in H. injection H as <- <-. simpl.
  apply checkProfile_loop_world in H4 as Hw. subst w4.
  exists w3. do 7 (split; [done|]).
  split; [by eapply only_creates_trans|]. split; [|done].
  destruct Hc6 as (Hsub & _). set_solver.
Qed.

End ConfigReturned.

Section ProfileFacts.
Import Js Proc Str Config ConfigFrame.

Lemma obj_get_spread_default {V : Type} (a b : obj V) (k : string) :
  NoDup (obj_keys b) ->
  obj_get (obj_spread a b) k
  = match obj_get b k with Some v => Some v | None => obj_get a k end.
Proof.
  intros Hnd. destruct (obj_get b k) as [v|] eqn:Hb.
  - by apply obj_get_spread.
  - apply obj_get_spread_other. intros [v Hv]%obj_get_present. congruence.
Qed.

Lemma defaults_loop_keys (g : obj json -> obj json) (given ps : obj (obj json)) :
  (forall k, k ∈ obj_keys given -> k ∈ obj_keys ps) ->
  obj_keys (fold_left (fun ps kv => obj_set ps (fst kv) (g (snd kv))) given ps)
  = obj_keys ps.
Proof.
  revert ps. induction given as [|[key opts] given IH]; intros ps Hkeys; simpl; [done|].
  assert (key ∈ obj_keys ps) as Hkey by (apply Hkeys; left).
  rewrite IH; [by apply obj_keys_set_present|].
  intros k Hk. rewrite obj_keys_set_present by done. apply Hkeys. by right.
Qed.

Lemma checkProfile_loop_keys (e : env) (keys : list string)
    (ps ps' : obj (obj json)) (w w' : world) :
  (forall k, k ∈ keys -> k ∈ obj_keys ps) ->
  foldM (checkProfile e) keys ps w = Returned ps' w' ->
  obj_keys ps' = obj_keys ps.
Proof.
  revert ps w. induction keys as [|key keys IH]; intros ps w Hkeys; simpl.
  - unfold ret. by intros [= <- _].
  - intros (ps1 & w1 & H1 & H2)%bind_returned.
    apply checkProfile_returned in H1 as (-> & strs & _ & _ & ->).
    assert (key ∈ obj_keys ps) as Hkey by (apply Hkeys; left).
    apply IH in H2; [by rewrite H2, obj_keys_set_present|].
    intros k Hk. rewrite obj_keys_set_present by done. apply Hkeys. by right.
Qed.

End ProfileFacts.

Section ConfigProfiles.
Import Js Proc Str Config ConfigFrame ConfigExamples ProfileExamples.

(** X21: when the configuration script returns, the tasks directory,
    the tasks output directory, the profiles directory and, in it, one
    directory for every profile all exist. *)
Theorem resolveConfig_directories_exist
    (e : env) (user : userConfig) (w w' : world) (cfg : config) :
  resolveConfig e user w = Returned cfg w' ->
  tasksDir cfg ∈ existing w'
  /\ tasksOutputDir cfg ∈ existing w'
  /\ profilesDir cfg ∈ existing w'
  /\ forall key, key ∈ obj_keys (profiles cfg) ->
                 profilesDir cfg +:+ "/" +:+ key ∈ existing w'.
Proof.
  intros H. apply resolveConfig_returned in H.
  destruct H as (w3 & -> & _ & _ & Htasks & Hout & Hc3 & _ & Hc & Hpdir & Hdirs).
  destruct Hc3 as (Hsub3 & _). destruct Hc as (Hsub & _).
  repeat split; [set_solver | set_solver | done | done].
Qed.

Lemma resolveConfig_directories_exist_witness :
  let w' := final (resolveConfig installed two_profiles project_with_exts) in
  tasksDir two_profiles_resolved ∈ existing w'
  /\ tasksOutputDir two_profiles_resolved ∈ existing w'
  /\ profilesDir two_profiles_resolved ∈ existing w'
  /\ forall key, key ∈ obj_keys (profiles two_profiles_resolved) ->
                 profilesDir two_profiles_resolved +:+ "/" +:+ key ∈ existing w'.
Proof.
  apply (resolveConfig_directories_exist installed two_profiles project_with_exts
           (final (resolveConfig installed two_profiles project_with_exts))
           two_profiles_resolved).
  reflexivity.
Defined.

(** X22: the resolved configuration has the profiles of the
    configuration file, under the same names in the same order, and the
    one profile [default] when the file gives none; these names are the
    choices [addProfilesOpt] offers for the option [p]. *)
Theorem resolveConfig_keeps_profile_names
    (e : env) (user : userConfig) (w w' : world) (cfg : config) :
  resolveConfig e user w = Returned cfg w' ->
  addProfilesOpt cfg
  = match u_profiles user with
    | None => ["default"]
    | Some given => obj_keys given
    end.
Proof.
  intros H. apply resolveConfig_returned in H.
  destruct H as (w3 & _ & _ & _ & _ & _ & _ & Hloop & _).
  apply checkProfile_loop_keys in Hloop; [|done]. unfold addProfilesOpt.
  rewrite Hloop. destruct (u_profiles user) as [given|]; [|done].
  by apply defaults_loop_keys.
Qed.

Lemma resolveConfig_keeps_profile_names_witness :
  addProfilesOpt two_profiles_resolved = ["dev"; "bare"].
Proof.
  apply (resolveConfig_keeps_profile_names installed two_profiles project_with_exts
           (final (resolveConfig installed two_profiles project_with_exts))
           two_profiles_resolved).
  reflexivity.
Defined.

(** X23: in the resolved configuration every profile has each option
    other than [exts] as the configuration file gives it, and as the
    defaults give it when the file leaves it out. *)
Theorem resolveConfig_fills_profile_options
    (e : env) (user : userConfig) (w w' : world) (cfg : config)
    (given : obj (obj json)) (key : string) (opts : obj json) (name : string) :
  u_profiles user = Some given ->
  NoDup (obj_keys given) ->
  (key, opts) ∈ given ->
  NoDup (obj_keys opts) ->
  name <> "exts" ->
  resolveConfig e user w = Returned cfg w' ->
  exists profile,
    obj_get (profiles cfg) key = Some profile
    /\ obj_get profile name
       = match obj_get opts name with
         | Some v => Some v
         | None => obj_get defaultProfileOpts name
         end.
Proof.
  intros Hu Hnd Hin Hndo Hname H. apply resolveConfig_returned in H.
  destruct H as (w3 & _ & _ & _ & _ & _ & _ & Hloop & _). rewrite Hu in Hloop.
  destruct (defaults_loop (obj_spread defaultProfileOpts) given given Hnd)
    as (Hkeys & _ & Hget); [done|]. cbv zeta in *.
  apply checkProfile_loop_returned in Hloop as (_ & _ & _ & Hres).
  2: { by rewrite Hkeys. }
  2: { done. }
  destruct (Hres key) as (opts0 & strs & Hg & _ & _ & Hr).
  { rewrite Hkeys. apply (list_elem_of_fmap_2 fst) in Hin. exact Hin. }
  rewrite (Hget key opts Hin) in Hg. injection Hg as <-.
  eexists. split; [exact Hr|].
  rewrite obj_get_set_ne by done. by apply obj_get_spread_default.
Qed.

Lemma resolveConfig_fills_profile_options_witness :
  exists profile,
    obj_get (profiles two_profiles_resolved) "dev" = Some profile
    /\ obj_get profile "autoclose"
       = match obj_get [("exts", JArray [JString "ext/dev"]); ("devtools", JBool true)]
                 "autoclose" with
         | Some v => Some v
         | None => obj_get defaultProfileOpts "autoclose"
         end.
Proof.
  apply (resolveConfig_fills_profile_options installed two_profiles project_with_exts
           (final (resolveConfig installed two_profiles project_with_exts))
           two_profiles_resolved
           [("dev", [("exts", JArray [JString "ext/dev"]); ("devtools", JBool true)]);
            ("bare", [])]
           "dev" [("exts", JArray [JString "ext/dev"]); ("devtools", JBool true)]
           "autoclose").
  - reflexivity.
  - compute_done.
  - left.
  - compute_done.
  - discriminate.
  - reflexivity.
Defined.

(** X24: when the configuration script returns, the [exts] of every
    profile of the configuration file, or the empty default when the
    profile has none, is an array of strings; in the resolved
    configuration each of them is replaced by its resolved path, and
    every such path exists. *)
Theorem resolveConfig_resolves_exts
    (e : env) (user : userConfig) (w w' : world) (cfg : config)
    (given : obj (obj json)) (key : string) (opts : obj json) :
  u_profiles user = Some given ->
  NoDup (obj_keys given) ->
  (key, opts) ∈ given ->
  NoDup (obj_keys opts) ->
  resolveConfig e user w = Returned cfg w' ->
  exists paths profile,
    default (JArray []) (obj_get opts "exts") = JArray (map JString paths)
    /\ obj_get (profiles cfg) key = Some profile
    /\ obj_get profile "exts"
       = Some (JArray (map (fun p => JString (resolveConfigPath e p)) paths))
    /\ Forall (fun p => resolveConfigPath e p ∈ existing w') paths.
Proof.
  intros Hu Hnd Hin Hndo H. apply resolveConfig_returned in H.
  destruct H as (w3 & _ & _ & _ & _ & _ & _ & Hloop & Hc & _). rewrite Hu in Hloop.
  destruct (defaults_loop (obj_spread defaultProfileOpts) given given Hnd)
    as (Hkeys & _ & Hget); [done|]. cbv zeta in *.
  apply checkProfile_loop_returned in Hloop as (_ & _ & _ & Hres).
  2: { by rewrite Hkeys. }
  2: { done. }
  destruct (Hres key) as (opts0 & strs & Hg & He & Hall & Hr).
  { rewrite Hkeys. apply (list_elem_of_fmap_2 fst) in Hin. exact Hin. }
  rewrite (Hget key opts Hin) in Hg. injection Hg as <-.
  exists strs. eexists. split; [|split; [exact Hr|split]].
  - rewrite obj_get_spread_default in He by done.
    destruct (obj_get opts "exts") as [v|]; cbn in He; simpl; congruence.
  - apply obj_get_set_eq.
  - destruct Hc as (Hsub & _). eapply Forall_impl; [exact Hall|].
    intros p Hp. simpl in Hp. set_solver.
Qed.

Lemma resolveConfig_resolves_exts_witness :
  exists paths profile,
    default (JArray [])
      (obj_get [("exts", JArray [JString "ext/dev"]); ("devtools", JBool true)] "exts")
    = JArray (map JString paths)
    /\ obj_get (profiles two_profiles_resolved) "dev" = Some profile
    /\ obj_get profile "exts"
       = Some (JArray (map (fun p => JString (resolveConfigPath installed p)) paths))
    /\ Forall (fun p => resolveConfigPath installed p
                        ∈ existing (final (resolveConfig installed two_profiles
                                             project_with_exts)))
         paths.
Proof.
  apply (resolveConfig_resolves_exts installed two_profiles project_with_exts
           (final (resolveConfig installed two_profiles project_with_exts))
           two_profiles_resolved
           [("dev", [("exts", JArray [JString "ext/dev"]); ("devtools", JBool true)]);
            ("bare", [])]
           "dev" [("exts", JArray [JString "ext/dev"]); ("devtools", JBool true)]).
  - reflexivity.
  - compute_done.
  - left.
  - compute_done.
  - reflexivity.
Defined.

End ConfigProfiles.

Section ConfigFailures.
Import Js Proc Str Config ConfigFrame ConfigExamples ProfileExamples.

(** A loop over [pre ++ x :: post] whose rounds on [pre] return and
    whose round on [x] throws, throws there. *)
Lemma foldM_throws_at {W A S : Type} (body : S -> A -> proc W S)
    (pre post : list A) (x : A) (s s1 : S) (w w1 w2 : W) (err : string) :
  foldM body pre s w = Returned s1 w1 ->
  body s1 x w1 = Threw err w2 ->
  foldM body (pre ++ x :: post) s w = Threw err w2.
Proof.
  revert s w. induction pre as [|y pre IH]; intros s w; simpl.
  - unfold ret, bind. intros [= <- <-] ->. done.
  - unfold bind. destruct (body s y w) as [s' w'|c' w'|e' w']; try done.
    apply IH.
Qed.

(** The loop over [exts] returns on strings whose resolved paths exist. *)
Lemma checkExt_loop_valid (e : env) (key : string) (strs : list string)
    (acc : list json) (w : world) :
  Forall (fun s => resolveConfigPath e s ∈ existing w) strs ->
  foldM (checkExt e key) (map JString strs) acc w
  = Returned (acc ++ map (fun s => JString (resolveConfigPath e s)) strs) w.
Proof.
  revert acc. induction strs as [|s strs IH]; intros acc Hall; simpl.
  - unfold ret. by rewrite app_nil_r.
  - apply Forall_cons in Hall as [Hs Hall]. unfold bind at 1.
    unfold bind at 1. unfold existsSync, gets.
    rewrite bool_decide_eq_true_2 by done. simpl. unfold ret.
    rewrite IH by done. by rewrite <- app_assoc.
Qed.

(** A profile whose [exts] holds a path that does not exist, after
    paths that do, ends the validation with an error citing its key and
    the resolved path. *)
Lemma checkProfile_invalid_path (e : env) (profiles : obj (obj json))
    (key : string) (opts : obj json) (pre : list string) (s : string)
    (post : list json) (w : world) :
  obj_get profiles key = Some opts ->
  obj_get opts "exts" = Some (JArray (map JString pre ++ JString s :: post)) ->
  Forall (fun p => resolveConfigPath e p ∈ existing w) pre ->
  resolveConfigPath e s ∉ existing w ->
  checkProfile e profiles key w
  = Exited 1 (with_error w (InvalidExtPath (configFile e) key (resolveConfigPath e s))).
Proof.
  intros Hp Hexts Hpre Hs. unfold checkProfile. rewrite Hp. simpl. rewrite Hexts.
  unfold bind at 1.
  erewrite foldM_exits_at; [done | by apply checkExt_loop_valid |].
  simpl. unfold bind, existsSync, gets.
  by rewrite bool_decide_eq_false_2 by done.
Qed.

(** A profile whose [exts] holds something that is not a string, after
    paths that exist, ends the validation with a [TypeError]. *)
Lemma checkProfile_ext_not_a_string (e : env) (profiles : obj (obj json))
    (key : string) (opts : obj json) (pre : list string) (v : json)
    (post : list json) (w : world) :
  obj_get profiles key = Some opts ->
  obj_get opts "exts" = Some (JArray (map JString pre ++ v :: post)) ->
  Forall (fun p => resolveConfigPath e p ∈ existing w) pre ->
  (forall s, v <> JString s) ->
  checkProfile e profiles key w = Threw "TypeError" w.
Proof.
  intros Hp Hexts Hpre Hv. unfold checkProfile. rewrite Hp. simpl. rewrite Hexts.
  unfold bind at 1.
  erewrite foldM_throws_at; [done | by apply checkExt_loop_valid |].
  destruct v; try done. by destruct (Hv s).
Qed.

(** With its directories in place, the script reaches the validation
    of the first profile, merged with the defaults, and ends as that
    validation ends when it does not return. *)
Lemma first_profile_decides (e : env) (user : userConfig) (w : world)
    (key : string) (opts : obj json) (others : obj (obj json)) :
  u_profiles user = Some ((key, opts) :: others) ->
  key ∉ obj_keys others ->
  let tasks := resolveConfigPath e (default (configDir e +:+ "/tasks") (u_tasksDir user)) in
  tasks ∈ existing w ->
  resolveConfigPath e (default (tasks +:+ "/output") (u_tasksOutputDir user)) ∈ existing w ->
  exists profiles0,
    obj_get profiles0 key = Some (obj_spread defaultProfileOpts opts)
    /\ (forall c w', checkProfile e profiles0 key w = Exited c w' ->
                     resolveConfig e user w = Exited c w')
    /\ (forall x w', checkProfile e profiles0 key w = Threw x w' ->
                     resolveConfig e user w = Threw x w').
Proof.
  intros Hps Hfresh tasks Htasks Hout.
  set (merged := obj_spread defaultProfileOpts opts).
  set (g := fun (ps : obj (obj json)) (kv : string * obj json) =>
              obj_set ps kv.1 (obj_spread defaultProfileOpts kv.2)).
  assert (forall (ps : obj (obj json)) rest,
            key ∉ obj_keys rest ->
            obj_get (fold_left g rest ((key, merged) :: ps)) key = Some merged
            /\ exists ks, obj_keys (fold_left g rest ((key, merged) :: ps)) = key :: ks)
    as Hfold.
  { intros ps rest. revert ps. induction rest as [|[k o] rest IH]; intros ps Hk.
    - simpl. rewrite String.eqb_refl. eauto.
    - cbn in Hk. apply not_elem_of_cons in Hk as [Hne Hk]. cbn.
      apply String.eqb_neq in Hne. rewrite Hne. by apply IH. }
  destruct (Hfold others others Hfresh) as (Hget & ks & Hkeys).
  exists (fold_left g others ((key, merged) :: others)). split; [exact Hget|].
  assert (forall r : result world (obj (obj json)),
            checkProfile e (fold_left g others ((key, merged) :: others)) key w = r ->
            resolveConfig e user w
            = match r with
              | Returned ps w1 => resolveConfig e user w
              | Exited c w1 => Exited c w1
              | Threw x w1 => Threw x w1
              end) as Hends.
  { intros r Hr. destruct r as [ps w1|c w1|x w1]; [done|..];
      unfold resolveConfig at 1; fold tasks; rewrite Hps;
      unfold bind at 1; unfold existsSync at 1, gets;
      rewrite bool_decide_eq_true_2 by done; simpl;
      unfold bind at 1; unfold when, ret;
      unfold bind at 1; unfold ensureDir, bind at 1, existsSync, gets;
      rewrite bool_decide_eq_true_2 by done; simpl; unfold ret;
      rewrite String.eqb_refl; fold merged; fold g;
      rewrite Hkeys; unfold bind at 1; simpl; unfold bind at 1;
      by rewrite Hr. }
  split; intros ? w' Hr; exact (Hends _ Hr).
Qed.

(** X25: a tasks directory that does not exist ends the configuration
    script with status 1 and an error naming the resolved directory,
    before anything is created; a tasks output directory that neither
    exists nor can be created ends it with status 1 and an error that
    names the tasks directory, not the output directory. *)
Theorem resolveConfig_missing_directories (e : env) (user : userConfig) (w : world) :
  let tasks := resolveConfigPath e (default (configDir e +:+ "/tasks") (u_tasksDir user)) in
  let out := resolveConfigPath e (default (tasks +:+ "/output") (u_tasksOutputDir user)) in
  (tasks ∉ existing w ->
   resolveConfig e user w = Exited 1 (with_error w (TasksDirNotFound tasks)))
  /\ (tasks ∈ existing w -> out ∉ existing w -> out ∉ creatable w ->
      resolveConfig e user w = Exited 1 (with_error w (OutputDirNotCreated tasks))).
Proof.
  intros tasks out. split.
  - intros Htasks. unfold resolveConfig. fold tasks.
    unfold bind at 1. unfold existsSync at 1, gets.
    by rewrite bool_decide_eq_false_2 by done.
  - intros Htasks Hout Hnew. unfold resolveConfig. fold tasks. fold out.
    unfold bind at 1. unfold existsSync at 1, gets.
    rewrite bool_decide_eq_true_2 by done. simpl.
    unfold bind at 1. unfold when, ret.
    unfold bind at 1. unfold ensureDir, bind at 1, existsSync, gets.
    rewrite bool_decide_eq_false_2 by done. simpl.
    unfold try_catch, mkdirSync.
    by rewrite (bool_decide_eq_false_2 (out ∈ creatable w)) by done.
Qed.

Lemma resolveConfig_missing_directories_witness :
  resolveConfig installed no_config {| console := []; existing := ∅; creatable := ∅ |}
  = Exited 1 {| console := [Err (TasksDirNotFound "/proj/tasks")];
                existing := ∅; creatable := ∅ |}
  /\ resolveConfig installed no_config
       {| console := []; existing := {["/proj/tasks"]}; creatable := ∅ |}
     = Exited 1 {| console := [Err (OutputDirNotCreated "/proj/tasks")];
                   existing := {["/proj/tasks"]}; creatable := ∅ |}.
Proof.
  split.
  - apply (proj1 (resolveConfig_missing_directories installed no_config
                    {| console := []; existing := ∅; creatable := ∅ |})).
    set_solver.
  - refine (proj2 (resolveConfig_missing_directories installed no_config
                     {| console := []; existing := {["/proj/tasks"]}; creatable := ∅ |})
              _ _ _); set_solver.
Defined.

(** X26: in a configuration whose directories exist, a path of the
    first profile's [exts] that does not exist, after paths that do,
    ends the process with status 1 and an error citing the profile's key
    and the resolved path. *)
Theorem first_profile_invalid_ext_path
    (e : env) (user : userConfig) (w : world)
    (key : string) (opts : obj json) (others : obj (obj json))
    (pre : list string) (s : string) (post : list json) :
  u_profiles user = Some ((key, opts) :: others) ->
  key ∉ obj_keys others ->
  NoDup (obj_keys opts) ->
  obj_get opts "exts" = Some (JArray (map JString pre ++ JString s :: post)) ->
  let tasks := resolveConfigPath e (default (configDir e +:+ "/tasks") (u_tasksDir user)) in
  tasks ∈ existing w ->
  resolveConfigPath e (default (tasks +:+ "/output") (u_tasksOutputDir user)) ∈ existing w ->
  Forall (fun p => resolveConfigPath e p ∈ existing w) pre ->
  resolveConfigPath e s ∉ existing w ->
  resolveConfig e user w
  = Exited 1 (with_error w (InvalidExtPath (configFile e) key (resolveConfigPath e s))).
Proof.
  intros Hps Hfresh Hnd Hexts tasks Htasks Hout Hpre Hs.
  destruct (first_profile_decides e user w key opts others Hps Hfresh Htasks Hout)
    as (profiles0 & Hget & Hexit & _).
  apply Hexit.
  apply (checkProfile_invalid_path e _ key (obj_spread defaultProfileOpts opts)
           pre s post); try done.
  by apply obj_get_spread.
Qed.

Lemma first_profile_invalid_ext_path_witness :
  resolveConfig installed two_profiles
    {| console := []; existing := {["/proj/tasks"; "/proj/tasks/output"]};
       creatable := ∅ |}
  = Exited 1
      {| console := [Err (InvalidExtPath "/proj/.pwptr.json" "dev" "/proj/ext/dev")];
         existing := {["/proj/tasks"; "/proj/tasks/output"]}; creatable := ∅ |}.
Proof.
  refine (first_profile_invalid_ext_path installed two_profiles
            {| console := []; existing := {["/proj/tasks"; "/proj/tasks/output"]};
               creatable := ∅ |}
            "dev" [("exts", JArray [JString "ext/dev"]); ("devtools", JBool true)]
            [("bare", [])] [] "ext/dev" [] _ _ _ _ _ _ _ _).
  - reflexivity.
  - compute_done.
  - compute_done.
  - reflexivity.
  - set_solver.
  - set_solver.
  - apply Forall_nil_2.
  - compute_done.
Defined.

(** X27: in a configuration whose directories exist, an element of the
    first profile's [exts] that is not a string, after paths that
    exist, raises an uncaught [TypeError]: nothing is printed. *)
Theorem first_profile_ext_not_a_string
    (e : env) (user : userConfig) (w : world)
    (key : string) (opts : obj json) (others : obj (obj json))
    (pre : list string) (v : json) (post : list json) :
  u_profiles user = Some ((key, opts) :: others) ->
  key ∉ obj_keys others ->
  NoDup (obj_keys opts) ->
  obj_get opts "exts" = Some (JArray (map JString pre ++ v :: post)) ->
  (forall s, v <> JString s) ->
  let tasks := resolveConfigPath e (default (configDir e +:+ "/tasks") (u_tasksDir user)) in
  tasks ∈ existing w ->
  resolveConfigPath e (default (tasks +:+ "/output") (u_tasksOutputDir user)) ∈ existing w ->
  Forall (fun p => resolveConfigPath e p ∈ existing w) pre ->
  resolveConfig e user w = Threw "TypeError" w.
Proof.
  intros Hps Hfresh Hnd Hexts Hv tasks Htasks Hout Hpre.
  destruct (first_profile_decides e user w key opts others Hps Hfresh Htasks Hout)
    as (profiles0 & Hget & _ & Hthrow).
  apply Hthrow.
  apply (checkProfile_ext_not_a_string e _ key (obj_spread defaultProfileOpts opts)
           pre v post); try done.
  by apply obj_get_spread.
Qed.

Lemma first_profile_ext_not_a_string_witness :
  resolveConfig installed (profile_with_exts (JArray [JNumber 1]))
    {| console := []; existing := {["/proj/tasks"; "/proj/tasks/output"]};
       creatable := ∅ |}
  = Threw "TypeError"
      {| console := []; existing := {["/proj/tasks"; "/proj/tasks/output"]};
         creatable := ∅ |}.
Proof.
  refine (first_profile_ext_not_a_string installed
            (profile_with_exts (JArray [JNumber 1]))
            {| console := []; existing := {["/proj/tasks"; "/proj/tasks/output"]};
               creatable := ∅ |}
            "work" [("exts", JArray [JNumber 1])] [] [] (JNumber 1) []
            _ _ _ _ _ _ _ _).
  - reflexivity.
  - compute_done.
  - compute_done.
  - reflexivity.
  - discriminate.
  - set_solver.
  - set_solver.
  - apply Forall_nil_2.
Defined.

End ConfigFailures.

(** ** More on cookie deletion *)

Section CookiePrompt.
Import Js Proc Cookies CookieExamples MoreCookieExamples.

(** X28: unless the line read from the terminal is exactly [y], or
    when there is no line to read, [delFile] removes nothing: it prints
    the prompt, closes the terminal interface and returns. *)
Theorem delFile_declined (file : string) (confirmMsg : option string) (w : world) :
  is_yes (head (stdin w)) = false ->
  let r := delFile file confirmMsg w in
  returned r = Some tt
  /\ files (final r) = files w
  /\ readline_open (final r) = false
  /\ console (final r)
     = console w
       ++ [Log (Prompt (default ("Are you sure you want to delete " +:+ file +:+ "?")
                          confirmMsg))].
Proof.
  intros Hno r. unfold r, delFile, bind, set_readline, console_log, modify, next_line.
  simpl. destruct (stdin w) as [|l rest]; simpl in *.
  - done.
  - by rewrite Hno.
Qed.

Lemma delFile_declined_witness :
  let r := delFile "/p/dev/Default/Cookies" (Some "Delete cookies?") terminal_capital in
  returned r = Some tt
  /\ files (final r) = {["/p/dev/Default/Cookies"]}
  /\ readline_open (final r) = false
  /\ console (final r) = [Log (Prompt "Delete cookies?")].
Proof.
  exact (delFile_declined "/p/dev/Default/Cookies" (Some "Delete cookies?")
           terminal_capital eq_refl).
Defined.

(** X29: however [delFile] ends, the only file it can have removed is
    the one it was called for, and it has removed it exactly when the
    line read from the terminal is [y] and [unlinkSync] does not fail. *)
Theorem delFile_removes_only_the_confirmed_file
    (file : string) (confirmMsg : option string) (w : world) :
  files (final (delFile file confirmMsg w))
  = if is_yes (head (stdin w)) && bool_decide (locked w !! file = None)
    then files w ∖ {[file]}
    else files w.
Proof.
  unfold delFile, bind, set_readline, console_log, modify, next_line. simpl.
  destruct (stdin w) as [|l rest]; simpl; [done|].
  destruct (String.eqb l "y"); simpl; [|done].
  unfold try_catch, bind, unlinkSync. simpl.
  destruct (locked w !! file) as [code|] eqn:Hl; simpl.
  - by destruct (String.eqb code "ENOENT").
  - destruct (bool_decide (file ∈ files w)) eqn:Hf; simpl; [done|].
    apply bool_decide_eq_false in Hf. set_solver.
Qed.

End CookiePrompt.

Section CookieRemoval.
Import Js Proc Cookies CookieExamples MoreCookieExamples.

(** X30: when the line read from the terminal is [y] and the file
    exists and can be removed, [delFile] removes it, closes the terminal
    interface and returns, having printed the prompt and then the fixed
    text [Successfully removed ${file}], in which the name of the file
    is not filled in. *)
Theorem delFile_confirmed_removes
    (file : string) (confirmMsg : option string) (w : world) :
  is_yes (head (stdin w)) = true ->
  locked w !! file = None ->
  file ∈ files w ->
  let r := delFile file confirmMsg w in
  returned r = Some tt
  /\ files (final r) = files w ∖ {[file]}
  /\ readline_open (final r) = false
  /\ console (final r)
     = console w
       ++ [Log (Prompt (default ("Are you sure you want to delete " +:+ file +:+ "?")
                          confirmMsg));
           Log Removed]
  /\ render Removed = "Successfully removed ${file}".
Proof.
  intros Hyes Hfree Hin r.
  unfold r, delFile, bind, set_readline, console_log, modify, next_line. simpl.
  destruct (stdin w) as [|l rest]; simpl in *; [done|]. rewrite Hyes. simpl.
  unfold try_catch, bind, unlinkSync. simpl.
  rewrite Hfree, bool_decide_eq_true_2 by done. simpl.
  unfold console_log, modify. simpl. by rewrite <- app_assoc.
Qed.

Lemma delFile_confirmed_removes_witness :
  let r := delFile "/p/dev/Default/Cookies" None terminal_confirmed in
  returned r = Some tt
  /\ files (final r) = {["/p/dev/Default/Cookies"]} ∖ {["/p/dev/Default/Cookies"]}
  /\ readline_open (final r) = false
  /\ console (final r)
     = [Log (Prompt "Are you sure you want to delete /p/dev/Default/Cookies?");
        Log Removed]
  /\ render Removed = "Successfully removed ${file}".
Proof.
  refine (delFile_confirmed_removes "/p/dev/Default/Cookies" None terminal_confirmed
            eq_refl eq_refl _).
  set_solver.
Defined.

End CookieRemoval.
